(** * A shallow embedding of the relialimo_orchestra package

    The Python sources are [relialimo_orchestra/orchestrator.py],
    [tools_repo.py], [context.py] and [config.py].  Python strings are
    modelled as ASCII [String.string]; Python ints as [Z]; the outside world
    (child processes, the language-model runner, the pseudo-random generator,
    path resolution) as a record of oracles; the effects of the code
    (exceptions, the file system, the event trace, the run context's mutable
    state) as an explicit state-and-error monad. *)

From Stdlib Require Import String Ascii List ZArith QArith Bool Lia Lqa Sorting.Sorted.
From Stdlib Require Import Floats.SpecFloat.
Import ListNotations.

Open Scope string_scope.
Set Warnings "-register-all,-abstract-large-number".


(* ------------------------------------------------------------------ *)
(** ** Python string helpers *)

Module Py.

(** [needle in hay] *)
Fixpoint contains (needle hay : string) : bool :=
  String.prefix needle hay ||
  match hay with
  | EmptyString => false
  | String _ t => contains needle t
  end.

(** [s.startswith(p)] *)
Definition startswith (s p : string) : bool := String.prefix p s.

(** [s[-n:]] for [n >= 0] *)
Definition tail_chars (n : nat) (s : string) : string :=
  String.substring (String.length s - n) n s.

(** [s[:n]] for [n >= 0] *)
Definition head_chars (n : nat) (s : string) : string :=
  String.substring 0 n s.

(** The characters [str.strip()] removes (ASCII whitespace). *)
Definition is_space (c : ascii) : bool :=
  let n := nat_of_ascii c in
  (n =? 32)%nat || (n =? 9)%nat || (n =? 10)%nat || (n =? 11)%nat
  || (n =? 12)%nat || (n =? 13)%nat || (n =? 28)%nat || (n =? 29)%nat
  || (n =? 30)%nat || (n =? 31)%nat.

Fixpoint lstrip (s : string) : string :=
  match s with
  | EmptyString => EmptyString
  | String c t => if is_space c then lstrip t else s
  end.

Definition rev_string (s : string) : string :=
  string_of_list_ascii (rev (list_ascii_of_string s)).

(** [s.strip()] *)
Definition strip (s : string) : string :=
  rev_string (lstrip (rev_string (lstrip s))).

(** [s.splitlines()] on ASCII text: line boundaries are \n, \r, \r\n,
    \x0b, \x0c, \x1c, \x1d and \x1e; a final boundary opens no empty line. *)
Definition is_line_break (c : ascii) : bool :=
  let n := nat_of_ascii c in
  (n =? 10)%nat || (n =? 13)%nat || (n =? 11)%nat || (n =? 12)%nat
  || (n =? 28)%nat || (n =? 29)%nat || (n =? 30)%nat.

Fixpoint splitlines_aux (cur : list ascii) (s : string) : list string :=
  match s with
  | EmptyString =>
      match cur with
      | [] => []
      | _ => [string_of_list_ascii (rev cur)]
      end
  | String c t =>
      if is_line_break c then
        let t' := if (nat_of_ascii c =? 13)%nat then
                    match t with
                    | String c2 t2 =>
                        if (nat_of_ascii c2 =? 10)%nat then t2 else t
                    | EmptyString => t
                    end
                  else t in
        string_of_list_ascii (rev cur) :: splitlines_aux [] t'
      else splitlines_aux (c :: cur) t
  end.

Definition splitlines (s : string) : list string := splitlines_aux [] s.

(** [" ".join(xs)] *)
Fixpoint join (sep : string) (xs : list string) : string :=
  match xs with
  | [] => ""
  | [x] => x
  | x :: r => x ++ sep ++ join sep r
  end.

(** [str(n)] for a Python int *)
Fixpoint digits_aux (fuel : nat) (n : N) (acc : string) : string :=
  match fuel with
  | O => acc
  | S f =>
      let acc' := String (ascii_of_N (48 + N.modulo n 10)) acc in
      if (n <? 10)%N then acc' else digits_aux f (N.div n 10) acc'
  end.

Definition str_N (n : N) : string :=
  digits_aux (S (N.size_nat n)) n "".

Definition str_Z (z : Z) : string :=
  if (z <? 0)%Z then "-" ++ str_N (Z.to_N (- z)) else str_N (Z.to_N z).

Definition char (n : nat) : string := String (ascii_of_nat n) "".
Definition nl : string := char 10.
Definition quote : string := char 39.
Definition dquote : string := char 34.
Definition bslash : string := char 92.

(** [repr(s)] of an ASCII string *)
Definition hex_digit (n : nat) : string :=
  if (n <? 10)%nat then char (48 + n) else char (87 + n).

Definition repr_char (q : ascii) (c : ascii) : string :=
  let n := nat_of_ascii c in
  if (n =? 92)%nat then bslash ++ bslash
  else if Ascii.eqb c q then bslash ++ String c ""
  else if (n =? 10)%nat then bslash ++ "n"
  else if (n =? 13)%nat then bslash ++ "r"
  else if (n =? 9)%nat then bslash ++ "t"
  else if (n <? 32)%nat || (127 <=? n)%nat then
    bslash ++ "x" ++ hex_digit (n / 16) ++ hex_digit (n mod 16)
  else String c "".

Fixpoint repr_body (q : ascii) (s : string) : string :=
  match s with
  | EmptyString => ""
  | String c t => repr_char q c ++ repr_body q t
  end.

Definition repr_str (s : string) : string :=
  if contains quote s && negb (contains dquote s)
  then dquote ++ repr_body (ascii_of_nat 34) s ++ dquote
  else quote ++ repr_body (ascii_of_nat 39) s ++ quote.

(** [repr(xs)] (and [str(xs)]) of a list of strings *)
Definition repr_list (xs : list string) : string :=
  "[" ++ join ", " (map repr_str xs) ++ "]".

End Py.

Import Py.

(* ------------------------------------------------------------------ *)
(** ** Pure paths ([pathlib.PurePosixPath]) *)

Record PurePath := mkPath { p_abs : bool; p_parts : list string }.

Fixpoint split_slash_aux (cur : list ascii) (s : string) : list string :=
  match s with
  | EmptyString => [string_of_list_ascii (rev cur)]
  | String c t =>
      if (nat_of_ascii c =? 47)%nat
      then string_of_list_ascii (rev cur) :: split_slash_aux [] t
      else split_slash_aux (c :: cur) t
  end.

(** [Path(s)]: empty and "." components are dropped, ".." is kept. *)
Definition path_of_string (s : string) : PurePath :=
  mkPath (startswith s "/")
         (filter (fun x => negb (String.eqb x "" || String.eqb x "."))
                 (split_slash_aux [] s)).

(** [a / b] *)
Definition path_div (a : PurePath) (b : string) : PurePath :=
  let pb := path_of_string b in
  if p_abs pb then pb else mkPath (p_abs a) (p_parts a ++ p_parts pb).

(** [str(p)] *)
Definition path_str (p : PurePath) : string :=
  match p_abs p, p_parts p with
  | true, xs => "/" ++ join "/" xs
  | false, [] => "."
  | false, xs => join "/" xs
  end.

(** A resolved path: the components of an absolute path. *)
Definition RPath := list string.

(* ------------------------------------------------------------------ *)
(** ** Python floats: IEEE 754 binary64

    A Python [float] is a [spec_float] with 53 bits of precision and
    maximal exponent 1024; [+], [*] and [<] on floats are [SFadd],
    [SFmul] and [SFltb], rounding to nearest, ties to even. *)

Definition prec : Z := 53.
Definition emax : Z := 1024.

Definition fadd : spec_float -> spec_float -> spec_float := SFadd prec emax.
Definition fmul : spec_float -> spec_float -> spec_float := SFmul prec emax.
Definition fltb : spec_float -> spec_float -> bool := SFltb.

(** The float nearest to [m * 2^e]. *)
Definition f_of (m e : Z) : spec_float := binary_normalize prec emax m e false.

(** The literals [0.5], [1.0], [2.0] (also [float(2)]), [0.25] and [20.0]. *)
Definition f_half : spec_float := f_of 1 (-1).
Definition f_one : spec_float := f_of 1 0.
Definition f_two : spec_float := f_of 2 0.
Definition f_quarter : spec_float := f_of 1 (-2).
Definition f_twenty : spec_float := f_of 20 0.

(** [random.random()] returns [(a*67108864.0+b)*(1.0/9007199254740992.0)]
    for a 27-bit [a] and a 26-bit [b]: the float [k * 2^-53] of the 53-bit
    integer [k = a * 2^26 + b]. *)
Definition py_random (k : Z) : spec_float := f_of k (-53).

(** [min(a, b)]: the first argument unless the second is smaller. *)
Definition py_min (a b : spec_float) : spec_float := if fltb b a then b else a.

(** The real value of a finite float, as a rational. *)
Definition pow2Q (e : Z) : Q :=
  if (0 <=? e)%Z then inject_Z (2 ^ e) else 1 # Z.to_pos (2 ^ (- e)).

Definition SF_val (f : spec_float) : option Q :=
  match f with
  | S754_zero _ => Some 0
  | S754_finite s m e => Some (inject_Z (cond_Zopp s (Zpos m)) * pow2Q e)
  | _ => None
  end.

(* ------------------------------------------------------------------ *)
(** ** Exceptions, the world and the effect monad *)

Inductive Exn :=
| RateLimitError (msg : string)                  (* openai.RateLimitError *)
| APIError (status_code : option Z) (msg : string)  (* other openai.APIError *)
| RuntimeError (msg : string)
| ValueError (msg : string)
| AttributeError (msg : string)
| TimeoutExpired (cmd : list string) (timeout : Z)
| OSError (msg : string)
| OtherError (msg : string).

(** [str(e)] *)
Definition exn_str (e : Exn) : string :=
  match e with
  | RateLimitError m | APIError _ m | RuntimeError m | ValueError m
  | AttributeError m | OSError m | OtherError m => m
  | TimeoutExpired cmd t =>
      "Command " ++ quote ++ repr_list cmd ++ quote ++ " timed out after "
        ++ str_Z t ++ " seconds"
  end.

(** What [subprocess.run] does for one call.  The locale's encoding is
    UTF-8.  [PExited] is a process whose output is valid UTF-8, with that
    output as text.  [PExitedUndecodable] is a process whose output is not:
    [stdout] and [stderr] are its decoding with [errors="replace"], and
    [reason] is [str()] of the [UnicodeDecodeError] that strict decoding
    raises. *)
Inductive ProcOutcome :=
| PLaunchError (e : Exn)            (* e.g. FileNotFoundError *)
| PTimedOut                         (* the timeout elapsed: TimeoutExpired *)
| PExited (returncode : Z) (stdout stderr : string)
| PExitedUndecodable (returncode : Z) (stdout stderr : string) (reason : string).

Inductive Agent := RepoMapper | Planner | Coder | Debugger | Reviewer | Judge.

(** The structured [final_output] of an agent run, with its
    [model_dump_json(indent=2)]. *)
Record AgentOutput := mkOutput { model_dump_json : string }.

Record World := mkWorld {
  w_proc : nat -> list string -> string -> Z -> ProcOutcome;
  w_runner : nat -> Agent -> string -> Z -> Exn + AgentOutput;
  w_random : nat -> Z;                  (* the n-th [random.random()] is [py_random] of it *)
  w_resolve : PurePath -> RPath;        (* [Path.resolve()] *)
  w_utcnow : string                     (* [strftime("%Y%m%d-%H%M%S")] *)
}.

Inductive Event :=
| EvProc (argv : list string) (cwd : string) (timeout : Z)
| EvActor (a : Agent) (prompt : string) (max_turns : Z)
| EvSleep (seconds : spec_float)
| EvPrint (line : string)
| EvStat (p : RPath)
| EvRead (p : RPath)
| EvWrite (p : RPath)
| EvMkdir (p : RPath).

Record St := mkSt {
  st_tick : nat;                          (* calls made to the world *)
  st_draws : nat;                         (* [random.random()] calls *)
  st_trace : list Event;
  st_ctx : list (string * string);        (* [ctx.state] *)
  st_files : list (RPath * string);
  st_dirs : list RPath
}.

Definition M (A : Type) := World -> St -> (Exn + A) * St.

Definition ret {A} (a : A) : M A := fun _ s => (inr a, s).
Definition raise {A} (e : Exn) : M A := fun _ s => (inl e, s).
Definition bind {A B} (m : M A) (f : A -> M B) : M B :=
  fun w s => match m w s with
             | (inl e, s') => (inl e, s')
             | (inr a, s') => f a w s'
             end.
(** [try: m except Exception as e: h(e)] *)
Definition catch {A} (m : M A) (h : Exn -> M A) : M A :=
  fun w s => match m w s with
             | (inl e, s') => h e w s'
             | r => r
             end.

Notation "x <- m ;; k" := (bind m (fun x => k))
  (at level 61, m at next level, right associativity).
Notation "m ;;; k" := (bind m (fun _ => k))
  (at level 61, right associativity).

Definition emit (ev : Event) : M unit :=
  fun _ s => (inr tt, mkSt (st_tick s) (st_draws s) (st_trace s ++ [ev])
                           (st_ctx s) (st_files s) (st_dirs s)).

Definition tick : M nat :=
  fun _ s => (inr (st_tick s), mkSt (S (st_tick s)) (st_draws s) (st_trace s)
                                     (st_ctx s) (st_files s) (st_dirs s)).

Definition ask : M World := fun w s => (inr w, s).

(** [random.random()] *)
Definition random : M spec_float :=
  fun w s => (inr (py_random (w_random w (st_draws s))),
              mkSt (st_tick s) (S (st_draws s)) (st_trace s)
                   (st_ctx s) (st_files s) (st_dirs s)).

(** [asyncio.sleep(t)] and [print(line)] *)
Definition sleep (t : spec_float) : M unit := emit (EvSleep t).
Definition print (line : string) : M unit := emit (EvPrint line).

(** [ctx.state[k] = v] *)
Definition ctx_set (k v : string) : M unit :=
  fun _ s => (inr tt, mkSt (st_tick s) (st_draws s) (st_trace s)
                           ((k, v) :: filter (fun kv => negb (String.eqb (fst kv) k)) (st_ctx s))
                           (st_files s) (st_dirs s)).

(* ------------------------------------------------------------------ *)
(** ** The command executors *)

(** [subprocess.run(argv, cwd=cwd, capture_output=True, text=True,
    timeout=timeout_sec)], with [encoding="utf-8", errors="replace"] when
    [errors_replace] holds and the locale's encoding, strict, otherwise:
    raises on a launch error or a timeout, and on undecodable output when
    decoding is strict. *)
Definition subprocess_run (argv : list string) (cwd : string) (timeout_sec : Z)
           (errors_replace : bool) : M (Z * string * string) :=
  n <- tick ;;
  w <- ask ;;
  emit (EvProc argv cwd timeout_sec) ;;;
  match w_proc w n argv cwd timeout_sec with
  | PLaunchError e => raise e
  | PTimedOut => raise (TimeoutExpired argv timeout_sec)
  | PExited rc out err => ret (rc, out, err)
  | PExitedUndecodable rc out err reason =>
      if errors_replace then ret (rc, out, err) else raise (OtherError reason)
  end.

(** The shared tail of both [_run]s: stdout, then stderr after a newline. *)
Definition combine_output (stdout stderr : string) : string :=
  let out := if String.eqb stdout "" then "" else stdout in
  let out := if String.eqb stderr "" then out else out ++ nl ++ stderr in
  strip out.

(** [orchestrator._run] *)
Definition orch_run (argv : list string) (cwd : string) (timeout_sec : Z)
  : M (Z * string) :=
  catch
    (r <- subprocess_run argv cwd timeout_sec true ;;
     let '(rc, out, err) := r in ret (rc, combine_output out err))
    (fun e => ret (1%Z, "ERROR running command " ++ repr_list argv ++ ": " ++ exn_str e)).

(** [tools_repo._run]: strict decoding, and no handler around
    [subprocess.run]. *)
Definition tools_run (argv : list string) (cwd : string) (timeout_sec : Z)
  : M (Z * string) :=
  r <- subprocess_run argv cwd timeout_sec false ;;
  let '(rc, out, err) := r in ret (rc, combine_output out err).

(* ------------------------------------------------------------------ *)
(** ** Configuration ([config.py]) and the run context ([context.py]) *)

Inductive TaskName := TInstall | TFormat | TLint | TTypecheck | TTest | TBuild.

Definition task_name_str (t : TaskName) : string :=
  match t with
  | TInstall => "install" | TFormat => "format" | TLint => "lint"
  | TTypecheck => "typecheck" | TTest => "test" | TBuild => "build"
  end.

Definition task_name_eqb (a b : TaskName) : bool :=
  String.eqb (task_name_str a) (task_name_str b).

Record TaskSpec := mkTaskSpec { argv : list string; spec_cwd : string }.

(** [OrchestraConfig.tasks]: a dict in insertion order. *)
Record OrchestraConfig := mkConfig { tasks : list (TaskName * TaskSpec) }.

(** [config.tasks.get(t)] *)
Fixpoint tasks_get (t : TaskName) (ts : list (TaskName * TaskSpec)) : option TaskSpec :=
  match ts with
  | [] => None
  | (k, v) :: r => if task_name_eqb k t then Some v else tasks_get t r
  end.

Record RepoContext := mkCtx {
  repo_dir : PurePath;
  config : OrchestraConfig;
  session_id : string
}.

(* ------------------------------------------------------------------ *)
(** ** Source-control helpers ([orchestrator.py] and [tools_repo.py]) *)

(** [any(x in name for x in ["..", "~", "^", ":", " ", "\\"])] *)
Definition bad_branch_tokens : list string := [".."; "~"; "^"; ":"; " "; bslash].

Definition branch_name_rejected (name : string) : bool :=
  existsb (fun x => contains x name) bad_branch_tokens.

(** [orchestrator._git_create_branch] *)
Definition orch_git_create_branch (repo : PurePath) (name : string) : M string :=
  if branch_name_rejected name then ret "ERROR: invalid branch name"
  else
    r <- orch_run ["git"; "checkout"; "-b"; name] (path_str repo) 60 ;;
    let '(code, out) := r in
    if negb (code =? 0)%Z then ret ("ERROR: git checkout -b failed" ++ nl ++ out)
    else ret ("OK: on branch " ++ name).

(** [tools_repo.git_create_branch] *)
Definition tools_git_create_branch (ctx : RepoContext) (name : string) : M string :=
  if branch_name_rejected name then ret "ERROR: invalid branch name"
  else
    r <- tools_run ["git"; "checkout"; "-b"; name] (path_str (repo_dir ctx)) 60 ;;
    let '(code, out) := r in
    if negb (code =? 0)%Z then ret ("ERROR: git checkout -b failed" ++ nl ++ out)
    else ctx_set "branch" name ;;; ret ("OK: on branch " ++ name).

(** [orchestrator._git_status] *)
Definition orch_git_status (repo : PurePath) : M string :=
  r <- orch_run ["git"; "status"; "--porcelain=v1"] (path_str repo) 60 ;;
  let '(code, out) := r in
  if negb (code =? 0)%Z then ret ("ERROR: git status failed" ++ nl ++ out)
  else ret (if String.eqb out "" then "(clean)" else out).

(** [orchestrator._git_diff(repo_dir)] with its defaults
    [staged=False, max_chars=8000] *)
Definition orch_git_diff (repo : PurePath) : M string :=
  r <- orch_run ["git"; "diff"] (path_str repo) 60 ;;
  let '(code, out) := r in
  if negb (code =? 0)%Z then ret ("ERROR: git diff failed" ++ nl ++ out)
  else if (8000 <? String.length out)%nat
  then ret (head_chars 8000 out ++ nl ++ "... (truncated)")
  else ret (if String.eqb out "" then "(no diff)" else out).

(** [orchestrator._git_commit_all] *)
Definition orch_git_commit_all (repo : PurePath) (message : string) : M string :=
  if String.eqb (strip message) "" then ret "ERROR: empty commit message"
  else
    r <- orch_run ["git"; "add"; "-A"] (path_str repo) 60 ;;
    let '(code, out) := r in
    if negb (code =? 0)%Z then ret ("ERROR: git add failed" ++ nl ++ out)
    else
      r2 <- orch_run ["git"; "commit"; "-m"; strip message] (path_str repo) 60 ;;
      let '(code2, out2) := r2 in
      if negb (code2 =? 0)%Z then ret ("ERROR: git commit failed" ++ nl ++ out2)
      else ret "OK: committed".

(* ------------------------------------------------------------------ *)
(** ** The patch validator ([tools_repo._patch_is_safe]) *)

Definition bad_markers : list string := [nl ++ "+++ /"; nl ++ "--- /"; "diff --git /"].

Definition is_header_line (line : string) : bool :=
  startswith line "+++ " || startswith line "--- " || startswith line "diff --git ".

Definition patch_is_safe (patch_text : string) : bool * string :=
  match find (fun m => contains m patch_text) bad_markers with
  | Some m => (false, "Unsafe patch: contains absolute path marker " ++ repr_str m)
  | None =>
      if existsb (fun line => is_header_line line
                              && (contains "../" line || contains (".." ++ bslash) line))
                 (splitlines patch_text)
      then (false, "Unsafe patch: contains parent traversal in diff header")
      else (true, "OK")
  end.

(* ------------------------------------------------------------------ *)
(** ** The task runner ([orchestrator._run_tasks]) *)

Definition TASK_ORDER : list TaskName := [TFormat; TLint; TTypecheck; TTest; TBuild].

(** A value of the [status] dict: [{"skipped": True}] or
    [{"ok", "returncode", "cmd", "output_tail"}]. *)
Inductive TaskEntry :=
| Skipped
| Ran (ok : bool) (returncode : Z) (cmd : string) (output_tail : string).

Definition Status := list (TaskName * TaskEntry).

Fixpoint run_tasks_loop (ctx : RepoContext) (ts : list TaskName) (status : Status)
  : M Status :=
  match ts with
  | [] => ret status
  | task :: rest =>
      match tasks_get task (tasks (config ctx)) with
      | None => run_tasks_loop ctx rest (app status [(task, Skipped)])
      | Some spec =>
          r <- orch_run (argv spec) (path_str (path_div (repo_dir ctx) (spec_cwd spec))) 900 ;;
          let '(code, out) := r in
          let tail := tail_chars 4000 out in
          let ok := (code =? 0)%Z in
          let status' := app status [(task, Ran ok code (join " " (argv spec)) tail)] in
          if negb ok then ret status'          (* break: first failure *)
          else run_tasks_loop ctx rest status'
      end
  end.

Definition run_tasks (ctx : RepoContext) : M Status := run_tasks_loop ctx TASK_ORDER [].

(* ------------------------------------------------------------------ *)
(** ** Actor invocations and the retry wrapper *)

(** [await Runner.run(agent, prompt, context=ctx, session=session,
    max_turns=max_turns)]: the n-th call made to the world is answered by
    [w_runner]. *)
Definition runner_run (agent : Agent) (prompt : string) (max_turns : Z) : M AgentOutput :=
  n <- tick ;;
  w <- ask ;;
  emit (EvActor agent prompt max_turns) ;;;
  match w_runner w n agent prompt max_turns with
  | inl e => raise e
  | inr o => ret o
  end.

(** One backoff step: [sleep_s = min(20.0, delay) * (1.0 + random.random() * 0.25)],
    the log line, the sleep. *)
Definition backoff_sleep (tag label : string) (attempt max_attempts : Z) (delay : spec_float)
  : M unit :=
  r <- random ;;
  let sleep_s := fmul (py_min f_twenty delay) (fadd f_one (fmul r f_quarter)) in
  print (tag ++ " " ++ label ++ ": retrying (attempt " ++ str_Z attempt ++ "/"
         ++ str_Z max_attempts ++ ")") ;;;
  sleep sleep_s.

(** The [for attempt in range(1, max_attempts + 1)] loop of
    [_run_agent_with_backoff]; [fuel] is the number of attempts left. *)
Fixpoint backoff_loop (label : string) (agent : Agent) (prompt : string)
         (max_turns max_attempts : Z) (fuel : nat) (attempt : Z) (delay : spec_float)
  : M AgentOutput :=
  match fuel with
  | O => raise (RuntimeError (label ++ ": exceeded retries after "
                              ++ str_Z max_attempts ++ " attempts"))
  | S f =>
      catch (runner_run agent prompt max_turns)
        (fun e =>
           match e with
           | RateLimitError _ =>
               backoff_sleep "[rate-limit]" label attempt max_attempts delay ;;;
               backoff_loop label agent prompt max_turns max_attempts f
                            (attempt + 1) (fmul delay f_two)
           | APIError status _ =>
               match status with
               | Some c => if (c <? 500)%Z then raise e else
                   backoff_sleep "[openai-5xx]" label attempt max_attempts delay ;;;
                   backoff_loop label agent prompt max_turns max_attempts f
                                (attempt + 1) (fmul delay f_two)
               | None =>
                   backoff_sleep "[openai-5xx]" label attempt max_attempts delay ;;;
                   backoff_loop label agent prompt max_turns max_attempts f
                                (attempt + 1) (fmul delay f_two)
               end
           | _ => raise e
           end)
  end.

(** [_run_agent_with_backoff(label, agent, prompt, ..., max_turns,
    max_attempts=8)] *)
Definition run_agent_with_backoff (label : string) (agent : Agent) (prompt : string)
           (max_turns max_attempts : Z) : M AgentOutput :=
  backoff_loop label agent prompt max_turns max_attempts (Z.to_nat max_attempts) 1 f_half.

Definition sleeps (tr : list Event) : list spec_float :=
  flat_map (fun ev => match ev with EvSleep q => [q] | _ => [] end) tr.

Definition actors (tr : list Event) : list Agent :=
  flat_map (fun ev => match ev with EvActor a _ _ => [a] | _ => [] end) tr.

(* ------------------------------------------------------------------ *)
(** ** The pipeline controller ([orchestrator.run_orchestra])

    In [orchestrator.py] the definition of [_run_agent_with_backoff] sits
    between line 232 ([status = _run_tasks(ctx)]) and the rest of the body
    of the implement loop (lines 274-314, indented at loop level).  The
    model below is the controller with that loop body in place: lines
    141-232 followed by lines 274-354.  Every actor call of the controller
    is a plain [await Runner.run(...)], as in the source. *)

(** [str.isalnum] and [str.lower] on the 7-bit ASCII characters
    ([is_ascii7]); on other characters Python's Unicode rules differ
    (['İ'.lower()] is two code points), and the statements that depend on
    them assume an ASCII goal. *)
Definition is_ascii7 (c : ascii) : bool := Nat.ltb (nat_of_ascii c) 128.

Definition is_alnum (c : ascii) : bool :=
  let n := nat_of_ascii c in
  (Nat.leb 48 n && Nat.leb n 57) || (Nat.leb 65 n && Nat.leb n 90)
  || (Nat.leb 97 n && Nat.leb n 122).

Definition lower (c : ascii) : ascii :=
  let n := nat_of_ascii c in
  if Nat.leb 65 n && Nat.leb n 90 then ascii_of_nat (n + 32) else c.

Fixpoint slug_chars (s : string) : string :=
  match s with
  | EmptyString => EmptyString
  | String c t => String (if is_alnum c then lower c else "-"%char) (slug_chars t)
  end.

Fixpoint lstrip_dash (s : string) : string :=
  match s with
  | String "-"%char t => lstrip_dash t
  | _ => s
  end.

(** [s.strip("-")] *)
Definition strip_dash (s : string) : string :=
  rev_string (lstrip_dash (rev_string (lstrip_dash s))).

Fixpoint split_dash_aux (cur : list ascii) (s : string) : list string :=
  match s with
  | EmptyString => [string_of_list_ascii (rev cur)]
  | String "-"%char t => string_of_list_ascii (rev cur) :: split_dash_aux [] t
  | String c t => split_dash_aux (c :: cur) t
  end.

(** [_branch_name_from_goal]; [ts] is the formatted UTC time. *)
Definition branch_name_from_goal (ts goal : string) : string :=
  let slug := strip_dash (slug_chars goal) in
  let slug := head_chars 40 (join "-" (filter (fun p => negb (String.eqb p ""))
                                              (split_dash_aux [] slug))) in
  "ai/" ++ ts ++ "_" ++ (if String.eqb slug "" then "change" else slug).

(** [str(config.dump())] *)
Definition config_dump_str (c : OrchestraConfig) : string :=
  "{" ++ repr_str "tasks" ++ ": {"
      ++ join ", " (map (fun kv => repr_str (task_name_str (fst kv)) ++ ": "
                                     ++ repr_list (argv (snd kv))) (tasks c))
      ++ "}}".

Definition repr_bool (b : bool) : string := if b then "True" else "False".

(** [str(status)] *)
Definition repr_entry (e : TaskEntry) : string :=
  match e with
  | Skipped => "{" ++ repr_str "skipped" ++ ": True}"
  | Ran ok code cmd tail =>
      "{" ++ repr_str "ok" ++ ": " ++ repr_bool ok ++ ", "
          ++ repr_str "returncode" ++ ": " ++ str_Z code ++ ", "
          ++ repr_str "cmd" ++ ": " ++ repr_str cmd ++ ", "
          ++ repr_str "output_tail" ++ ": " ++ repr_str tail ++ "}"
  end.

Definition repr_status (st : Status) : string :=
  "{" ++ join ", " (map (fun kv => repr_str (task_name_str (fst kv)) ++ ": "
                                   ++ repr_entry (snd kv)) st) ++ "}".

Fixpoint status_get (t : TaskName) (st : Status) : option TaskEntry :=
  match st with
  | [] => None
  | (k, v) :: r => if task_name_eqb k t then Some v else status_get t r
  end.

(** "Detect first failure output": [(failed, last_failure_output)]. *)
Fixpoint detect_failure (ts : list TaskName) (status : Status) : bool * string :=
  match ts with
  | [] => (false, "")
  | t :: r =>
      match status_get t status with
      | None | Some Skipped => detect_failure r status   (* [{}] or skipped *)
      | Some (Ran ok _ cmd tail) =>
          if negb ok then (true, task_name_str t ++ ": " ++ cmd ++ nl ++ tail)
          else detect_failure r status
      end
  end.

Definition REPO_MAP_MAX_TURNS : Z := 30.
Definition PLAN_MAX_TURNS : Z := 20.
Definition CODER_IMPLEMENT_MAX_TURNS : Z := 60.
Definition DEBUGGER_MAX_TURNS : Z := 20.
Definition CODER_FIX_MAX_TURNS : Z := 40.
Definition REVIEW_MAX_TURNS : Z := 20.
Definition JUDGE_MAX_TURNS : Z := 20.

Definition repo_map_prompt : string :=
  "Map this repo for a developer." ++ nl
  ++ "Constraints:" ++ nl
  ++ "- Make at most 4 tool calls total." ++ nl
  ++ "- Prefer: list_files (top-level), read README.md (if present), read package.json (if present)." ++ nl
  ++ "- Identify: stack, entrypoints, scripts/commands, and key directories." ++ nl
  ++ "- Return your final repo map JSON and STOP." ++ nl.

Definition implement_prompt (i max_iterations : Z) (goal : string) (plan : AgentOutput)
           (git_status : string) (c : OrchestraConfig) (last_failure_output : string)
  : string :=
  let p := "ITERATION " ++ str_Z i ++ "/" ++ str_Z max_iterations ++ nl
           ++ "GOAL:" ++ nl ++ goal ++ nl ++ nl
           ++ "PLAN_JSON:" ++ nl ++ model_dump_json plan ++ nl ++ nl
           ++ "CURRENT_GIT_STATUS:" ++ nl ++ git_status ++ nl ++ nl
           ++ "TASK_CONFIG_JSON:" ++ nl ++ config_dump_str c ++ nl ++ nl in
  let p := if String.eqb last_failure_output "" then p
           else p ++ "PREVIOUS_FAILURE_OUTPUT:" ++ nl ++ last_failure_output ++ nl ++ nl in
  p ++ "Implement the plan now. Make the smallest correct change. "
    ++ "Use apply_patch/write_file. Read files before editing. "
    ++ "After edits, run the configured tasks via run_task.".

Definition plan_prompt (goal : string) (repo_map : AgentOutput) (c : OrchestraConfig)
  : string :=
  "GOAL:" ++ nl ++ goal ++ nl ++ nl
  ++ "REPO_MAP_JSON:" ++ nl ++ model_dump_json repo_map ++ nl ++ nl
  ++ "TASK_CONFIG_JSON:" ++ nl ++ config_dump_str c ++ nl ++ nl
  ++ "Produce the best step-by-step implementation plan.".

Definition debug_prompt (goal last_failure_output diff : string) : string :=
  "GOAL:" ++ nl ++ goal ++ nl ++ nl
  ++ "FAILURE_OUTPUT:" ++ nl ++ last_failure_output ++ nl ++ nl
  ++ "CURRENT_DIFF:" ++ nl ++ diff ++ nl ++ nl
  ++ "Diagnose and propose minimal fix.".

Definition fix_prompt (debug_result : AgentOutput) : string :=
  "Apply this fix plan now:" ++ nl ++ model_dump_json debug_result ++ nl ++ nl
  ++ "Implement the smallest patch to address the failure.".

Definition review_prompt (diff_text : string) : string :=
  "Review this diff:" ++ nl ++ nl ++ diff_text.

Definition judge_prompt (goal diff_text : string) (status : Status) (review : AgentOutput)
  : string :=
  "GOAL:" ++ nl ++ goal ++ nl ++ nl
  ++ "DIFF:" ++ nl ++ diff_text ++ nl ++ nl
  ++ "STATUS_JSON:" ++ nl ++ repr_status status ++ nl ++ nl
  ++ "REVIEW_JSON:" ++ nl ++ model_dump_json review ++ nl ++ nl
  ++ "Is this done?".

(** The implement/verify/diagnose loop, [for i in range(1, max_iterations + 1)];
    [fuel] is the number of iterations left, the result the final [status]. *)
Fixpoint implement_loop (ctx : RepoContext) (goal : string) (plan : AgentOutput)
         (max_iterations : Z) (fuel : nat) (i : Z)
         (status : Status) (last_failure_output : string) : M Status :=
  match fuel with
  | O => ret status
  | S f =>
      let repo := repo_dir ctx in
      gs <- orch_git_status repo ;;
      runner_run Coder (implement_prompt i max_iterations goal plan gs (config ctx)
                                         last_failure_output)
                 CODER_IMPLEMENT_MAX_TURNS ;;;
      status <- run_tasks ctx ;;
      let '(failed, last_failure_output) := detect_failure TASK_ORDER status in
      if negb failed then ret status
      else
        diff <- orch_git_diff repo ;;
        debug_result <- runner_run Debugger (debug_prompt goal last_failure_output diff)
                                   DEBUGGER_MAX_TURNS ;;
        runner_run Coder (fix_prompt debug_result) CODER_FIX_MAX_TURNS ;;;
        implement_loop ctx goal plan max_iterations f (i + 1) status last_failure_output
  end.

Record OrchestraRunResult := mkResult {
  repo_map : AgentOutput;
  plan : AgentOutput;
  final_status : Status;
  review : AgentOutput;
  judge : AgentOutput;
  diff : string
}.

(** [run_orchestra(repo_dir, goal, config_path, session_id, max_iterations,
    create_branch, commit)], from the point where the configuration has been
    loaded: [config] is the value of [load_or_detect_config(...)]. *)
Definition run_orchestra (repo_dir0 : PurePath) (goal : string) (config0 : OrchestraConfig)
           (session_id0 : string) (max_iterations : Z) (create_branch commit : bool)
  : M OrchestraRunResult :=
  w <- ask ;;
  let repo := mkPath true (w_resolve w repo_dir0) in
  let ctx := mkCtx repo config0 session_id0 in
  (if create_branch then
     let branch := branch_name_from_goal (w_utcnow w) goal in
     orch_git_create_branch repo branch ;;; ctx_set "branch" branch
   else ret tt) ;;;
  repo_map_result <- runner_run RepoMapper repo_map_prompt REPO_MAP_MAX_TURNS ;;
  plan_result <- runner_run Planner (plan_prompt goal repo_map_result config0) PLAN_MAX_TURNS ;;
  status <- implement_loop ctx goal plan_result max_iterations
                           (Z.to_nat max_iterations) 1 [] "" ;;
  diff_text <- orch_git_diff repo ;;
  review_result <- runner_run Reviewer (review_prompt diff_text) REVIEW_MAX_TURNS ;;
  judge_result <- runner_run Judge (judge_prompt goal diff_text status review_result)
                             JUDGE_MAX_TURNS ;;
  (if commit then orch_git_commit_all repo (strip ("AI: " ++ goal)) ;;; ret tt
   else ret tt) ;;;
  ret (mkResult repo_map_result plan_result status review_result judge_result diff_text).

(* ------------------------------------------------------------------ *)
(** ** Paths confined to the repository ([RepoContext.abs_path]) and the
    file tools that use it ([tools_repo.read_file], [tools_repo.write_file]) *)

(** [==] on paths *)
Fixpoint rpath_eqb (a b : RPath) : bool :=
  match a, b with
  | [], [] => true
  | x :: a', y :: b' => String.eqb x y && rpath_eqb a' b'
  | _, _ => false
  end.

(** [p.parents]: the proper ancestors, nearest first. *)
Definition parents (p : RPath) : list RPath :=
  map (fun k => firstn k p) (rev (seq 0 (length p))).

(** [RepoContext.abs_path] *)
Definition abs_path (ctx : RepoContext) (rel_path : string) : M RPath :=
  w <- ask ;;
  let candidate := w_resolve w (path_div (repo_dir ctx) rel_path) in
  let repo_root := w_resolve w (repo_dir ctx) in
  if negb (existsb (rpath_eqb repo_root) (parents candidate))
     && negb (rpath_eqb candidate repo_root)
  then raise (ValueError ("Path escapes repo: " ++ rel_path))
  else ret candidate.

(** The file system operations the tools perform. *)
Definition fs_exists (p : RPath) : M bool :=
  emit (EvStat p) ;;;
  fun _ s => (inr (existsb (fun f => rpath_eqb (fst f) p) (st_files s)
                   || existsb (rpath_eqb p) (st_dirs s)), s).

Definition fs_is_file (p : RPath) : M bool :=
  emit (EvStat p) ;;;
  fun _ s => (inr (existsb (fun f => rpath_eqb (fst f) p) (st_files s)), s).

Definition fs_read_text (p : RPath) : M string :=
  emit (EvRead p) ;;;
  fun _ s => (inr (match find (fun f => rpath_eqb (fst f) p) (st_files s) with
                   | Some f => snd f | None => "" end), s).

(** [q.is_dir()] and [q.is_file()]; the root is a directory. *)
Definition is_dir_at (s : St) (q : RPath) : bool :=
  match q with
  | [] => true
  | _ => existsb (rpath_eqb q) (st_dirs s)
  end.

Definition is_file_at (s : St) (q : RPath) : bool :=
  existsb (fun f => rpath_eqb (fst f) q) (st_files s).

(** The proper ancestors of [p], from the root down. *)
Definition ancestors (p : RPath) : list RPath :=
  map (fun k => firstn k p) (seq 0 (length p)).

(** [str(p)] of a resolved path *)
Definition rpath_str (p : RPath) : string := path_str (mkPath true p).

(** The [OSError] of the system call on [p] that meets, walking down from
    the root, an ancestor that is not a directory: [NotADirectoryError]
    for a file, [FileNotFoundError] for a missing one. *)
Definition lookup_error (s : St) (p : RPath) : option Exn :=
  match find (fun q => negb (is_dir_at s q)) (ancestors p) with
  | None => None
  | Some q =>
      Some (OSError ((if is_file_at s q then "[Errno 20] Not a directory: "
                      else "[Errno 2] No such file or directory: ") ++ repr_str (rpath_str p)))
  end.

(** [p.write_text(content, encoding="utf-8")]: [open(p, "w")] raises when
    an ancestor is not a directory, and [IsADirectoryError] when [p] is a
    directory. *)
Definition fs_write_text (p : RPath) (content : string) : M unit :=
  emit (EvWrite p) ;;;
  fun _ s =>
    match lookup_error s p with
    | Some e => (inl e, s)
    | None =>
        if is_dir_at s p
        then (inl (OSError ("[Errno 21] Is a directory: " ++ repr_str (rpath_str p))), s)
        else (inr tt, mkSt (st_tick s) (st_draws s) (st_trace s) (st_ctx s)
                           ((p, content) :: filter (fun f => negb (rpath_eqb (fst f) p)) (st_files s))
                           (st_dirs s))
    end.

(** [p.mkdir(parents=True, exist_ok=True)]: [os.mkdir(p)] raises
    [NotADirectoryError] when an ancestor is a file, and [FileExistsError]
    when [p] is a file (an existing directory is accepted); missing
    ancestors are created first. *)
Definition fs_mkdir (p : RPath) : M unit :=
  emit (EvMkdir p) ;;;
  fun _ s =>
    if existsb (is_file_at s) (ancestors p)
    then (inl (OSError ("[Errno 20] Not a directory: " ++ repr_str (rpath_str p))), s)
    else if is_file_at s p
    then (inl (OSError ("[Errno 17] File exists: " ++ repr_str (rpath_str p))), s)
    else (inr tt, mkSt (st_tick s) (st_draws s) (st_trace s) (st_ctx s) (st_files s)
                       (map (fun k => firstn k p) (seq 0 (S (length p))) ++ st_dirs s)).

(** [f"{i:>6}"] *)
Definition pad6 (s : string) : string :=
  String.concat "" (repeat " " (6 - String.length s)) ++ s.

(** [tools_repo.write_file] *)
Definition write_file (ctx : RepoContext) (path content : string) (create_dirs : bool)
  : M string :=
  p <- abs_path ctx path ;;
  (if create_dirs then fs_mkdir (removelast p) else ret tt) ;;;
  fs_write_text p content ;;;
  ret ("OK: wrote " ++ path ++ " (" ++ str_N (N.of_nat (String.length content)) ++ " bytes)").

(** When [write_file(path, content, create_dirs)] on the resolved path [p]
    succeeds: with [create_dirs], no ancestor of [p] is a file; without it,
    every ancestor is a directory; and [p] is not a directory. *)
Definition write_target_ok (s : St) (p : RPath) (create_dirs : bool) : bool :=
  (if create_dirs then forallb (fun q => negb (is_file_at s q)) (ancestors p)
   else forallb (is_dir_at s) (ancestors p))
  && negb (is_dir_at s p).

(** [tools_repo.read_file] *)
Definition read_file (ctx : RepoContext) (path : string) (start_line end_line : Z)
  : M string :=
  p <- abs_path ctx path ;;
  ex <- fs_exists p ;;
  isf <- (if negb ex then ret false else fs_is_file p) ;;
  if negb isf then ret ("ERROR: file not found: " ++ path)
  else
    raw <- fs_read_text p ;;
    let text := splitlines raw in
    let start := Z.max 1 start_line in
    let end_ := Z.min (Z.of_nat (length text)) end_line in
    let idx := map (fun k => start + Z.of_nat k)%Z (seq 0 (Z.to_nat (end_ - start + 1))) in
    let lines := map (fun i => pad6 (str_Z i) ++ " | "
                               ++ nth (Z.to_nat (i - 1)) text "") idx in
    let header := "FILE: " ++ path ++ " (lines " ++ str_Z start ++ "-" ++ str_Z end_
                  ++ " of " ++ str_Z (Z.of_nat (length text)) ++ ")" in
    ret (header ++ nl ++ join nl lines).

(* ------------------------------------------------------------------ *)
(** ** Loading a configuration file ([OrchestraConfig.load])

    The value [json.loads(path.read_text(...))] is modelled as a Python
    value built by the JSON decoder: objects are dicts (keys in order),
    arrays are lists. *)

Inductive PyVal :=
| PNone
| PBool (b : bool)
| PInt (z : Z)
| PFloat (q : Q)
| PStr (s : string)
| PList (xs : list PyVal)
| PDict (kvs : list (string * PyVal)).

Definition type_name (v : PyVal) : string :=
  match v with
  | PNone => "NoneType" | PBool _ => "bool" | PInt _ => "int" | PFloat _ => "float"
  | PStr _ => "str" | PList _ => "list" | PDict _ => "dict"
  end.

Fixpoint dict_get (k : string) (kvs : list (string * PyVal)) : option PyVal :=
  match kvs with
  | [] => None
  | (k', v) :: r => if String.eqb k' k then Some v else dict_get k r
  end.

Definition task_name_of_string (k : string) : option TaskName :=
  find (fun t => String.eqb (task_name_str t) k)
       [TInstall; TFormat; TLint; TTypecheck; TTest; TBuild].

(** [isinstance(v, list) and all(isinstance(x, str) for x in v)]: the strings. *)
Definition str_list (v : PyVal) : option (list string) :=
  match v with
  | PList xs =>
      fold_right (fun x acc => match x, acc with
                               | PStr s, Some r => Some (s :: r)
                               | _, _ => None
                               end) (Some []) xs
  | _ => None
  end.

(** [tasks[k] = v] on a dict in insertion order *)
Fixpoint tasks_set (k : TaskName) (v : TaskSpec) (ts : list (TaskName * TaskSpec))
  : list (TaskName * TaskSpec) :=
  match ts with
  | [] => [(k, v)]
  | (k', v') :: r => if task_name_eqb k' k then (k', v) :: r else (k', v') :: tasks_set k v r
  end.

Fixpoint load_tasks (raw : list (string * PyVal)) (acc : list (TaskName * TaskSpec))
  : list (TaskName * TaskSpec) :=
  match raw with
  | [] => acc
  | (k, v) :: r =>
      match task_name_of_string k with
      | None => load_tasks r acc                                (* continue *)
      | Some t =>
          match str_list v with
          | None => load_tasks r acc                            (* continue *)
          | Some xs => load_tasks r (tasks_set t (mkTaskSpec xs ".") acc)
          end
      end
  end.

(** [OrchestraConfig.load] after [json.loads]: [data.get("tasks", {})],
    then [raw_tasks.items()]. *)
Definition config_load (data : PyVal) : Exn + OrchestraConfig :=
  match data with
  | PDict kvs =>
      let raw_tasks := match dict_get "tasks" kvs with Some v => v | None => PDict [] end in
      match raw_tasks with
      | PDict raw => inr (mkConfig (load_tasks raw []))
      | v => inl (AttributeError (quote ++ type_name v ++ quote
                                  ++ " object has no attribute " ++ quote ++ "items" ++ quote))
      end
  | v => inl (AttributeError (quote ++ type_name v ++ quote
                              ++ " object has no attribute " ++ quote ++ "get" ++ quote))
  end.

(* ------------------------------------------------------------------ *)
(** ** More of the source-control helpers: [orchestrator._git_diff] with its
    arguments, and the agent tools of [tools_repo.py] *)

(** [s[:n]] for any Python int [n] *)
Definition py_slice_to (n : Z) (s : string) : string :=
  if (0 <=? n)%Z then head_chars (Z.to_nat n) s
  else head_chars (String.length s - Z.to_nat (- n)) s.

(** [orchestrator._git_diff(repo_dir, staged, max_chars)] *)
Definition orch_git_diff_args (repo : PurePath) (staged : bool) (max_chars : Z) : M string :=
  let argv0 := if staged then ["git"; "diff"; "--staged"] else ["git"; "diff"] in
  r <- orch_run argv0 (path_str repo) 60 ;;
  let '(code, out) := r in
  if negb (code =? 0)%Z then ret ("ERROR: git diff failed" ++ nl ++ out)
  else if (max_chars <? Z.of_nat (String.length out))%Z
  then ret (py_slice_to max_chars out ++ nl ++ "... (truncated)")
  else ret (if String.eqb out "" then "(no diff)" else out).

(** [tools_repo.git_status] *)
Definition tools_git_status (ctx : RepoContext) : M string :=
  r <- tools_run ["git"; "status"; "--porcelain=v1"] (path_str (repo_dir ctx)) 60 ;;
  let '(code, out) := r in
  if negb (code =? 0)%Z then ret ("ERROR: git status failed" ++ nl ++ out)
  else ret (if String.eqb out "" then "(clean)" else out).

(** [tools_repo.git_diff] *)
Definition tools_git_diff (ctx : RepoContext) (staged : bool) (max_chars : Z) : M string :=
  let argv0 := if staged then ["git"; "diff"; "--staged"] else ["git"; "diff"] in
  r <- tools_run argv0 (path_str (repo_dir ctx)) 60 ;;
  let '(code, out) := r in
  if negb (code =? 0)%Z then ret ("ERROR: git diff failed" ++ nl ++ out)
  else if (max_chars <? Z.of_nat (String.length out))%Z
  then ret (py_slice_to max_chars out ++ nl ++ "... (truncated)")
  else ret (if String.eqb out "" then "(no diff)" else out).

(** [tools_repo.git_commit_all] *)
Definition tools_git_commit_all (ctx : RepoContext) (message : string) : M string :=
  if String.eqb (strip message) "" then ret "ERROR: empty commit message"
  else
    r <- tools_run ["git"; "add"; "-A"] (path_str (repo_dir ctx)) 60 ;;
    let '(code, out) := r in
    if negb (code =? 0)%Z then ret ("ERROR: git add failed" ++ nl ++ out)
    else
      r2 <- tools_run ["git"; "commit"; "-m"; strip message] (path_str (repo_dir ctx)) 60 ;;
      let '(code2, out2) := r2 in
      if negb (code2 =? 0)%Z then ret ("ERROR: git commit failed" ++ nl ++ out2)
      else ret "OK: committed".

(** [config.tasks.get(task)] for a task name sent by an agent, a string. *)
Definition tasks_get_str (k : string) (ts : list (TaskName * TaskSpec)) : option TaskSpec :=
  match find (fun kv => String.eqb (task_name_str (fst kv)) k) ts with
  | Some kv => Some (snd kv)
  | None => None
  end.

(** [tools_repo.run_task].  The dict stored in [ctx.state] is kept as its
    [repr]. *)
Definition tools_run_task (ctx : RepoContext) (task : string) (timeout_sec : Z) : M string :=
  match tasks_get_str task (tasks (config ctx)) with
  | None => ret ("SKIP: task not configured: " ++ task)
  | Some spec =>
      r <- tools_run (argv spec) (path_str (path_div (repo_dir ctx) (spec_cwd spec))) timeout_sec ;;
      let '(code, out) := r in
      ctx_set ("task:" ++ task)
              ("{" ++ repr_str "returncode" ++ ": " ++ str_Z code ++ ", "
                   ++ repr_str "output" ++ ": " ++ repr_str (tail_chars 4000 out) ++ "}") ;;;
      let status := if (code =? 0)%Z then "OK" else "FAIL(" ++ str_Z code ++ ")" in
      let tail := tail_chars 4000 out in
      ret (status ++ ": " ++ join " " (argv spec) ++ nl ++ tail)
  end.

(* ------------------------------------------------------------------ *)
(** ** Detecting a configuration ([config.detect_default_config],
    [config.load_or_detect_config], [OrchestraConfig.dump])

    The file system is seen through what these functions ask of it:
    [exists()] of a path, and the value [json.loads] returns (or the
    exception it raises) for the text of a file, read whole with
    [read_text(encoding="utf-8-sig")] or through [_read_text_if_exists]. *)

Record RepoFiles := mkRepoFiles {
  rf_exists : PurePath -> bool;
  rf_loads : PurePath -> Exn + PyVal;        (* [json.loads(p.read_text(...))] *)
  rf_loads_head : PurePath -> Exn + PyVal    (* [json.loads(_read_text_if_exists(p))] *)
}.

(** [OrchestraConfig.dump()] *)
Definition config_dump (c : OrchestraConfig) : PyVal :=
  PDict [("tasks", PDict (map (fun kv => (task_name_str (fst kv), PList (map PStr (argv (snd kv)))))
                              (tasks c)))].

(** [bool(v)] *)
Definition py_truthy (v : PyVal) : bool :=
  match v with
  | PNone => false
  | PBool b => b
  | PInt z => negb (z =? 0)%Z
  | PFloat q => negb (Qeq_bool q 0)
  | PStr t => negb (String.eqb t "")
  | PList xs => negb (Nat.eqb (length xs) 0)
  | PDict kvs => negb (Nat.eqb (length kvs) 0)
  end.

(** [v == s] for a string [s] *)
Definition py_eq_str (v : PyVal) (s : string) : bool :=
  match v with PStr t => String.eqb t s | _ => false end.

(** The [test] script [npm init] writes. *)
Definition npm_placeholder_test : string :=
  "echo " ++ dquote ++ "Error: no test specified" ++ dquote ++ " && exit 1".

Definition no_attribute (v : PyVal) (attr : string) : Exn :=
  AttributeError (quote ++ type_name v ++ quote ++ " object has no attribute "
                  ++ quote ++ attr ++ quote).

(** [detect_default_config(repo_dir)] *)
Definition detect_default_config (fs : RepoFiles) (repo : PurePath) : Exn + OrchestraConfig :=
  let ex name := rf_exists fs (path_div repo name) in
  if ex "package.json" then
    let pm := if ex "pnpm-lock.yaml" then "pnpm"
              else if ex "yarn.lock" then "yarn"
              else if ex "bun.lockb" || ex "bun.lock" then "bun"
              else "npm" in
    let pkg := match rf_loads_head fs (path_div repo "package.json") with
               | inl _ => PDict []                 (* except Exception: pkg = {} *)
               | inr v => v
               end in
    match pkg with
    | PDict kvs =>
        let scripts := match dict_get "scripts" kvs with Some (PDict sc) => sc | _ => [] end in
        let has k := match dict_get k scripts with Some _ => true | None => false end in
        let install :=
          if String.eqb pm "npm" && ex "package-lock.json" then ["npm"; "ci"]
          else if String.eqb pm "yarn" then ["yarn"; "install"; "--frozen-lockfile"]
          else if String.eqb pm "pnpm" then ["pnpm"; "install"; "--frozen-lockfile"]
          else if String.eqb pm "bun" then ["bun"; "install"]
          else [pm; "install"] in
        let test_ok :=
          match dict_get "test" scripts with
          | Some v => py_truthy v && negb (py_eq_str v npm_placeholder_test)
          | None => false
          end in
        inr (mkConfig
               ([(TInstall, mkTaskSpec install ".")]
                ++ (if has "format" then [(TFormat, mkTaskSpec [pm; "run"; "format"] ".")] else [])
                ++ (if has "lint" then [(TLint, mkTaskSpec [pm; "run"; "lint"] ".")] else [])
                ++ (if has "typecheck" then [(TTypecheck, mkTaskSpec [pm; "run"; "typecheck"] ".")]
                    else [])
                ++ (if test_ok then [(TTest, mkTaskSpec [pm; "test"] ".")] else [])
                ++ (if has "build" then [(TBuild, mkTaskSpec [pm; "run"; "build"] ".")] else []))%list)
    | v => inl (no_attribute v "get")           (* pkg.get("scripts") *)
    end
  else if ex "pyproject.toml" || ex "requirements.txt" then
    inr (mkConfig
           ((if ex "requirements.txt"
             then [(TInstall, mkTaskSpec ["python"; "-m"; "pip"; "install"; "-r"; "requirements.txt"] ".")]
             else [])
            ++ [(TTest, mkTaskSpec ["python"; "-m"; "pytest"] ".");
                (TLint, mkTaskSpec ["python"; "-m"; "ruff"; "check"; "."] ".");
                (TFormat, mkTaskSpec ["python"; "-m"; "ruff"; "format"; "."] ".")])%list)
  else inr (mkConfig []).

(** [OrchestraConfig.load(path)] *)
Definition config_file_load (fs : RepoFiles) (path : PurePath) : Exn + OrchestraConfig :=
  match rf_loads fs path with
  | inl e => inl e
  | inr data => config_load data
  end.

(** [load_or_detect_config(repo_dir, config_path)] *)
Definition load_or_detect_config (fs : RepoFiles) (repo : PurePath)
           (config_path : option PurePath) : Exn + OrchestraConfig :=
  let default_path := path_div repo ".relialimo_orchestra.json" in
  let auto := if rf_exists fs default_path then config_file_load fs default_path
              else detect_default_config fs repo in
  match config_path with
  | Some cp => if rf_exists fs cp then config_file_load fs cp else auto
  | None => auto
  end.

(** [run_orchestra(repo_dir, goal, config_path, session_id, max_iterations,
    create_branch, commit)] from its first line: [repo_dir.resolve()], then
    [load_or_detect_config(repo_dir, config_path)] over the files [fs], then
    the rest of the body, [run_orchestra] above (the repaired loop body). *)
Definition run_orchestra_entry (fs : RepoFiles) (repo_dir0 : PurePath) (goal : string)
           (config_path : option PurePath) (session_id0 : string) (max_iterations : Z)
           (create_branch commit : bool) : M OrchestraRunResult :=
  w <- ask ;;
  match load_or_detect_config fs (mkPath true (w_resolve w repo_dir0)) config_path with
  | inl e => raise e
  | inr config0 => run_orchestra repo_dir0 goal config0 session_id0 max_iterations
                                 create_branch commit
  end.

(* ------------------------------------------------------------------ *)
(** ** Vocabulary of the statements *)

(** The failures [_run_agent_with_backoff] retries: a rate limit, or an
    API error whose status code is absent or at least 500. *)
Definition retryable (e : Exn) : bool :=
  match e with
  | RateLimitError _ => true
  | APIError None _ => true
  | APIError (Some c) _ => (500 <=? c)%Z
  | _ => false
  end.

(** The base delay before the (i+1)-th retry: [min(20, 0.5 * 2^i)]. *)
Definition spec_delay (i : nat) : Q :=
  let d := (1 # 2) * inject_Z (2 ^ Z.of_nat i) in
  if Qle_bool 20 d then 20 else d.

(** The argument vectors of the processes launched, in order. *)
Definition proc_argvs (tr : list Event) : list (list string) :=
  flat_map (fun ev => match ev with EvProc a _ _ => [a] | _ => [] end) tr.

(** The argument vectors of the configured tasks among [ts], in order. *)
Definition conf_argvs (c : OrchestraConfig) (ts : list TaskName) : list (list string) :=
  flat_map (fun t => match tasks_get t (tasks c) with Some sp => [argv sp] | None => [] end) ts.

(** [c] is [r] or a descendant of [r]. *)
Fixpoint is_prefix (r c : RPath) : bool :=
  match r, c with
  | [], _ => true
  | x :: r', y :: c' => String.eqb x y && is_prefix r' c'
  | _ :: _, [] => false
  end.

Definition s_init : St := mkSt 0 0 [] [] [] [].

(** Worlds used by the concrete runs below. *)
Definition proc_ok : nat -> list string -> string -> Z -> ProcOutcome :=
  fun _ _ _ _ => PExited 0 "" "".

Definition world_first_rate_limited : World :=
  mkWorld proc_ok
    (fun n _ _ _ => if Nat.eqb n 0 then inl (RateLimitError "Error code: 429")
                    else inr (mkOutput "{}"))
    (fun _ => 0%Z) p_parts "20250101-000000".

Definition world_missing_tool : World :=
  mkWorld (fun _ a _ _ => match a with
                          | "ruff" :: _ => PLaunchError (OSError ("[Errno 2] No such file or directory: " ++ quote ++ "ruff" ++ quote))
                          | "sleep" :: _ => PTimedOut
                          | _ => PExited 0 "" ""
                          end)
          (fun _ _ _ _ => inr (mkOutput "{}")) (fun _ => 0%Z) p_parts "20250101-000000".

(** A repository where every path exists and every file reads as
    [{"tasks": null}], [.relialimo_orchestra.json] included. *)
Definition fs_null_tasks : RepoFiles :=
  mkRepoFiles (fun _ => true) (fun _ => inr (PDict [("tasks", PNone)]))
              (fun _ => inr (PDict [("tasks", PNone)])).

(** End-to-end scenario C: only [test] is configured, and it always fails. *)
Definition config_test_only : OrchestraConfig :=
  mkConfig [(TTest, mkTaskSpec ["pytest"] ".")].

Definition proc_test_fails : nat -> list string -> string -> Z -> ProcOutcome :=
  fun _ argv0 _ _ => match argv0 with
                     | "pytest" :: _ => PExited 1 "FAILED tests/test_app.py::test_main" ""
                     | _ => PExited 0 "" ""
                     end.

Definition world_test_fails : World :=
  mkWorld proc_test_fails (fun _ _ _ _ => inr (mkOutput "{}")) (fun _ => 0%Z) p_parts
          "20250101-000000".

(** Scenario C again, where the review call is refused with a 400 error. *)
Definition world_review_refused : World :=
  mkWorld proc_test_fails
    (fun _ a _ _ => match a with
                    | Reviewer => inl (APIError (Some 400%Z) "Error code: 400")
                    | _ => inr (mkOutput "{}")
                    end)
    (fun _ => 0%Z) p_parts "20250101-000000".

(** All ran entries before the last one succeeded. *)
Definition all_ran_ok (es : Status) : Prop :=
  forall t ok c cmd o, In (t, Ran ok c cmd o) es -> ok = true.

(** A repository whose configuration has only a [lint] task. *)
Definition ctx_lint_only : RepoContext :=
  mkCtx (path_of_string "/repo") (mkConfig [(TLint, mkTaskSpec ["npm"; "run"; "lint"] ".")])
        "relialimo_dev".

(** A world where [npm run lint] exits with status 1. *)
Definition world_lint_fails : World :=
  mkWorld (fun _ a _ _ => match a with
                          | "npm" :: _ => PExited 1 "" "SyntaxError line 4"
                          | _ => PExited 0 "" ""
                          end)
          (fun _ _ _ _ => inr (mkOutput "{}")) (fun _ => 0%Z) p_parts "20250101-000000".

(** The sleep before the (i+1)-th retry, when the loop starts at [delay]
    and the i-th jitter draw is [py_random k]. *)
Definition code_sleep (delay : spec_float) (i : nat) (k : Z) : spec_float :=
  fmul (py_min f_twenty (Nat.iter i (fun d => fmul d f_two) delay))
       (fadd f_one (fmul (py_random k) f_quarter)).

(** The sleep drawn by one backoff step. *)
Definition jitter_sleep (delay : spec_float) (k : Z) : spec_float :=
  fmul (py_min f_twenty delay) (fadd f_one (fmul (py_random k) f_quarter)).

(** A world whose first actor call is rate limited and whose
    [random.random()] always returns its largest value, [1 - 2^-53]. *)
Definition world_rate_limited_top_draw : World :=
  mkWorld proc_ok
    (fun n _ _ _ => if Nat.eqb n 0 then inl (RateLimitError "Error code: 429")
                    else inr (mkOutput "{}"))
    (fun _ => 2 ^ 53 - 1)%Z p_parts "20250101-000000".

(** A world whose first actor call fails with a connection error (no status code). *)
Definition world_connection_error : World :=
  mkWorld proc_ok
    (fun n _ _ _ => if Nat.eqb n 0 then inl (APIError None "Connection error.")
                    else inr (mkOutput "{}"))
    (fun _ => 0%Z) p_parts "20250101-000000".

(** A world whose [resolve] collapses [..] against the parent. *)
Definition world_resolve_links : World :=
  mkWorld proc_ok (fun _ _ _ _ => inr (mkOutput "{}")) (fun _ => 0%Z)
    (fun p =>
       fold_left (fun acc x => if String.eqb x ".." then removelast acc else (acc ++ [x])%list)
                 (p_parts p) [])
    "20250101-000000".

(** A repository at [/home/u/repo]. *)
Definition ctx_repo : RepoContext :=
  mkCtx (path_of_string "/home/u/repo") (mkConfig []) "relialimo_dev".

(** A computation that never raises, and only appends events that are not
    actor calls to the trace. *)
Definition quiet {A} (m : M A) : Prop :=
  forall w s, exists a s' ext, m w s = (inr a, s')
    /\ st_trace s' = (st_trace s ++ ext)%list /\ actors ext = [].

(** Every character of [s] satisfies [p]. *)
Definition all_chars (p : ascii -> bool) (s : string) : bool :=
  forallb p (list_ascii_of_string s).

Definition is_digit (c : ascii) : bool :=
  Nat.leb 48 (nat_of_ascii c) && Nat.leb (nat_of_ascii c) 57.

(** The characters of a branch slug: lower-case letters, digits and [-]. *)
Definition slug_char (c : ascii) : bool :=
  (Nat.leb 97 (nat_of_ascii c) && Nat.leb (nat_of_ascii c) 122) || is_digit c
  || Ascii.eqb c "-".

(** The characters [strftime("%Y%m%d-%H%M%S")] produces. *)
Definition ts_char (c : ascii) : bool := is_digit c || Ascii.eqb c "-".

(** A task run in the repository root, the [cwd] every [TaskSpec] built by
    [config.py] has. *)
Definition root_cwd (kv : TaskName * TaskSpec) : Prop := spec_cwd (snd kv) = ".".

(** One entry of the [tasks] dict [OrchestraConfig.dump] returns. *)
Definition dump_entry (kv : TaskName * TaskSpec) : string * PyVal :=
  (task_name_str (fst kv), PList (map PStr (argv (snd kv)))).

(** Repositories for the concrete runs of the detection: a yarn project
    whose [test] script is the one [npm init] writes, and a Python project
    with a [requirements.txt]. *)
Definition files_yarn_app : RepoFiles :=
  mkRepoFiles
    (fun p => existsb (String.eqb (path_str p)) ["/app/package.json"; "/app/yarn.lock"])
    (fun _ => inl (OSError "[Errno 2] No such file or directory"))
    (fun p => if String.eqb (path_str p) "/app/package.json"
              then inr (PDict [("name", PStr "app");
                               ("scripts", PDict [("test", PStr npm_placeholder_test);
                                                  ("lint", PStr "eslint .")])])
              else inl (ValueError "Expecting value: line 1 column 1 (char 0)")).

Definition files_python_app : RepoFiles :=
  mkRepoFiles
    (fun p => existsb (String.eqb (path_str p)) ["/app/pyproject.toml"; "/app/requirements.txt"])
    (fun _ => inl (OSError "[Errno 2] No such file or directory"))
    (fun _ => inl (ValueError "Expecting value: line 1 column 1 (char 0)")).

(** A configuration with a task outside the repository root. *)
Definition config_web_test : OrchestraConfig :=
  mkConfig [(TTest, mkTaskSpec ["npm"; "test"] "web");
            (TLint, mkTaskSpec ["npm"; "run"; "lint"] ".")].

(** One failed round of the implementation loop: the coder's attempt, then
    the debugger and the coder's fix. *)
Definition failing_round : list Agent := [Coder; Debugger; Coder].

(** The content of the file at [p] in the state, if there is one. *)
Definition file_at (s : St) (p : RPath) : option string :=
  match find (fun f => rpath_eqb (fst f) p) (st_files s) with
  | Some f => Some (snd f)
  | None => None
  end.

(** The lines of [read_file], numbered from [i]. *)
Fixpoint numbered (i : Z) (ls : list string) : list string :=
  match ls with
  | [] => []
  | l :: r => (pad6 (str_Z i) ++ " | " ++ l) :: numbered (i + 1) r
  end.

(* ------------------------------------------------------------------ *)
(** ** Walking the repository ([tools_repo._walk_repo], [list_files],
    [search_repo]) *)

(** [DEFAULT_IGNORE_DIRS] *)
Definition DEFAULT_IGNORE_DIRS : list string :=
  [".git"; ".next"; "node_modules"; "dist"; "build"; "out"; ".venv"; "venv";
   "__pycache__"; ".pytest_cache"; ".ruff_cache"; ".mypy_cache"].

(** [Some n] when [p] is [d / n]. *)
Fixpoint rpath_child (d p : RPath) : option string :=
  match d, p with
  | [], [n] => Some n
  | x :: d', y :: p' => if String.eqb x y then rpath_child d' p' else None
  | _, _ => None
  end.

Definition child_names (d : RPath) (ps : list RPath) : list string :=
  nodup string_dec
    (flat_map (fun p => match rpath_child d p with Some n => [n] | None => [] end) ps).

Definition hidden (name : string) : bool := startswith name ".".

Definition keep_dir (include_hidden : bool) (d : string) : bool :=
  negb (existsb (String.eqb d) DEFAULT_IGNORE_DIRS) && (include_hidden || negb (hidden d)).

(** The loop of [_walk_repo] over the tree with the files [files] and the
    directories [dirs], from the directory [root], which [k] levels separate
    from the first directory deeper than [max_depth].  At [root], [os.walk]
    reports the names of its sub-directories and files ([child_names]): the
    files are listed first, then the walk goes down each directory kept
    after pruning. *)
Fixpoint walk_aux (files dirs : list RPath) (include_hidden : bool) (k : nat) (root : RPath)
  : list RPath :=
  match k with
  | O => []
  | S k' =>
      let subdirs := filter (keep_dir include_hidden) (child_names root dirs) in
      let names := filter (fun f => include_hidden || negb (hidden f)) (child_names root files) in
      (map (fun f => (root ++ [f])%list) names
       ++ flat_map (fun d => walk_aux files dirs include_hidden k' (root ++ [d])%list) subdirs)%list
  end.

(** [tools_repo._walk_repo]; the directory listings it reads are not
    recorded in the trace. *)
Definition walk_repo (repo_dir0 : PurePath) (max_depth : Z) (include_hidden : bool)
  : M (list RPath) :=
  fun w s => (inr (walk_aux (map fst (st_files s)) (st_dirs s) include_hidden
                            (Z.to_nat (max_depth + 1)) (w_resolve w repo_dir0)), s).

Fixpoint strip_prefix (pre p : list string) : option (list string) :=
  match pre, p with
  | [], _ => Some p
  | x :: pre', y :: p' => if String.eqb x y then strip_prefix pre' p' else None
  | _, _ => None
  end.

(** [str(p.relative_to(base))] for a resolved path [p] (the message is the
    one of Python 3.12). *)
Definition relative_to (p : RPath) (base : PurePath) : Exn + string :=
  match (if p_abs base then strip_prefix (p_parts base) p else None) with
  | Some rest => inr (path_str (mkPath false rest))
  | None => inl (ValueError (repr_str (path_str (mkPath true p)) ++ " is not in the subpath of "
                             ++ repr_str (path_str base)))
  end.

(** [[str(p.relative_to(base)) for p in files]] *)
Fixpoint relative_all (base : PurePath) (files : list RPath) : Exn + list string :=
  match files with
  | [] => inr []
  | p :: r =>
      match relative_to p base with
      | inl e => inl e
      | inr x => match relative_all base r with inl e => inl e | inr xs => inr (x :: xs) end
      end
  end.

(** [list.sort()] on strings *)
Fixpoint insert_str (x : string) (l : list string) : list string :=
  match l with
  | [] => [x]
  | y :: r => if String.leb x y then x :: l else y :: insert_str x r
  end.

Definition sort_str (l : list string) : list string := fold_right insert_str [] l.

(** [tools_repo.list_files] *)
Definition list_files (ctx : RepoContext) (path : string) (max_depth : Z) (include_hidden : bool)
  : M string :=
  base <- abs_path ctx path ;;
  ex <- fs_exists base ;;
  if negb ex then ret ("ERROR: path does not exist: " ++ path)
  else
    isf <- fs_is_file base ;;
    if isf then ret (path_str (path_of_string path))
    else
      files <- walk_repo (mkPath true base) max_depth include_hidden ;;
      match relative_all (repo_dir ctx) files with
      | inl e => raise e
      | inr rels =>
          let rels := sort_str rels in
          let rels := if (2000 <? length rels)%nat
                      then (firstn 2000 rels ++ ["... (truncated)"])%list else rels in
          ret (join nl rels)
      end.

(** The hits of one file in [search_repo]: its lines containing the query,
    numbered from [idx]; [inl] is the early return once [max_matches]
    hits are collected. *)
Fixpoint scan_lines (rel q : string) (max_matches idx : Z) (lines matches : list string)
  : string + list string :=
  match lines with
  | [] => inr matches
  | line :: r =>
      if contains q line then
        let matches := (matches ++ [(rel ++ ":" ++ str_Z idx ++ ": " ++ strip line)%string])%list in
        if (max_matches <=? Z.of_nat (length matches))%Z
        then inl (join nl matches ++ nl ++ "... (truncated)")
        else scan_lines rel q max_matches (idx + 1) r matches
      else scan_lines rel q max_matches (idx + 1) r matches
  end.

(** The loop over the files in [search_repo]. *)
Fixpoint scan_files (s : St) (repo : PurePath) (q : string) (max_matches : Z)
         (files : list RPath) (matches : list string) : Exn + (string + list string) :=
  match files with
  | [] => inr (inr matches)
  | f :: r =>
      match file_at s f with
      | None => scan_files s repo q max_matches r matches
      | Some text =>
          if (400000 <? Z.of_nat (String.length text))%Z then scan_files s repo q max_matches r matches
          else if negb (contains q text) then scan_files s repo q max_matches r matches
          else
            match relative_to f repo with
            | inl e => inl e
            | inr rel =>
                match scan_lines rel q max_matches 1 (splitlines text) matches with
                | inl out => inr (inl out)
                | inr matches => scan_files s repo q max_matches r matches
                end
            end
      end
  end.

(** [tools_repo.search_repo]; the sizes and contents it reads are not
    recorded in the trace. *)
Definition search_repo (ctx : RepoContext) (query : string) (max_matches : Z) : M string :=
  files <- walk_repo (repo_dir ctx) 25 false ;;
  fun _ s =>
    (match scan_files s (repo_dir ctx) query max_matches files [] with
     | inl e => inl e
     | inr (inl out) => inr out
     | inr (inr matches) => inr (match matches with [] => "NO MATCHES" | _ => join nl matches end)
     end, s).

(** The lines [search_repo] reports for the lines [lines] of the file [rel],
    numbered from [idx], when nothing stops it. *)
Fixpoint line_hits (rel q : string) (idx : Z) (lines : list string) : list string :=
  match lines with
  | [] => []
  | line :: r =>
      ((if contains q line then [(rel ++ ":" ++ str_Z idx ++ ": " ++ strip line)%string] else [])
       ++ line_hits rel q (idx + 1) r)%list
  end.

(** The lines [search_repo] reports for the file [f] of the walk from [root]. *)
Definition file_hits (s : St) (root : RPath) (q : string) (f : RPath) : list string :=
  match file_at s f with
  | None => []
  | Some text =>
      if (400000 <? Z.of_nat (String.length text))%Z then []
      else if negb (contains q text) then []
      else line_hits (path_str (mkPath false (skipn (length root) f))) q 1 (splitlines text)
  end.

(** All the lines [search_repo] reports when nothing stops it. *)
Definition search_hits (s : St) (root : RPath) (q : string) : list string :=
  flat_map (file_hits s root q) (walk_aux (map fst (st_files s)) (st_dirs s) false 26 root).

(** A repository [/repo] with a hidden file, an ignored directory, a hidden
    directory and a directory five levels deep. *)
Definition st_demo_repo : St :=
  mkSt 0 0 [] []
    [(["repo"; "a.py"], "import os" ++ nl ++ "  x = os.getcwd()  ");
     (["repo"; ".hidden"], "os");
     (["repo"; "node_modules"; "x.js"], "os");
     (["repo"; "src"; "b.py"], "os" ++ nl ++ "y" ++ nl ++ "os.path");
     (["repo"; "src"; ".env"], "os");
     (["repo"; ".git"; "config"], "os");
     (["repo"; "d"; "1"; "2"; "3"; "4"; "f.txt"], "os")]
    [["repo"]; ["repo"; "node_modules"]; ["repo"; "src"]; ["repo"; ".git"]; ["repo"; "d"];
     ["repo"; "d"; "1"]; ["repo"; "d"; "1"; "2"]; ["repo"; "d"; "1"; "2"; "3"];
     ["repo"; "d"; "1"; "2"; "3"; "4"]].

(* ------------------------------------------------------------------ *)
(** ** General facts about the model *)

(** The pair [orchestrator._run] returns for one outcome of the process. *)
Definition run_result (argv0 : list string) (t : Z) (o : ProcOutcome) : Z * string :=
  match o with
  | PLaunchError e => (1%Z, "ERROR running command " ++ repr_list argv0 ++ ": " ++ exn_str e)
  | PTimedOut => (1%Z, "ERROR running command " ++ repr_list argv0 ++ ": "
                        ++ exn_str (TimeoutExpired argv0 t))
  | PExited rc out err | PExitedUndecodable rc out err _ => (rc, combine_output out err)
  end.

Lemma orch_run_eq argv0 cwd t w s :
  orch_run argv0 cwd t w s =
  (inr (run_result argv0 t (w_proc w (st_tick s) argv0 cwd t)),
   mkSt (S (st_tick s)) (st_draws s) (st_trace s ++ [EvProc argv0 cwd t])
        (st_ctx s) (st_files s) (st_dirs s)).
Proof.
  unfold orch_run, catch, subprocess_run, bind, tick, ask, emit, ret, raise; simpl.
  destruct (w_proc w (st_tick s) argv0 cwd t); reflexivity.
Qed.

(* ------------------------------------------------------------------ *)
(** ** C1: the controller's actor calls *)

(** C1 (code_bug).  The pipeline controller calls [Runner.run] directly
    rather than through [_run_agent_with_backoff]: when the first actor call
    (the map stage) hits a rate limit, [run_orchestra] raises that error
    after one actor call and no sleep, while the retry wrapper on the same
    world sleeps once and returns the second call's result. *)
Theorem run_orchestra_map_rate_limit_propagates :
  (let '(r, s) := run_orchestra (path_of_string "/repo") "fix" (mkConfig []) "relialimo_dev"
                                4 false false world_first_rate_limited s_init in
   (r, actors (st_trace s), sleeps (st_trace s)))
  = (inl (RateLimitError "Error code: 429"), [RepoMapper], [])
  /\ fst (run_agent_with_backoff "repo_map" RepoMapper repo_map_prompt REPO_MAP_MAX_TURNS 8
                                 world_first_rate_limited s_init)
     = inr (mkOutput "{}").
Proof. split; vm_compute; reflexivity. Qed.

(* ------------------------------------------------------------------ *)
(** ** C2: the patch validator *)

(** C2 (code_bug).  A diff whose first line is an old-file header with an
    absolute path is accepted: the absolute-path markers all start with a
    newline (or are [diff --git /]), so no marker matches the first line,
    and the traversal scan only looks for [../] and [..\]. *)
Theorem patch_is_safe_accepts_absolute_first_header :
  patch_is_safe ("--- /etc/passwd" ++ nl ++ "+++ b/etc/passwd" ++ nl ++ "@@ -1 +1 @@"
                 ++ nl ++ "-root:x:0:0" ++ nl ++ "+owned" ++ nl)
  = (true, "OK").
Proof. vm_compute; reflexivity. Qed.

(* ------------------------------------------------------------------ *)
(** ** C3: the command executors *)

(** C3 (code_bug).  [orchestrator._run] turns a launch failure or a timeout
    into exit code 1 with an error text, but [tools_repo._run] (used by
    [run_task], [git_status], [git_diff], [git_create_branch],
    [git_commit_all]) has no handler and raises both to its caller. *)
Theorem tools_run_raises_where_orch_run_returns :
  fst (orch_run ["ruff"; "check"; "."] "/repo" 900 world_missing_tool s_init)
  = inr (1%Z, "ERROR running command ['ruff', 'check', '.']: [Errno 2] No such file or directory: 'ruff'")
  /\ fst (tools_run ["ruff"; "check"; "."] "/repo" 900 world_missing_tool s_init)
     = inl (OSError ("[Errno 2] No such file or directory: " ++ quote ++ "ruff" ++ quote))
  /\ fst (orch_run ["sleep"; "1000"] "/repo" 900 world_missing_tool s_init)
     = inr (1%Z, "ERROR running command ['sleep', '1000']: Command '['sleep', '1000']' timed out after 900 seconds")
  /\ fst (tools_run ["sleep"; "1000"] "/repo" 900 world_missing_tool s_init)
     = inl (TimeoutExpired ["sleep"; "1000"] 900).
Proof. repeat split; vm_compute; reflexivity. Qed.

(* ------------------------------------------------------------------ *)
(** ** C9: branch names *)

Lemma branch_name_rejected_true name :
  (exists x, In x [".."; "~"; "^"; ":"; " "; bslash] /\ contains x name = true) ->
  branch_name_rejected name = true.
Proof.
  intros [x [Hin Hc]]. unfold branch_name_rejected.
  apply existsb_exists. exists x. split; assumption.
Qed.

Lemma branch_name_rejected_false name :
  (forall x, In x [".."; "~"; "^"; ":"; " "; bslash] -> contains x name = false) ->
  branch_name_rejected name = false.
Proof.
  intros H. unfold branch_name_rejected.
  destruct (existsb _ _) eqn:E; [|reflexivity].
  apply existsb_exists in E. destruct E as [x [Hin Hc]].
  rewrite (H x Hin) in Hc. discriminate.
Qed.

(** C9 (corrected).  Both branch-creation operations return
    "ERROR: invalid branch name", launching nothing and changing nothing,
    for every name containing [..], [~], [^], [:], a space or a backslash;
    both hand every other name (a tab or a newline included) to
    [git checkout -b], as the first process they start. *)
Theorem create_branch_rejects_listed_tokens repo ctx name w s :
  ((exists x, In x [".."; "~"; "^"; ":"; " "; bslash] /\ contains x name = true) ->
   orch_git_create_branch repo name w s = (inr "ERROR: invalid branch name", s)
   /\ tools_git_create_branch ctx name w s = (inr "ERROR: invalid branch name", s))
  /\
  ((forall x, In x [".."; "~"; "^"; ":"; " "; bslash] -> contains x name = false) ->
   (exists r s', orch_git_create_branch repo name w s = (inr r, s')
    /\ st_trace s' = (st_trace s ++ [EvProc ["git"; "checkout"; "-b"; name] (path_str repo) 60])%list)
   /\ (exists r s', tools_git_create_branch ctx name w s = (r, s')
    /\ st_trace s' = (st_trace s ++ [EvProc ["git"; "checkout"; "-b"; name]
                                           (path_str (repo_dir ctx)) 60])%list)).
Proof.
  split.
  - intros H. apply branch_name_rejected_true in H.
    unfold orch_git_create_branch, tools_git_create_branch. rewrite H. split; reflexivity.
  - intros H. apply branch_name_rejected_false in H. split.
    + unfold orch_git_create_branch. rewrite H. unfold bind at 1. rewrite orch_run_eq.
      destruct (w_proc _ _ _ _ _) as [e| |rc o er|rc o er r]; simpl;
        [| | destruct (negb (rc =? 0)%Z) | destruct (negb (rc =? 0)%Z)];
        eexists; eexists; split; reflexivity.
    + unfold tools_git_create_branch. rewrite H.
      unfold tools_run, subprocess_run, bind, tick, ask, emit, ret, raise, ctx_set; simpl.
      destruct (w_proc _ _ _ _ _) as [e| |rc o er|rc o er r]; simpl;
        [| | destruct (negb (rc =? 0)%Z) |]; eexists; eexists; split; reflexivity.
Qed.

Lemma create_branch_rejects_listed_tokens_witness :
  (exists x, In x [".."; "~"; "^"; ":"; " "; bslash] /\ contains x "ai/a b" = true)
  /\ orch_git_create_branch (path_of_string "/repo") "ai/a b" world_missing_tool s_init
     = (inr "ERROR: invalid branch name", s_init)
  /\ (forall x, In x [".."; "~"; "^"; ":"; " "; bslash] -> contains x "ai/fix-1" = false)
  /\ (exists r s', orch_git_create_branch (path_of_string "/repo") "ai/fix-1" world_missing_tool s_init
                   = (inr r, s')
      /\ st_trace s' = [EvProc ["git"; "checkout"; "-b"; "ai/fix-1"] "/repo" 60])
  /\ (exists r s', tools_git_create_branch (mkCtx (path_of_string "/repo") (mkConfig []) "relialimo_dev")
                   "ai/fix-1" world_missing_tool s_init = (r, s')
      /\ st_trace s' = [EvProc ["git"; "checkout"; "-b"; "ai/fix-1"] "/repo" 60]).
Proof.
  assert (Hin : exists x, In x [".."; "~"; "^"; ":"; " "; bslash] /\ contains x "ai/a b" = true)
    by (exists " "; split; [simpl; tauto | reflexivity]).
  assert (Hout : forall x, In x [".."; "~"; "^"; ":"; " "; bslash] -> contains x "ai/fix-1" = false)
    by (intros x Hx; simpl in Hx;
        repeat (destruct Hx as [<-|Hx]; [reflexivity|]); destruct Hx).
  split; [exact Hin|]. split.
  - exact (proj1 (proj1 (create_branch_rejects_listed_tokens (path_of_string "/repo")
            (mkCtx (path_of_string "/repo") (mkConfig []) "relialimo_dev") "ai/a b"
            world_missing_tool s_init) Hin)).
  - split; [exact Hout|].
    exact (proj2 (create_branch_rejects_listed_tokens (path_of_string "/repo")
            (mkCtx (path_of_string "/repo") (mkConfig []) "relialimo_dev") "ai/fix-1"
            world_missing_tool s_init) Hout).
Defined.

(** C9 counterexample: a name with a tab is not rejected; [git checkout -b]
    is launched for it. *)
Lemma create_branch_tab_name_reaches_git :
  branch_name_rejected ("ai/a" ++ char 9 ++ "b") = false
  /\ st_trace (snd (orch_git_create_branch (path_of_string "/repo") ("ai/a" ++ char 9 ++ "b")
                                           world_missing_tool s_init))
     = [EvProc ["git"; "checkout"; "-b"; "ai/a" ++ char 9 ++ "b"] "/repo" 60].
Proof. split; vm_compute; reflexivity. Qed.

(* ------------------------------------------------------------------ *)
(** ** C4: the task runner *)

Lemma run_tasks_loop_spec ctx ts : forall st0 w s,
  exists k entries s',
    run_tasks_loop ctx ts st0 w s = (inr (st0 ++ entries)%list, s')
    /\ map fst entries = firstn k ts
    /\ (forall t e, In (t, e) entries -> (e = Skipped <-> tasks_get t (tasks (config ctx)) = None))
    /\ (forall t ok c cmd o, In (t, Ran ok c cmd o) entries -> ok = (c =? 0)%Z)
    /\ proc_argvs (st_trace s') = (proc_argvs (st_trace s) ++ conf_argvs (config ctx) (firstn k ts))%list
    /\ ((k = length ts /\ all_ran_ok entries)
        \/ exists pre t c cmd o, entries = (pre ++ [(t, Ran false c cmd o)])%list /\ all_ran_ok pre).
Proof.
  induction ts as [|t rest IH]; intros st0 w s.
  - exists 0%nat, [], s. rewrite app_nil_r. simpl.
    repeat split; try (intros; contradiction); try (rewrite app_nil_r; reflexivity).
    left. split; [reflexivity|]. intros ? ? ? ? ? [].
  - simpl. destruct (tasks_get t (tasks (config ctx))) as [spec|] eqn:Hget.
    + unfold bind at 1. rewrite orch_run_eq.
      destruct (run_result _ _ _) as [code out] eqn:Hres. simpl.
      set (s1 := mkSt _ _ _ _ _ _).
      destruct (code =? 0)%Z eqn:Hc; simpl.
      * destruct (IH (st0 ++ [(t, Ran true code (join " " (argv spec)) (tail_chars 4000 out))])%list w s1)
          as (k & es & s' & Hrun & Hk & Hsk & Hokc & Htr & Hend).
        exists (S k), ((t, Ran true code (join " " (argv spec)) (tail_chars 4000 out)) :: es), s'.
        rewrite Hrun, <- app_assoc. split; [reflexivity|].
        split; [simpl; rewrite Hk; reflexivity|].
        split.
        { intros t' e [He|He].
          - inversion He; subst. split; intros H; congruence.
          - apply Hsk; exact He. }
        split.
        { intros t' ok c cmd o [He|He].
          - inversion He; subst. symmetry; exact Hc.
          - eapply Hokc; exact He. }
        split.
        { rewrite Htr. subst s1. simpl. unfold proc_argvs. rewrite flat_map_app. simpl.
          unfold conf_argvs. simpl. rewrite Hget. rewrite <- app_assoc. reflexivity. }
        destruct Hend as [[Hk' Hall]|(pre & t2 & c2 & cmd2 & o2 & Hes & Hpre)].
        { left. split; [simpl; lia|].
          intros t' ok c cmd o [He|He]; [inversion He; reflexivity|eapply Hall; exact He]. }
        { right. exists ((t, Ran true code (join " " (argv spec)) (tail_chars 4000 out)) :: pre),
                 t2, c2, cmd2, o2.
          split; [rewrite Hes; reflexivity|].
          intros t' ok c cmd o [He|He]; [inversion He; reflexivity|eapply Hpre; exact He]. }
      * exists 1%nat, [(t, Ran false code (join " " (argv spec)) (tail_chars 4000 out))], s1.
        split; [reflexivity|].
        split; [reflexivity|].
        split.
        { intros t' e [He|[]]. inversion He; subst. split; intros H; congruence. }
        split.
        { intros t' ok c cmd o [He|[]]. inversion He; subst. symmetry; exact Hc. }
        split.
        { subst s1. simpl. unfold proc_argvs. rewrite flat_map_app. simpl.
          unfold conf_argvs. simpl. rewrite Hget. reflexivity. }
        right. exists [], t, code, (join " " (argv spec)), (tail_chars 4000 out).
        split; [reflexivity|]. intros ? ? ? ? ? [].
    + destruct (IH (st0 ++ [(t, Skipped)])%list w s)
        as (k & es & s' & Hrun & Hk & Hsk & Hokc & Htr & Hend).
      exists (S k), ((t, Skipped) :: es), s'.
      rewrite Hrun, <- app_assoc. split; [reflexivity|].
      split; [simpl; rewrite Hk; reflexivity|].
      split.
      { intros t' e [He|He].
        - inversion He; subst. split; intros; [exact Hget|reflexivity].
        - apply Hsk; exact He. }
      split.
      { intros t' ok c cmd o [He|He]; [discriminate|eapply Hokc; exact He]. }
      split.
      { rewrite Htr. unfold conf_argvs. simpl. rewrite Hget. reflexivity. }
      destruct Hend as [[Hk' Hall]|(pre & t2 & c2 & cmd2 & o2 & Hes & Hpre)].
      { left. split; [simpl; lia|].
        intros t' ok c cmd o [He|He]; [discriminate|eapply Hall; exact He]. }
      { right. exists ((t, Skipped) :: pre), t2, c2, cmd2, o2.
        split; [rewrite Hes; reflexivity|].
        intros t' ok c cmd o [He|He]; [discriminate|eapply Hpre; exact He]. }
Qed.

(** C4 (corrected).  [_run_tasks] visits format, lint, typecheck, test,
    build in that order; an unconfigured task gets a skipped entry and the
    loop goes on; each configured task launches its own command and gets an
    entry whose [ok] is [returncode == 0]; at the first configured task that
    exits non-zero the loop stops.  The returned mapping holds entries for
    exactly a prefix of the order: all five tasks when none fails, otherwise
    the tasks up to and including the failing one (which is last, every
    earlier ran entry being ok); the later tasks are absent from it and their
    commands are never launched. *)
Theorem run_tasks_fail_fast ctx w s :
  exists k res s',
    run_tasks ctx w s = (inr res, s')
    /\ map fst res = firstn k TASK_ORDER
    /\ (forall t e, In (t, e) res -> (e = Skipped <-> tasks_get t (tasks (config ctx)) = None))
    /\ (forall t ok c cmd o, In (t, Ran ok c cmd o) res -> ok = (c =? 0)%Z)
    /\ proc_argvs (st_trace s')
       = (proc_argvs (st_trace s) ++ conf_argvs (config ctx) (firstn k TASK_ORDER))%list
    /\ ((k = 5%nat /\ all_ran_ok res)
        \/ exists pre t c cmd o, res = (pre ++ [(t, Ran false c cmd o)])%list /\ all_ran_ok pre).
Proof.
  unfold run_tasks.
  destruct (run_tasks_loop_spec ctx TASK_ORDER [] w s)
    as (k & es & s' & Hrun & Hk & Hsk & Hokc & Htr & Hend).
  exists k, es, s'. exact (conj Hrun (conj Hk (conj Hsk (conj Hokc (conj Htr Hend))))).
Qed.

(** C4 counterexample: with only [lint] configured and failing, the mapping
    [_run_tasks] returns has no entry for typecheck, test or build. *)
Lemma run_tasks_omits_tasks_after_failure :
  fst (run_tasks ctx_lint_only world_lint_fails s_init)
  = inr [(TFormat, Skipped); (TLint, Ran false 1 "npm run lint" "SyntaxError line 4")]
  /\ ~ (forall t, In t TASK_ORDER ->
        exists e, In (t, e) [(TFormat, Skipped);
                             (TLint, Ran false 1 "npm run lint" "SyntaxError line 4")]).
Proof.
  split; [vm_compute; reflexivity|].
  intros H. destruct (H TTypecheck) as [e [He|[He|[]]]]; [simpl; tauto| |]; discriminate.
Qed.

(* ------------------------------------------------------------------ *)
(** ** C5, C6: the retry wrapper *)

Lemma runner_run_eq a p t w s :
  runner_run a p t w s =
  (w_runner w (st_tick s) a p t,
   mkSt (S (st_tick s)) (st_draws s) (st_trace s ++ [EvActor a p t]) (st_ctx s) (st_files s) (st_dirs s)).
Proof.
  unfold runner_run, bind, tick, ask, emit; simpl.
  destruct (w_runner w (st_tick s) a p t); reflexivity.
Qed.

Lemma backoff_sleep_eq tag label attempt maxa delay w s :
  exists line,
  backoff_sleep tag label attempt maxa delay w s =
  (inr tt, mkSt (st_tick s) (S (st_draws s))
              (st_trace s ++ [EvPrint line; EvSleep (jitter_sleep delay (w_random w (st_draws s)))])
              (st_ctx s) (st_files s) (st_dirs s)).
Proof.
  eexists. unfold backoff_sleep, bind, random, print, sleep, emit; simpl.
  rewrite <- app_assoc. reflexivity.
Qed.

Lemma sleeps_app a b : sleeps (a ++ b) = (sleeps a ++ sleeps b)%list.
Proof. unfold sleeps. apply flat_map_app. Qed.

Lemma actors_app a b : actors (a ++ b) = (actors a ++ actors b)%list.
Proof. unfold actors. apply flat_map_app. Qed.

(** One retryable failure: the handler sleeps and re-enters the loop. *)
Lemma backoff_loop_retry label agent prompt turns maxa f attempt delay w s e :
  retryable e = true ->
  w_runner w (st_tick s) agent prompt turns = inl e ->
  exists line,
  backoff_loop label agent prompt turns maxa (S f) attempt delay w s =
  backoff_loop label agent prompt turns maxa f (attempt + 1) (fmul delay f_two) w
    (mkSt (S (st_tick s)) (S (st_draws s))
          (st_trace s ++ [EvActor agent prompt turns; EvPrint line;
                          EvSleep (jitter_sleep delay (w_random w (st_draws s)))])
          (st_ctx s) (st_files s) (st_dirs s)).
Proof.
  intros Hr He. simpl backoff_loop. unfold catch. rewrite runner_run_eq, He.
  destruct e as [m|[c|] m|m|m|m|cmd t|m|m]; try discriminate Hr;
    [| | ]; cbv beta iota;
    try (simpl in Hr; apply Z.leb_le in Hr; destruct (Z.ltb_spec c 500); [lia|]);
    match goal with
    | |- context [backoff_sleep ?tag label attempt maxa delay] =>
        destruct (backoff_sleep_eq tag label attempt maxa delay w
                    (mkSt (S (st_tick s)) (st_draws s) (st_trace s ++ [EvActor agent prompt turns])
                          (st_ctx s) (st_files s) (st_dirs s))) as [line Hl];
        exists line; unfold bind at 1; rewrite Hl; simpl; rewrite <- app_assoc; reflexivity
    end.
Qed.

Lemma backoff_loop_retries_then_ok label agent prompt turns maxa k : forall fuel attempt delay w s o,
  (k < fuel)%nat ->
  (forall i, (i < k)%nat -> exists e,
       w_runner w (st_tick s + i) agent prompt turns = inl e /\ retryable e = true) ->
  w_runner w (st_tick s + k) agent prompt turns = inr o ->
  exists s', backoff_loop label agent prompt turns maxa fuel attempt delay w s = (inr o, s')
    /\ sleeps (st_trace s')
       = (sleeps (st_trace s)
          ++ map (fun i => code_sleep delay i (w_random w (st_draws s + i))) (seq 0 k))%list.
Proof.
  induction k as [|k IH]; intros fuel attempt delay w s o Hk Hfail Hok.
  - destruct fuel as [|f]; [lia|]. rewrite Nat.add_0_r in Hok.
    simpl backoff_loop. unfold catch. rewrite runner_run_eq, Hok.
    eexists. split; [reflexivity|]. simpl. rewrite sleeps_app, !app_nil_r. reflexivity.
  - destruct fuel as [|f]; [lia|].
    destruct (Hfail 0%nat ltac:(lia)) as [e [He Hr]]. rewrite Nat.add_0_r in He.
    destruct (backoff_loop_retry label agent prompt turns maxa f attempt delay w s e Hr He)
      as [line Heq].
    rewrite Heq.
    set (s1 := mkSt _ _ _ _ _ _).
    destruct (IH f (attempt + 1)%Z (fmul delay f_two) w s1 o ltac:(lia)) as [s' [Hrun Hsl]].
    + intros i Hi. destruct (Hfail (S i) ltac:(lia)) as [e' [He' Hr']].
      exists e'. split; [|exact Hr']. subst s1; simpl. rewrite <- He'. f_equal. lia.
    + subst s1; simpl. rewrite <- Hok. f_equal. lia.
    + exists s'. split; [exact Hrun|]. rewrite Hsl. subst s1. simpl.
      rewrite sleeps_app. simpl. rewrite <- app_assoc. f_equal. simpl. f_equal.
      * unfold code_sleep, jitter_sleep. simpl. rewrite Nat.add_0_r. reflexivity.
      * rewrite <- seq_shift, map_map. apply map_ext. intros i.
        unfold code_sleep. rewrite Nat.iter_succ_r, Nat.add_succ_r. reflexivity.
Qed.

(** *** Rounding in binary64

    The lemmas below follow [binary_round_aux] through its two shifts: a
    product or a sum whose exact value lies between [L * 2^n] and
    [B * 2^n], for 53-bit [L] and [B], rounds to a mantissa between [L]
    and [B]. *)

Section Binary64.
Local Open Scope Z_scope.

Lemma iter_pos_nat {A} (f : A -> A) p x : iter_pos f p x = Nat.iter (Pos.to_nat p) f x.
Proof.
  revert x. induction p as [p IH|p IH|]; intros x; cbn [iter_pos].
  - rewrite Pos2Nat.inj_xI, !IH. rewrite Nat.iter_succ_r.
    replace (2 * Pos.to_nat p)%nat with (Pos.to_nat p + Pos.to_nat p)%nat by lia.
    rewrite Nat.iter_add. reflexivity.
  - rewrite Pos2Nat.inj_xO, !IH.
    replace (2 * Pos.to_nat p)%nat with (Pos.to_nat p + Pos.to_nat p)%nat by lia.
    rewrite Nat.iter_add. reflexivity.
  - reflexivity.
Qed.

Lemma shr_1_spec m r s : 0 <= m ->
  shr_1 {| shr_m := m; shr_r := r; shr_s := s |}
  = {| shr_m := m / 2; shr_r := Z.odd m; shr_s := r || s |}.
Proof.
  intros Hm. rewrite <- Z.div2_div. destruct m as [|[p|p|]|p]; try lia; reflexivity.
Qed.

Lemma shr_iter_spec n : forall m r s, 0 <= m ->
  let x := Nat.iter n shr_1 {| shr_m := m; shr_r := r; shr_s := s |} in
  shr_m x = m / 2 ^ Z.of_nat n
  /\ (shr_r x || shr_s x)%bool = (r || s || negb (m mod 2 ^ Z.of_nat n =? 0))%bool.
Proof.
  induction n as [|n IH]; intros m r s Hm; cbv zeta.
  - simpl. rewrite Z.div_1_r, Z.mod_1_r. simpl. rewrite Bool.orb_false_r. split; reflexivity.
  - rewrite Nat.iter_succ_r, shr_1_spec by exact Hm.
    destruct (IH (m / 2) (Z.odd m) (r || s)%bool ltac:(apply Z.div_pos; lia)) as [H1 H2].
    split.
    + rewrite H1, Z.div_div by lia. rewrite Nat2Z.inj_succ, Z.pow_succ_r by lia. reflexivity.
    + rewrite H2. rewrite Nat2Z.inj_succ, Z.pow_succ_r by lia.
      rewrite Z.rem_mul_r by (try lia; apply Z.pow_pos_nonneg; lia).
      assert (Hb : 0 <= m mod 2 < 2) by (apply Z.mod_pos_bound; lia).
      assert (Hc : 0 <= (m / 2) mod 2 ^ Z.of_nat n < 2 ^ Z.of_nat n)
        by (apply Z.mod_pos_bound, Z.pow_pos_nonneg; lia).
      rewrite Zmod_odd.
      set (x2 := (m / 2) mod 2 ^ Z.of_nat n) in *.
      destruct (Z.odd m), r, s;
        destruct (Z.eqb_spec x2 0);
        destruct (Z.eqb_spec ((if true then 1 else 0) + 2 * x2) 0);
        destruct (Z.eqb_spec ((if false then 1 else 0) + 2 * x2) 0);
        simpl; first [reflexivity | lia].
Qed.

Lemma digits2_pos_size p : digits2_pos p = Pos.size p.
Proof. induction p as [p IH|p IH|]; simpl; rewrite ?IH; reflexivity. Qed.

Lemma Zdigits2_log2 m : 0 < m -> Zdigits2 m = Z.log2 m + 1.
Proof.
  intros Hm. destruct m as [|p|p]; try lia. simpl. rewrite digits2_pos_size.
  destruct p as [p|p|]; simpl; rewrite ?Pos2Z.inj_succ; reflexivity.
Qed.

Lemma Zdigits2_eq m d : 0 < d -> 2 ^ (d - 1) <= m < 2 ^ d -> Zdigits2 m = d.
Proof.
  intros Hd Hb. assert (0 < m) by (pose proof (Z.pow_pos_nonneg 2 (d - 1)); lia).
  rewrite Zdigits2_log2 by lia.
  assert (Hl : Z.log2 m = d - 1)
    by (apply Z.log2_unique; [lia|]; replace (Z.succ (d - 1)) with d by lia; exact Hb).
  lia.
Qed.

(** [m / 2^n], rounded up when the division is not exact. *)
Lemma div_ceil_le m n B : 0 <= n -> 0 <= m -> m <= B * 2 ^ n ->
  m / 2 ^ n + (if m mod 2 ^ n =? 0 then 0 else 1) <= B.
Proof.
  intros Hn Hm HB. assert (Hp : 0 < 2 ^ n) by (apply Z.pow_pos_nonneg; lia).
  pose proof (Z.div_mod m (2 ^ n) ltac:(lia)) as Hdm.
  pose proof (Z.mod_pos_bound m (2 ^ n) Hp) as Hr.
  destruct (m mod 2 ^ n =? 0) eqn:E; [apply Z.eqb_eq in E|apply Z.eqb_neq in E]; nia.
Qed.

Lemma div_lower m n L : 0 <= n -> L * 2 ^ n <= m -> L <= m / 2 ^ n.
Proof.
  intros Hn HL. apply Z.div_le_lower_bound; [apply Z.pow_pos_nonneg; lia|lia].
Qed.

Lemma round_aux_bounds mx ex n L B :
  n = fexp prec emax (Zdigits2 mx + ex) - ex ->
  0 <= n -> 2 ^ 52 <= L -> B < 2 ^ 53 -> L * 2 ^ n <= mx -> mx <= B * 2 ^ n ->
  exists res, L <= Zpos res <= B
    /\ (mx mod 2 ^ n = 0 -> Zpos res = mx / 2 ^ n)
    /\ binary_round_aux prec emax false mx ex loc_Exact
       = if ex + n <=? emax - prec then S754_finite false res (ex + n) else S754_infinity false.
Proof.
  intros Hn H0 HL HB HLm HmB.
  assert (Hp : 0 < 2 ^ n) by (apply Z.pow_pos_nonneg; lia).
  assert (Hmx : 0 <= mx) by nia.
  assert (Hq1 : L <= mx / 2 ^ n) by (apply div_lower; lia).
  assert (Hq2 := div_ceil_le mx n B H0 Hmx HmB).
  (* the first shift *)
  remember (shr_fexp prec emax mx ex loc_Exact) as sf eqn:Esf.
  destruct sf as [mrs' e'].
  set (q' := round_nearest_even (shr_m mrs') (loc_of_shr_record mrs')).
  assert (Hfst : e' = ex + n
                 /\ mx / 2 ^ n <= q' <= mx / 2 ^ n + (if mx mod 2 ^ n =? 0 then 0 else 1)
                 /\ (mx mod 2 ^ n = 0 -> q' = mx / 2 ^ n)).
  { subst q'. unfold shr_fexp in Esf. rewrite <- Hn in Esf. simpl shr_record_of_loc in Esf.
    destruct n as [|p|p]; [|unfold shr in Esf|lia].
    - simpl in Esf. injection Esf as -> ->. split; [lia|]. cbn [shr_m loc_of_shr_record round_nearest_even].
      rewrite Z.pow_0_r, Z.div_1_r, Z.mod_1_r. cbn. split; lia.
    - rewrite iter_pos_nat in Esf. injection Esf as -> ->.
      destruct (shr_iter_spec (Pos.to_nat p) mx false false Hmx) as [H1 H2].
      rewrite positive_nat_Z in H1, H2. cbn [orb] in H2.
      destruct (Nat.iter _ _ _) as [m' r' s']. cbn [shr_m shr_r shr_s fst snd] in H1, H2 |- *.
      subst m'.
      split; [reflexivity|].
      destruct (mx mod 2 ^ Z.pos p =? 0) eqn:E;
        [apply Z.eqb_eq in E|apply Z.eqb_neq in E];
        destruct r', s'; cbn [orb negb] in H2; try discriminate H2;
        unfold loc_of_shr_record, round_nearest_even;
        try (destruct (Z.even _)); (split; [lia|]); intros; first [reflexivity|lia].
  }
  destruct Hfst as (He' & Hq'1 & Hq'3). subst e'.
  assert (Hq'2 : L <= q' <= B) by lia.
  assert (Hd : Zdigits2 q' = prec).
  { apply Zdigits2_eq; unfold prec; [lia|]. split; [|lia].
    replace (53 - 1) with 52 by lia. lia. }
  assert (Hf : fexp prec emax (prec + (ex + n)) = ex + n).
  { pose proof (Z.le_max_r (Zdigits2 mx + ex - prec) (emin prec emax)) as Hm.
    unfold fexp in Hn, Hm |- *. rewrite Hn. lia. }
  unfold binary_round_aux. rewrite <- Esf. fold q'.
  unfold shr_fexp at 1. rewrite Hd, Hf, Z.sub_diag. cbn [shr shr_record_of_loc shr_m].
  destruct q' as [|res|res] eqn:Eq'; [lia| |lia].
  exists res. split; [lia|]. split; [exact Hq'3|]. reflexivity.
Qed.

Lemma iter_xO mx d : Zpos (Pos.iter xO mx d) = Zpos mx * 2 ^ Zpos d.
Proof.
  induction d as [|d IH] using Pos.peano_ind.
  - simpl. lia.
  - rewrite Pos.iter_succ, Pos2Z.inj_xO, IH, Pos2Z.inj_succ.
    rewrite (Z.pow_succ_r 2 (Zpos d)) by lia. ring.
Qed.

Lemma shl_align_down mx ex ex' : ex' <= ex ->
  Zpos (fst (shl_align mx ex ex')) = Zpos mx * 2 ^ (ex - ex') /\ snd (shl_align mx ex ex') = ex'.
Proof.
  intros H. unfold shl_align. destruct (ex' - ex) as [|d|d] eqn:E.
  - replace (ex - ex') with 0 by lia. simpl. split; lia.
  - lia.
  - simpl. rewrite iter_xO. replace (ex - ex') with (Zpos d) by lia. split; reflexivity.
Qed.

Lemma shl_align_up mx ex ex' : ex <= ex' -> shl_align mx ex ex' = (mx, ex).
Proof. intros H. unfold shl_align. destruct (ex' - ex) eqn:E; [reflexivity|reflexivity|lia]. Qed.

Lemma emin_val : emin prec emax = -1074.
Proof. reflexivity. Qed.

Lemma fexp_val e : -1021 <= e -> fexp prec emax e = e - 53.
Proof. intros H. unfold fexp. rewrite emin_val. unfold prec. lia. Qed.

Lemma f_one_eq : f_one = S754_finite false (2 ^ 52) (-52). Proof. reflexivity. Qed.
Lemma f_quarter_eq : f_quarter = S754_finite false (2 ^ 52) (-54). Proof. reflexivity. Qed.

Lemma log2_digits k : 0 < k < 2 ^ 53 ->
  Zdigits2 k = Z.log2 k + 1 /\ 1 <= Z.log2 k + 1 <= 53
  /\ 2 ^ (Z.log2 k) <= k < 2 ^ (Z.log2 k + 1).
Proof.
  intros Hk. split; [apply Zdigits2_log2; lia|].
  pose proof (Z.log2_nonneg k). pose proof (Z.log2_spec k ltac:(lia)) as Hs.
  assert (Z.log2 k < 53) by (apply Z.log2_lt_pow2; lia).
  rewrite <- Z.add_1_r in Hs. split; [lia|exact Hs].
Qed.

Lemma jitter_bounds k : 0 <= k < 2 ^ 53 ->
  exists j, fadd f_one (fmul (py_random k) f_quarter) = S754_finite false j (-52)
    /\ 2 ^ 52 <= Zpos j <= 2 ^ 52 + 2 ^ 50.
Proof.
  intros Hk. destruct (Z.eq_dec k 0) as [->|Hk0].
  { exists (2 ^ 52)%positive. split; [reflexivity|lia]. }
  destruct k as [|pk|pk]; [lia| |lia].
  destruct (log2_digits (Zpos pk) ltac:(lia)) as (HD & HD1 & HD2).
  set (D := Z.log2 (Zpos pk) + 1) in *.
  assert (Ht : 2 ^ (53 - D) * 2 ^ (D - 1) = 2 ^ 52)
    by (rewrite <- Z.pow_add_r by lia; f_equal; lia).
  assert (HtD : 2 * 2 ^ (D - 1) = 2 ^ D)
    by (rewrite <- Z.pow_succ_r by lia; f_equal; lia).
  replace (Z.log2 (Zpos pk)) with (D - 1) in HD2 by lia.
  (* the draw *)
  unfold py_random, f_of, binary_normalize, binary_round.
  change (Zpos (digits2_pos pk)) with (Zdigits2 (Zpos pk)). rewrite HD.
  fold D. rewrite fexp_val by lia. replace (D + -53 - 53) with (D - 106) by lia.
  destruct (shl_align_down pk (-53) (D - 106) ltac:(lia)) as [Hs1 Hs2].
  destruct (shl_align pk (-53) (D - 106)) as [mz ez]. cbn [fst snd] in Hs1, Hs2. subst ez.
  replace (-53 - (D - 106)) with (53 - D) in Hs1 by lia.
  assert (Hmz : 2 ^ 52 <= Zpos mz < 2 ^ 53).
  { rewrite Hs1. assert (Ht2 : 2 ^ D * 2 ^ (53 - D) = 2 ^ 53)
      by (rewrite <- Z.pow_add_r by lia; f_equal; lia).
    pose proof (Z.pow_pos_nonneg 2 (53 - D)). split; nia. }
  destruct (round_aux_bounds (Zpos mz) (D - 106) 0 (Zpos mz) (Zpos mz)) as (r1 & Hr1 & _ & Er1).
  { rewrite (Zdigits2_eq (Zpos mz) 53); [|lia|lia]. rewrite fexp_val by lia. lia. }
  { lia. } { lia. } { lia. } { lia. } { lia. }
  rewrite Er1. replace (D - 106 + 0 <=? emax - prec) with true
    by (symmetry; apply Z.leb_le; unfold emax, prec; lia).
  rewrite Z.add_0_r.
  (* times 0.25 *)
  rewrite f_quarter_eq. unfold fmul, SFmul. cbn [xorb].
  destruct (round_aux_bounds (Zpos (r1 * 2 ^ 52)) (D - 106 + -54) 52 (Zpos r1) (Zpos r1))
    as (r2 & Hr2 & Hx2 & Er2).
  { rewrite (Zdigits2_eq _ 105); [|lia|].
    - rewrite fexp_val by lia. lia.
    - rewrite Pos2Z.inj_mul, Pos2Z.inj_pow. split; nia. }
  { lia. } { lia. } { lia. } { rewrite Pos2Z.inj_mul, Pos2Z.inj_pow. lia. }
  { rewrite Pos2Z.inj_mul, Pos2Z.inj_pow. lia. }
  rewrite Er2. replace (D - 106 + -54 + 52 <=? emax - prec) with true
    by (symmetry; apply Z.leb_le; unfold emax, prec; lia).
  rewrite Hx2 in * by (rewrite Pos2Z.inj_mul, Pos2Z.inj_pow, Z.mod_mul; lia).
  rewrite Pos2Z.inj_mul, Pos2Z.inj_pow, Z.div_mul in * by lia.
  (* plus 1.0 *)
  rewrite f_one_eq. unfold fadd, SFadd.
  replace (Z.min (-52) (D - 106 + -54 + 52)) with (D - 108) by lia.
  replace (D - 106 + -54 + 52) with (D - 108) by lia.
  destruct (shl_align_down (2 ^ 52) (-52) (D - 108) ltac:(lia)) as [Ha1 _].
  rewrite (shl_align_up r2 (D - 108) (D - 108)) by lia. cbn [fst cond_Zopp].
  rewrite Ha1.
  clear Ha1.
  assert (Hr2e : Zpos r2 = Zpos pk * 2 ^ (53 - D))
    by (rewrite Hx2 by (rewrite Z.mod_mul; lia); lia).
  set (t := 2 ^ (53 - D)) in *.
  assert (Ht0 : 0 < t) by (apply Z.pow_pos_nonneg; lia).
  assert (Ht8 : 2 ^ (-52 - (D - 108)) = 8 * t)
    by (subst t; rewrite <- (Z.pow_add_r 2 3) by lia; f_equal; lia).
  rewrite Ht8, Hr2e.
  assert (Hp52 : Zpos (2 ^ 52) = 2 ^ 52) by reflexivity. rewrite Hp52.
  set (S := 2 ^ 52 * (8 * t) + Z.pos pk * t).
  assert (HS : S = (2 ^ 55 + Zpos pk) * t) by (subst S; ring).
  assert (Hdig : Zdigits2 S = 109 - D).
  { apply Zdigits2_eq; [lia|]. rewrite HS.
    replace (109 - D - 1) with (55 + (53 - D)) by lia.
    replace (109 - D) with (56 + (53 - D)) by lia.
    rewrite !Z.pow_add_r by lia. fold t. split; nia. }
  destruct S as [|ps|ps] eqn:ES; [lia| |lia].
  unfold binary_normalize, binary_round.
  change (Zpos (digits2_pos ps)) with (Zdigits2 (Zpos ps)). rewrite Hdig.
  replace (109 - D + (D - 108)) with 1 by lia. rewrite fexp_val by lia.
  rewrite shl_align_up by lia.
  destruct (round_aux_bounds (Zpos ps) (D - 108) (56 - D) (2 ^ 52) (2 ^ 52 + 2 ^ 50))
    as (j & Hj & _ & Ej).
  { rewrite Hdig, fexp_val by lia. lia. }
  { lia. } { lia. } { lia. }
  { rewrite HS. replace (56 - D) with (3 + (53 - D)) by lia. rewrite Z.pow_add_r by lia.
    fold t. nia. }
  { rewrite HS. replace (56 - D) with (3 + (53 - D)) by lia. rewrite Z.pow_add_r by lia.
    fold t. nia. }
  rewrite Ej. replace (D - 108 + (56 - D)) with (-52) by lia.
  exists j. split; [reflexivity|exact Hj].
Qed.

Lemma f_two_eq : f_two = S754_finite false (2 ^ 52) (-51). Proof. reflexivity. Qed.
Lemma f_twenty_eq : f_twenty = S754_finite false (5 * 2 ^ 50) (-48). Proof. reflexivity. Qed.
Lemma f_half_eq : f_half = S754_finite false (2 ^ 52) (-53). Proof. reflexivity. Qed.

Lemma double_step e : -53 <= e ->
  fmul (S754_finite false (2 ^ 52) e) f_two
  = if e + 1 <=? emax - prec then S754_finite false (2 ^ 52) (e + 1) else S754_infinity false.
Proof.
  intros He. rewrite f_two_eq. unfold fmul, SFmul. cbn [xorb].
  destruct (round_aux_bounds (Zpos (2 ^ 52 * 2 ^ 52)) (e + -51) 52 (2 ^ 52) (2 ^ 52))
    as (r & Hr & _ & Er).
  { rewrite (Zdigits2_eq _ 105) by (try lia; split; reflexivity || (simpl; lia)).
    rewrite fexp_val by lia. lia. }
  { lia. } { lia. } { lia. } { vm_compute. discriminate. } { vm_compute. discriminate. }
  rewrite Er. replace (e + -51 + 52) with (e + 1) by lia.
  assert (Zpos r = 2 ^ 52) by lia.
  replace r with (2 ^ 52)%positive by (apply Pos2Z.inj; rewrite H; reflexivity). reflexivity.
Qed.

Lemma delay_iter i :
  Nat.iter i (fun d => fmul d f_two) f_half
  = if (i <=? 1024)%nat then S754_finite false (2 ^ 52) (Z.of_nat i - 53) else S754_infinity false.
Proof.
  induction i as [|i IH].
  - reflexivity.
  - rewrite Nat.iter_succ, IH.
    destruct (Nat.leb_spec i 1024) as [Hi|Hi].
    + rewrite double_step by lia. unfold emax, prec.
      destruct (Z.leb_spec (Z.of_nat i - 53 + 1) (1024 - 53)) as [Hj|Hj];
        destruct (Nat.leb_spec (S i) 1024) as [Hk|Hk]; try lia.
      * f_equal. lia.
      * reflexivity.
    + destruct (Nat.leb_spec (S i) 1024) as [Hk|Hk]; [lia|]. reflexivity.
Qed.

Lemma min_delay i :
  py_min f_twenty (Nat.iter i (fun d => fmul d f_two) f_half)
  = if (i <=? 5)%nat then S754_finite false (2 ^ 52) (Z.of_nat i - 53) else f_twenty.
Proof.
  destruct (Nat.leb_spec i 5) as [Hi|Hi].
  - do 6 (destruct i as [|i]; [vm_compute; reflexivity|]). lia.
  - rewrite delay_iter. unfold py_min, fltb. rewrite f_twenty_eq.
    destruct (Nat.leb_spec i 1024); [|reflexivity].
    unfold SFltb, SFcompare. destruct (Z.compare_spec (Z.of_nat i - 53) (-48)); try lia.
    reflexivity.
Qed.

Lemma small_sleep_val i (j : Z) : (i <= 5)%nat -> 2 ^ 52 <= j <= 2 ^ 52 + 2 ^ 50 ->
  (spec_delay i <= inject_Z j * pow2Q (Z.of_nat i - 53)
   /\ inject_Z j * pow2Q (Z.of_nat i - 53) <= (5 # 4) * spec_delay i)%Q.
Proof.
  intros Hi Hj.
  set (T := 2 ^ Z.of_nat i).
  assert (HT : 1 <= T <= 32).
  { subst T. split; [apply (Z.pow_le_mono_r 2 0); lia|].
    apply (Z.pow_le_mono_r 2 _ 5); lia. }
  assert (Hd : spec_delay i = ((1 # 2) * inject_Z T)%Q).
  { unfold spec_delay. fold T. destruct (Qle_bool 20 _) eqn:E; [|reflexivity].
    apply Qle_bool_iff in E. unfold Qle in E. cbn [Qnum Qden Qmult inject_Z] in E. lia. }
  assert (Hp : pow2Q (Z.of_nat i - 53) = 1 # Z.to_pos (2 ^ (53 - Z.of_nat i))).
  { unfold pow2Q. destruct (Z.leb_spec 0 (Z.of_nat i - 53)); [lia|].
    do 3 f_equal. lia. }
  assert (HP : T * 2 ^ (53 - Z.of_nat i) = 2 ^ 53)
    by (subst T; rewrite <- Z.pow_add_r by lia; f_equal; lia).
  assert (HP0 : 0 < 2 ^ (53 - Z.of_nat i)) by (apply Z.pow_pos_nonneg; lia).
  rewrite Hd, Hp. unfold Qle. cbn [Qnum Qden Qmult inject_Z].
  rewrite !Pos2Z.inj_mul, Z2Pos.id by lia. split; nia.
Qed.

Lemma sleep_bounds i k : 0 <= k < 2 ^ 53 ->
  exists q, SF_val (code_sleep f_half i k) = Some q
    /\ (spec_delay i <= q /\ q <= (5 # 4) * spec_delay i)%Q.
Proof.
  intros Hk. unfold code_sleep. rewrite min_delay.
  destruct (jitter_bounds k Hk) as (j & -> & Hj).
  unfold fmul, SFmul.
  destruct (Nat.leb_spec i 5) as [Hi|Hi]; [|rewrite f_twenty_eq]; cbn [xorb].
  - destruct (round_aux_bounds (Zpos (2 ^ 52 * j)) (Z.of_nat i - 53 + -52) 52 (Zpos j) (Zpos j))
      as (r & Hr & _ & Er).
    { rewrite (Zdigits2_eq _ 105); [|lia|rewrite Pos2Z.inj_mul; split; nia].
      rewrite fexp_val by lia. lia. }
    { lia. } { lia. } { lia. } { rewrite Pos2Z.inj_mul. lia. } { rewrite Pos2Z.inj_mul. lia. }
    rewrite Er. replace (Z.of_nat i - 53 + -52 + 52 <=? emax - prec) with true
      by (symmetry; apply Z.leb_le; unfold emax, prec; lia).
    eexists. split; [reflexivity|].
    replace (Zpos r) with (Zpos j) by lia. cbn [cond_Zopp].
    replace (Z.of_nat i - 53 + -52 + 52) with (Z.of_nat i - 53) by lia.
    apply small_sleep_val; lia.
  - destruct (round_aux_bounds (Zpos (5 * 2 ^ 50 * j)) (-48 + -52) 52 (5 * 2 ^ 50) (25 * 2 ^ 48))
      as (r & Hr & _ & Er).
    { rewrite (Zdigits2_eq _ 105); [|lia|rewrite Pos2Z.inj_mul; split; nia].
      rewrite fexp_val by lia. lia. }
    { lia. } { lia. } { lia. } { rewrite Pos2Z.inj_mul. lia. } { rewrite Pos2Z.inj_mul. lia. }
    rewrite Er. replace (-48 + -52 + 52 <=? emax - prec) with true by reflexivity.
    eexists. split; [reflexivity|].
    assert (Hd : spec_delay i = 20%Q).
    { unfold spec_delay. replace (Qle_bool 20 ((1 # 2) * inject_Z (2 ^ Z.of_nat i))%Q) with true;
        [reflexivity|].
      symmetry. apply Qle_bool_iff. unfold Qle. cbn [Qnum Qden Qmult inject_Z].
      assert (2 ^ 6 <= 2 ^ Z.of_nat i) by (apply Z.pow_le_mono_r; lia). lia. }
    change (pow2Q (-48 + -52 + 52)) with (1 # 281474976710656)%Q.
    rewrite Hd. unfold Qle. cbn [Qnum Qden Qmult inject_Z cond_Zopp].
    rewrite !Pos2Z.inj_mul. split; lia.
Qed.

End Binary64.

(** C5 (corrected).  When the invocation fails with a retryable
    classification exactly [k < max_attempts] times and then succeeds,
    [_run_agent_with_backoff] returns the success value after exactly [k]
    sleeps.  The i-th sleep is a finite float whose value lies in
    [[d_i, 1.25 d_i]] for the base delay [d_i = min(20, 0.5 * 2^i)]
    (0.5, 1, 2, ... capped at 20), for every draw of [random.random()]. *)
Theorem run_agent_with_backoff_retries_then_returns label agent prompt turns max_attempts k w s o
  (Hk : (Z.of_nat k < max_attempts)%Z)
  (Hfail : forall i, (i < k)%nat -> exists e,
       w_runner w (st_tick s + i) agent prompt turns = inl e /\ retryable e = true)
  (Hok : w_runner w (st_tick s + k) agent prompt turns = inr o)
  (Hrand : forall n, (0 <= w_random w n < 2 ^ 53)%Z) :
  exists s' sl,
    run_agent_with_backoff label agent prompt turns max_attempts w s = (inr o, s')
    /\ sleeps (st_trace s') = (sleeps (st_trace s) ++ sl)%list
    /\ length sl = k
    /\ forall i, (i < k)%nat -> exists q,
       SF_val (nth i sl S754_nan) = Some q
       /\ (spec_delay i <= q /\ q <= (5 # 4) * spec_delay i)%Q.
Proof.
  unfold run_agent_with_backoff.
  destruct (backoff_loop_retries_then_ok label agent prompt turns max_attempts k
              (Z.to_nat max_attempts) 1 f_half w s o ltac:(lia) Hfail Hok) as [s' [Hrun Hsl]].
  exists s', (map (fun i => code_sleep f_half i (w_random w (st_draws s + i))) (seq 0 k)).
  split; [exact Hrun|]. split; [exact Hsl|].
  split; [rewrite length_map, length_seq; reflexivity|].
  intros i Hi.
  set (f := fun i => code_sleep f_half i (w_random w (st_draws s + i))).
  rewrite (nth_indep (map f (seq 0 k)) S754_nan (f 0%nat))
    by (rewrite length_map, length_seq; exact Hi).
  rewrite map_nth, seq_nth by exact Hi. subst f. cbv beta. simpl.
  apply sleep_bounds, Hrand.
Qed.

Lemma run_agent_with_backoff_retries_then_returns_witness :
  (Z.of_nat 1 < 8)%Z
  /\ (forall i, (i < 1)%nat -> exists e,
        w_runner world_first_rate_limited (st_tick s_init + i) RepoMapper "p" 30 = inl e
        /\ retryable e = true)
  /\ w_runner world_first_rate_limited (st_tick s_init + 1) RepoMapper "p" 30 = inr (mkOutput "{}")
  /\ (forall n, (0 <= w_random world_first_rate_limited n < 2 ^ 53)%Z)
  /\ exists s' sl,
    run_agent_with_backoff "repo_map" RepoMapper "p" 30 8 world_first_rate_limited s_init
    = (inr (mkOutput "{}"), s')
    /\ sleeps (st_trace s') = (sleeps (st_trace s_init) ++ sl)%list
    /\ length sl = 1%nat
    /\ forall i, (i < 1)%nat -> exists q,
       SF_val (nth i sl S754_nan) = Some q
       /\ (spec_delay i <= q /\ q <= (5 # 4) * spec_delay i)%Q.
Proof.
  assert (Hf : forall i, (i < 1)%nat -> exists e,
             w_runner world_first_rate_limited (st_tick s_init + i) RepoMapper "p" 30 = inl e
             /\ retryable e = true).
  { intros i Hi. assert (i = 0%nat) by lia. subst i.
    exists (RateLimitError "Error code: 429"). split; reflexivity. }
  assert (Hr : forall n, (0 <= w_random world_first_rate_limited n < 2 ^ 53)%Z).
  { intros n. simpl. lia. }
  split; [lia|]. split; [exact Hf|]. split; [reflexivity|]. split; [exact Hr|].
  exact (run_agent_with_backoff_retries_then_returns "repo_map" RepoMapper "p" 30 8 1
           world_first_rate_limited s_init (mkOutput "{}") ltac:(lia) Hf eq_refl Hr).
Defined.

(** C5 counterexample: the jitter factor [1.0 + random.random() * 0.25] is
    rounded to binary64.  For the largest draw, [1 - 2^-53], it is exactly
    [1.25], and the first sleep is [0.625 = 1.25 * 0.5], the upper end of
    the interval. *)
Lemma backoff_sleep_reaches_upper_bound :
  let '(r, s) := run_agent_with_backoff "repo_map" RepoMapper repo_map_prompt REPO_MAP_MAX_TURNS 8
                                        world_rate_limited_top_draw s_init in
  r = inr (mkOutput "{}")
  /\ sleeps (st_trace s) = [f_of 5 (-3)]
  /\ exists q, SF_val (f_of 5 (-3)) = Some q /\ (q == (5 # 4) * spec_delay 0)%Q.
Proof.
  vm_compute. split; [reflexivity|]. split; [reflexivity|].
  eexists. split; reflexivity.
Qed.

Lemma backoff_loop_exhausted label agent prompt turns maxa fuel : forall attempt delay w s,
  (forall i, (i < fuel)%nat -> exists e,
       w_runner w (st_tick s + i) agent prompt turns = inl e /\ retryable e = true) ->
  exists s', backoff_loop label agent prompt turns maxa fuel attempt delay w s
             = (inl (RuntimeError (label ++ ": exceeded retries after " ++ str_Z maxa
                                   ++ " attempts")), s')
    /\ length (sleeps (st_trace s')) = (length (sleeps (st_trace s)) + fuel)%nat.
Proof.
  induction fuel as [|f IH]; intros attempt delay w s Hfail.
  - exists s. split; [reflexivity|lia].
  - destruct (Hfail 0%nat ltac:(lia)) as [e [He Hr]]. rewrite Nat.add_0_r in He.
    destruct (backoff_loop_retry label agent prompt turns maxa f attempt delay w s e Hr He)
      as [line Heq].
    rewrite Heq.
    destruct (IH (attempt + 1)%Z (fmul delay f_two) w
                 (mkSt (S (st_tick s)) (S (st_draws s))
                       (st_trace s ++ [EvActor agent prompt turns; EvPrint line;
                          EvSleep (jitter_sleep delay (w_random w (st_draws s)))])
                       (st_ctx s) (st_files s) (st_dirs s))) as [s' [Hrun Hlen]].
    + intros i Hi. destruct (Hfail (S i) ltac:(lia)) as [e' [He' Hr']].
      exists e'. split; [|exact Hr']. simpl. rewrite <- He'. f_equal. lia.
    + exists s'. split; [exact Hrun|]. rewrite Hlen. simpl.
      rewrite sleeps_app, length_app. simpl. lia.
Qed.

(** C6 (corrected).  A failure that is not retryable (an exception other
    than an openai API error, or an API error other than a rate limit whose
    status code is below 500) propagates from the first attempt with no
    sleep and no further call; an API error without a status code (a
    connection error, for example) counts as retryable, like a 5xx; when all
    [max_attempts] attempts fail retryably the wrapper raises
    [RuntimeError("<label>: exceeded retries after <max_attempts> attempts")]
    after [max_attempts] sleeps. *)
Theorem run_agent_with_backoff_gives_up label agent prompt turns max_attempts w s :
  ((0 < max_attempts)%Z -> forall e,
     retryable e = false ->
     w_runner w (st_tick s) agent prompt turns = inl e ->
     exists s', run_agent_with_backoff label agent prompt turns max_attempts w s = (inl e, s')
       /\ sleeps (st_trace s') = sleeps (st_trace s)
       /\ actors (st_trace s') = (actors (st_trace s) ++ [agent])%list)
  /\
  ((forall i, (i < Z.to_nat max_attempts)%nat -> exists e,
       w_runner w (st_tick s + i) agent prompt turns = inl e /\ retryable e = true) ->
   exists s', run_agent_with_backoff label agent prompt turns max_attempts w s
              = (inl (RuntimeError (label ++ ": exceeded retries after " ++ str_Z max_attempts
                                    ++ " attempts")), s')
     /\ length (sleeps (st_trace s')) = (length (sleeps (st_trace s)) + Z.to_nat max_attempts)%nat).
Proof.
  split.
  - intros Hpos e Hr He. unfold run_agent_with_backoff.
    destruct (Z.to_nat max_attempts) as [|f] eqn:Ef; [lia|].
    simpl backoff_loop. unfold catch. rewrite runner_run_eq, He.
    destruct e as [m|[c|] m|m|m|m|cmd t|m|m]; try discriminate Hr; cbv beta iota;
      try (simpl in Hr; apply Z.leb_gt in Hr; destruct (Z.ltb_spec c 500); [|lia]);
      (eexists; split; [reflexivity|]; simpl; rewrite sleeps_app, actors_app, app_nil_r;
       split; reflexivity).
  - intros Hfail. apply backoff_loop_exhausted. exact Hfail.
Qed.

Lemma run_agent_with_backoff_gives_up_witness :
  (exists s', run_agent_with_backoff "plan" Planner "p" 20 8
                (mkWorld proc_ok (fun _ _ _ _ => inl (APIError (Some 400%Z) "Bad request"))
                         (fun _ => 0%Z) p_parts "x") s_init
              = (inl (APIError (Some 400%Z) "Bad request"), s')
     /\ sleeps (st_trace s') = sleeps (st_trace s_init)
     /\ actors (st_trace s') = (actors (st_trace s_init) ++ [Planner])%list)
  /\ (exists s', run_agent_with_backoff "plan" Planner "p" 20 2
                   (mkWorld proc_ok (fun _ _ _ _ => inl (RateLimitError "429"))
                            (fun _ => 0%Z) p_parts "x") s_init
                 = (inl (RuntimeError ("plan" ++ ": exceeded retries after " ++ str_Z 2
                                       ++ " attempts")), s')
        /\ length (sleeps (st_trace s')) = (length (sleeps (st_trace s_init)) + Z.to_nat 2)%nat).
Proof.
  split.
  - apply (proj1 (run_agent_with_backoff_gives_up "plan" Planner "p" 20 8
                    (mkWorld proc_ok (fun _ _ _ _ => inl (APIError (Some 400%Z) "Bad request"))
                             (fun _ => 0%Z) p_parts "x") s_init)); [lia|reflexivity|reflexivity].
  - apply (proj2 (run_agent_with_backoff_gives_up "plan" Planner "p" 20 2
                    (mkWorld proc_ok (fun _ _ _ _ => inl (RateLimitError "429"))
                             (fun _ => 0%Z) p_parts "x") s_init)).
    intros i Hi. exists (RateLimitError "429"). split; reflexivity.
Defined.

(** C6 counterexample: an API error without a status code (a connection
    error) is neither a rate limit nor a status >= 500, yet it is not
    propagated: the wrapper sleeps once and returns the second attempt's
    result. *)
Lemma connection_error_is_retried :
  let '(r, s) := run_agent_with_backoff "repo_map" RepoMapper repo_map_prompt REPO_MAP_MAX_TURNS 8
                                        world_connection_error s_init in
  (r, length (sleeps (st_trace s)), actors (st_trace s))
  = (inr (mkOutput "{}"), 1%nat, [RepoMapper; RepoMapper]).
Proof. vm_compute; reflexivity. Qed.

(* ------------------------------------------------------------------ *)
(** ** C7: paths are confined to the repository *)

Lemma rpath_eqb_eq a b : rpath_eqb a b = true <-> a = b.
Proof.
  revert b; induction a as [|x a IH]; intros [|y b]; simpl; try (split; congruence).
  rewrite andb_true_iff, String.eqb_eq, IH. split; [intros [-> ->]; reflexivity|].
  intros H; inversion H; split; reflexivity.
Qed.

Lemma in_parents r c : existsb (rpath_eqb r) (parents c) = true <->
  exists k, (k < length c)%nat /\ r = firstn k c.
Proof.
  unfold parents. rewrite existsb_exists. split.
  - intros [x [Hx Heq]]. apply rpath_eqb_eq in Heq. subst x.
    apply in_map_iff in Hx. destruct Hx as [k [Hk Hin]].
    rewrite <- in_rev, in_seq in Hin. exists k. split; [lia|symmetry; exact Hk].
  - intros [k [Hk ->]]. exists (firstn k c). split; [|apply rpath_eqb_eq; reflexivity].
    apply in_map_iff. exists k. split; [reflexivity|]. rewrite <- in_rev. apply in_seq. lia.
Qed.

Lemma is_prefix_firstn r c : is_prefix r c = true <->
  exists k, (k <= length c)%nat /\ r = firstn k c.
Proof.
  revert c; induction r as [|x r IH]; intros [|y c]; simpl.
  - split; [intros _; exists 0%nat; split; [lia|reflexivity]|reflexivity].
  - split; [intros _; exists 0%nat; split; [lia|reflexivity]|reflexivity].
  - split; [discriminate|]. intros [k [Hk Heq]]. destruct k; discriminate.
  - rewrite andb_true_iff, String.eqb_eq, IH. split.
    + intros [-> [k [Hk ->]]]. exists (S k). split; [lia|reflexivity].
    + intros [k [Hk Heq]]. destruct k as [|k]; [discriminate|].
      simpl in Heq. inversion Heq. split; [reflexivity|]. exists k. split; [lia|reflexivity].
Qed.

(** The test of [abs_path]: [repo_root not in candidate.parents and
    candidate != repo_root] holds exactly when [candidate] is neither the
    root nor below it. *)
Lemma escape_test_iff r c :
  negb (existsb (rpath_eqb r) (parents c)) && negb (rpath_eqb c r) = negb (is_prefix r c).
Proof.
  destruct (is_prefix r c) eqn:Hp; simpl.
  - apply is_prefix_firstn in Hp. destruct Hp as [k [Hk ->]].
    destruct (Nat.eq_dec k (length c)) as [->|Hne].
    + rewrite firstn_all. assert (rpath_eqb c c = true) as -> by (apply rpath_eqb_eq; reflexivity).
      apply andb_false_r.
    + assert (existsb (rpath_eqb (firstn k c)) (parents c) = true) as ->
        by (apply in_parents; exists k; split; [lia|reflexivity]).
      reflexivity.
  - destruct (existsb (rpath_eqb r) (parents c)) eqn:E.
    + apply in_parents in E. destruct E as [k [Hk ->]].
      assert (is_prefix (firstn k c) c = true) by (apply is_prefix_firstn; exists k; split; [lia|reflexivity]).
      congruence.
    + destruct (rpath_eqb c r) eqn:E2; [|reflexivity].
      apply rpath_eqb_eq in E2. subst r.
      assert (is_prefix c c = true)
        by (apply is_prefix_firstn; exists (length c); split; [lia|symmetry; apply firstn_all]).
      congruence.
Qed.

(** C7 (confirmed).  With [root] the resolved repository directory and
    [c] the resolution of [repo_dir / p]: when [c] is [root] or a descendant
    of it, [abs_path(p)] returns [c]; otherwise it raises [ValueError], and
    [write_file] and [read_file] on [p] raise it too before any file system
    access: the trace, the files and the directories are untouched.  Path
    resolution itself is the world's [w_resolve]. *)
Theorem abs_path_confined ctx p w s :
  let c := w_resolve w (path_div (repo_dir ctx) p) in
  let root := w_resolve w (repo_dir ctx) in
  (is_prefix root c = true -> abs_path ctx p w s = (inr c, s))
  /\ (is_prefix root c = false ->
      abs_path ctx p w s = (inl (ValueError ("Path escapes repo: " ++ p)), s)
      /\ (forall content create_dirs,
            write_file ctx p content create_dirs w s
            = (inl (ValueError ("Path escapes repo: " ++ p)), s))
      /\ (forall start_line end_line,
            read_file ctx p start_line end_line w s
            = (inl (ValueError ("Path escapes repo: " ++ p)), s))).
Proof.
  intros c root.
  assert (Habs : abs_path ctx p w s =
                 if is_prefix root c then (inr c, s)
                 else (inl (ValueError ("Path escapes repo: " ++ p)), s)).
  { unfold abs_path, bind, ask. simpl. fold c root.
    rewrite escape_test_iff. destruct (is_prefix root c); reflexivity. }
  split.
  - intros H. rewrite Habs, H. reflexivity.
  - intros H. rewrite H in Habs. split; [exact Habs|]. split.
    + intros content cd. unfold write_file, bind at 1. rewrite Habs. reflexivity.
    + intros a b. unfold read_file, bind at 1. rewrite Habs. reflexivity.
Qed.

Lemma abs_path_confined_witness :
  is_prefix (w_resolve world_resolve_links (repo_dir ctx_repo))
            (w_resolve world_resolve_links (path_div (repo_dir ctx_repo) "src/a.py")) = true
  /\ abs_path ctx_repo "src/a.py" world_resolve_links s_init
     = (inr ["home"; "u"; "repo"; "src"; "a.py"], s_init)
  /\ is_prefix (w_resolve world_resolve_links (repo_dir ctx_repo))
               (w_resolve world_resolve_links (path_div (repo_dir ctx_repo) "../other/x")) = false
  /\ write_file ctx_repo "../other/x" "data" true world_resolve_links s_init
     = (inl (ValueError ("Path escapes repo: " ++ "../other/x")), s_init).
Proof.
  split; [reflexivity|]. split.
  - exact (proj1 (abs_path_confined ctx_repo "src/a.py" world_resolve_links s_init) eq_refl).
  - split; [reflexivity|].
    exact (proj1 (proj2 (proj2 (abs_path_confined ctx_repo "../other/x" world_resolve_links s_init)
                                 eq_refl)) "data" true).
Defined.

(* ------------------------------------------------------------------ *)
(** ** C10: loading a configuration *)

Lemma task_name_eqb_eq a b : task_name_eqb a b = true <-> a = b.
Proof. destruct a, b; simpl; split; intros H; try reflexivity; discriminate. Qed.

Lemma task_name_of_string_some k t :
  task_name_of_string k = Some t -> task_name_str t = k.
Proof.
  unfold task_name_of_string. intros H. apply find_some in H.
  destruct H as [_ H]. apply String.eqb_eq. exact H.
Qed.

Lemma tasks_get_set t k v ts :
  tasks_get t (tasks_set k v ts) = if task_name_eqb k t then Some v else tasks_get t ts.
Proof.
  induction ts as [|[k' v'] r IH]; simpl.
  - reflexivity.
  - destruct (task_name_eqb k' k) eqn:E.
    + apply task_name_eqb_eq in E. subst k'. simpl. destruct (task_name_eqb k t); reflexivity.
    + simpl. rewrite IH. destruct (task_name_eqb k' t) eqn:E2, (task_name_eqb k t) eqn:E3;
        try reflexivity.
      apply task_name_eqb_eq in E2, E3. subst. rewrite (proj2 (task_name_eqb_eq t t) eq_refl) in E.
      discriminate.
Qed.

Lemma in_tasks_set t sp k v ts :
  In (t, sp) (tasks_set k v ts) -> In (t, sp) ts \/ (t = k /\ sp = v).
Proof.
  induction ts as [|[k' v'] r IH]; simpl.
  - intros [H|[]]. inversion H; subst. right; split; reflexivity.
  - destruct (task_name_eqb k' k) eqn:E; simpl.
    + apply task_name_eqb_eq in E. subst k'.
      intros [H|H]; [inversion H; subst; right; split; reflexivity|left; right; exact H].
    + intros [H|H]; [left; left; exact H|].
      destruct (IH H) as [H'|H']; [left; right; exact H'|right; exact H'].
Qed.

Lemma load_tasks_sound raw : forall acc t sp,
  In (t, sp) (load_tasks raw acc) ->
  In (t, sp) acc \/ exists v, In (task_name_str t, v) raw /\ str_list v = Some (argv sp)
                              /\ spec_cwd sp = ".".
Proof.
  induction raw as [|[k v] r IH]; intros acc t sp H; simpl in H.
  - left; exact H.
  - destruct (task_name_of_string k) as [t0|] eqn:Ek.
    + destruct (str_list v) as [xs|] eqn:Ev.
      * destruct (IH _ _ _ H) as [H1|(v' & Hin & Hs & Hc)].
        -- destruct (in_tasks_set _ _ _ _ _ H1) as [H2|[-> ->]].
           ++ left; exact H2.
           ++ right. exists v. apply task_name_of_string_some in Ek. subst k.
              split; [left; reflexivity|]. split; [exact Ev|reflexivity].
        -- right. exists v'. split; [right; exact Hin|split; assumption].
      * destruct (IH _ _ _ H) as [H1|(v' & Hin & Hs & Hc)]; [left; exact H1|].
        right. exists v'. split; [right; exact Hin|split; assumption].
    + destruct (IH _ _ _ H) as [H1|(v' & Hin & Hs & Hc)]; [left; exact H1|].
      right. exists v'. split; [right; exact Hin|split; assumption].
Qed.

Lemma load_tasks_keeps raw : forall acc t,
  tasks_get t acc <> None -> tasks_get t (load_tasks raw acc) <> None.
Proof.
  induction raw as [|[k v] r IH]; intros acc t H; simpl; [exact H|].
  destruct (task_name_of_string k); [destruct (str_list v)|]; apply IH; try exact H.
  rewrite tasks_get_set. destruct (task_name_eqb _ t); [discriminate|exact H].
Qed.

Lemma load_tasks_complete raw : forall acc k v xs t,
  In (k, v) raw -> str_list v = Some xs -> task_name_of_string k = Some t ->
  tasks_get t (load_tasks raw acc) <> None.
Proof.
  induction raw as [|[k' v'] r IH]; intros acc k v xs t Hin Hv Hk; [destruct Hin|].
  destruct Hin as [Heq|Hin].
  - inversion Heq; subst k' v'. simpl. rewrite Hk, Hv.
    apply load_tasks_keeps. rewrite tasks_get_set, (proj2 (task_name_eqb_eq t t) eq_refl).
    discriminate.
  - simpl. destruct (task_name_of_string k'); [destruct (str_list v')|]; eapply IH; eauto.
Qed.

(** C10 (corrected).  For a JSON object whose "tasks" member is absent or
    an object, [OrchestraConfig.load] returns a configuration each of whose
    entries comes from a member of "tasks" named by one of the six task
    names and holding a list of strings (that list, with cwd "."), and
    which has an entry for every such member; the other members are dropped
    without an error.  When "tasks" is present but not an object (null, a
    list, a string, a number, a boolean), [load] raises [AttributeError]. *)
Theorem config_load_filters kvs :
  match dict_get "tasks" kvs with
  | None | Some (PDict _) =>
      let raw := match dict_get "tasks" kvs with Some (PDict raw) => raw | _ => [] end in
      exists cfg, config_load (PDict kvs) = inr cfg
      /\ (forall t spec, In (t, spec) (tasks cfg) ->
            exists v, In (task_name_str t, v) raw /\ str_list v = Some (argv spec)
                      /\ spec_cwd spec = ".")
      /\ (forall k v xs t, In (k, v) raw -> str_list v = Some xs ->
            task_name_of_string k = Some t -> tasks_get t (tasks cfg) <> None)
  | Some _ => exists msg, config_load (PDict kvs) = inl (AttributeError msg)
  end.
Proof.
  unfold config_load.
  destruct (dict_get "tasks" kvs) as [v|] eqn:E.
  - destruct v; try (eexists; reflexivity).
    eexists. split; [reflexivity|]. simpl. split.
    + intros t spec H. destruct (load_tasks_sound kvs0 [] t spec H) as [[]|H']. exact H'.
    + intros k v xs t Hin Hv Hk. eapply load_tasks_complete; eauto.
  - eexists. split; [reflexivity|]. simpl. split.
    + intros t spec H. destruct (load_tasks_sound [] [] t spec H) as [[]|(v & [] & _)].
    + intros k v xs t [].
Qed.

(** C10 counterexample: ["tasks": null] makes [load] raise. *)
Lemma config_load_tasks_null_raises :
  config_load (PDict [("tasks", PNone)])
  = inl (AttributeError (quote ++ "NoneType" ++ quote ++ " object has no attribute "
                         ++ quote ++ "items" ++ quote)).
Proof. reflexivity. Qed.

Lemma config_load_example :
  config_load (PDict [("tasks", PDict [("lint", PList [PStr "ruff"; PStr "check"]);
                                       ("deploy", PList [PStr "make"]);
                                       ("test", PStr "pytest");
                                       ("build", PList [PStr "make"; PInt 1])])])
  = inr (mkConfig [(TLint, mkTaskSpec ["ruff"; "check"] ".")]).
Proof. reflexivity. Qed.

(* ------------------------------------------------------------------ *)
(** ** C8: the run always reaches review and judge *)

Lemma bind_inr {A B} (m : M A) (f : A -> M B) w s a s1 :
  m w s = (inr a, s1) -> bind m f w s = f a w s1.
Proof. intros H. unfold bind. rewrite H. reflexivity. Qed.

Lemma quiet_ret {A} (a : A) : quiet (ret a).
Proof. intros w s. exists a, s, []. rewrite app_nil_r. repeat split. Qed.

Lemma quiet_bind {A B} (m : M A) (f : A -> M B) :
  quiet m -> (forall a, quiet (f a)) -> quiet (bind m f).
Proof.
  intros Hm Hf w s. destruct (Hm w s) as (a & s1 & e1 & H1 & T1 & A1).
  destruct (Hf a w s1) as (b & s2 & e2 & H2 & T2 & A2).
  exists b, s2, (e1 ++ e2)%list. rewrite (bind_inr _ _ _ _ _ _ H1).
  rewrite T2, T1, app_assoc, actors_app, A1, A2. repeat split; assumption.
Qed.

Lemma quiet_orch_run argv0 cwd t : quiet (orch_run argv0 cwd t).
Proof.
  intros w s. rewrite orch_run_eq. eexists; eexists; exists [EvProc argv0 cwd t].
  repeat split.
Qed.

Lemma quiet_ctx_set k v : quiet (ctx_set k v).
Proof. intros w s. exists tt; eexists; exists []. rewrite app_nil_r. repeat split. Qed.

Ltac quiet_tac :=
  repeat first
    [ apply quiet_ret
    | apply quiet_ctx_set
    | apply quiet_orch_run
    | apply quiet_bind; [| intros [? ?] || intros ?]
    | match goal with |- quiet (if ?b then _ else _) => destruct b end ].

Lemma quiet_git_status repo : quiet (orch_git_status repo).
Proof. unfold orch_git_status. quiet_tac. Qed.

Lemma quiet_git_diff repo : quiet (orch_git_diff repo).
Proof. unfold orch_git_diff. quiet_tac. Qed.

Lemma quiet_git_create_branch repo name : quiet (orch_git_create_branch repo name).
Proof. unfold orch_git_create_branch. quiet_tac. Qed.

Lemma quiet_git_commit_all repo msg : quiet (orch_git_commit_all repo msg).
Proof. unfold orch_git_commit_all. quiet_tac. Qed.

Lemma quiet_run_tasks_loop ctx : forall ts st0, quiet (run_tasks_loop ctx ts st0).
Proof.
  induction ts as [|t rest IH]; intros st0; simpl; [apply quiet_ret|].
  destruct (tasks_get t (tasks (config ctx))); [|apply IH].
  apply quiet_bind; [apply quiet_orch_run|]. intros [code out].
  destruct (negb _); [apply quiet_ret|apply IH].
Qed.

Lemma quiet_run_tasks ctx : quiet (run_tasks ctx).
Proof. apply quiet_run_tasks_loop. Qed.

(** C8 (code_bug).  Before any actor call, [run_orchestra] loads the
    configuration (line 151) outside any [try]: a [.relialimo_orchestra.json]
    holding [{"tasks": null}] makes [raw_tasks.items()] raise
    [AttributeError], so the run raises with no process launched, no actor
    called, and no result. *)
Theorem run_orchestra_raises_on_null_tasks goal sid maxit cb cm w s :
  run_orchestra_entry fs_null_tasks (path_of_string "/repo") goal None sid maxit cb cm w s
  = (inl (AttributeError "'NoneType' object has no attribute 'items'"), s).
Proof. reflexivity. Qed.

(* ------------------------------------------------------------------ *)
(** * Further properties of the code *)

(* ------------------------------------------------------------------ *)
(** ** Branch names ([_branch_name_from_goal], [_git_create_branch]) *)

Lemma list_ascii_of_string_app a b :
  list_ascii_of_string (a ++ b) = (list_ascii_of_string a ++ list_ascii_of_string b)%list.
Proof. induction a as [|c a IH]; simpl; [reflexivity|]. rewrite IH. reflexivity. Qed.

Lemma all_chars_app p a b : all_chars p (a ++ b) = all_chars p a && all_chars p b.
Proof. unfold all_chars. rewrite list_ascii_of_string_app, forallb_app. reflexivity. Qed.

Lemma all_chars_cons p c t : all_chars p (String c t) = p c && all_chars p t.
Proof. reflexivity. Qed.

Lemma all_chars_rev p s : all_chars p (rev_string s) = all_chars p s.
Proof.
  unfold all_chars, rev_string. rewrite list_ascii_of_string_of_list_ascii.
  apply Bool.eq_iff_eq_true. rewrite !forallb_forall.
  split; intros H x Hx; apply H; [apply -> in_rev | apply <- in_rev]; exact Hx.
Qed.

Lemma all_chars_impl (p q : ascii -> bool) s :
  (forall c, p c = true -> q c = true) -> all_chars p s = true -> all_chars q s = true.
Proof.
  intros Hpq. unfold all_chars. rewrite !forallb_forall. intros H x Hx. apply Hpq, H, Hx.
Qed.

Lemma slug_chars_ok s : all_chars slug_char (slug_chars s) = true.
Proof.
  assert (Hc : forall c, slug_char (if is_alnum c then lower c else "-"%char) = true)
    by (intros [[] [] [] [] [] [] [] []]; reflexivity).
  induction s as [|c t IH]; [reflexivity|]. simpl slug_chars.
  rewrite all_chars_cons, Hc, IH. reflexivity.
Qed.

Lemma lstrip_dash_cons c t :
  lstrip_dash (String c t) = if Ascii.eqb c "-" then lstrip_dash t else String c t.
Proof. destruct c as [[] [] [] [] [] [] [] []]; reflexivity. Qed.

Lemma all_chars_lstrip_dash p s : all_chars p s = true -> all_chars p (lstrip_dash s) = true.
Proof.
  induction s as [|c t IH]; intros H; [exact H|]. rewrite lstrip_dash_cons.
  destruct (Ascii.eqb c "-"); [|exact H].
  apply IH. rewrite all_chars_cons in H. apply andb_prop in H. apply H.
Qed.

Lemma all_chars_strip_dash p s : all_chars p s = true -> all_chars p (strip_dash s) = true.
Proof.
  intros H. unfold strip_dash. rewrite all_chars_rev.
  apply all_chars_lstrip_dash. rewrite all_chars_rev. apply all_chars_lstrip_dash, H.
Qed.

Lemma split_dash_aux_cons cur c t :
  split_dash_aux cur (String c t)
  = if Ascii.eqb c "-" then string_of_list_ascii (rev cur) :: split_dash_aux [] t
    else split_dash_aux (c :: cur) t.
Proof. destruct c as [[] [] [] [] [] [] [] []]; reflexivity. Qed.

(** The pieces of [s.split("-")] have no [-], and only characters of [s]. *)
Lemma split_dash_parts (p : ascii -> bool) s : forall cur,
  forallb (fun c => p c && negb (Ascii.eqb c "-")) cur = true ->
  all_chars p s = true ->
  Forall (fun x => all_chars (fun c => p c && negb (Ascii.eqb c "-")) x = true)
         (split_dash_aux cur s).
Proof.
  induction s as [|c t IH]; intros cur Hcur Hs.
  - simpl. constructor; [|constructor]. unfold all_chars.
    rewrite list_ascii_of_string_of_list_ascii, forallb_forall.
    rewrite forallb_forall in Hcur. intros x Hx. apply Hcur. apply <- in_rev. exact Hx.
  - rewrite split_dash_aux_cons. rewrite all_chars_cons in Hs. apply andb_prop in Hs as [Hc Ht].
    destruct (Ascii.eqb c "-") eqn:Ed.
    + constructor; [|apply IH; [reflexivity|exact Ht]].
      unfold all_chars. rewrite list_ascii_of_string_of_list_ascii, forallb_forall.
      rewrite forallb_forall in Hcur. intros x Hx. apply Hcur. apply <- in_rev. exact Hx.
    + apply IH; [|exact Ht]. simpl. rewrite Hc, Ed, Hcur. reflexivity.
Qed.

Lemma all_chars_join p sep xs :
  all_chars p sep = true -> Forall (fun x => all_chars p x = true) xs ->
  all_chars p (join sep xs) = true.
Proof.
  intros Hsep Hxs. induction Hxs as [|x r Hx Hr IH]; [reflexivity|].
  destruct r as [|y r']; [exact Hx|].
  change (join sep (x :: y :: r')) with (x ++ sep ++ join sep (y :: r')).
  rewrite !all_chars_app, Hx, Hsep, IH. reflexivity.
Qed.

Lemma all_chars_substring p s : forall m n,
  all_chars p s = true -> all_chars p (String.substring m n s) = true.
Proof.
  induction s as [|c t IH]; intros m n H.
  - destruct m, n; reflexivity.
  - rewrite all_chars_cons in H. apply andb_prop in H as [Hc Ht].
    destruct m as [|m]; [destruct n as [|n]|]; simpl; try reflexivity.
    + rewrite all_chars_cons, Hc. apply IH, Ht.
    + apply IH, Ht.
Qed.

Lemma length_substring0 s : forall n, (String.length (String.substring 0 n s) <= n)%nat.
Proof.
  induction s as [|c t IH]; intros n; destruct n as [|n]; simpl; try lia.
  specialize (IH n). lia.
Qed.

(** [needle in hay] is false when the first character of [needle] is not
    among the characters of [hay]. *)
Lemma contains_first_char_absent (p : ascii -> bool) c n hay :
  all_chars p hay = true -> p c = false -> contains (String c n) hay = false.
Proof.
  induction hay as [|d h IH]; intros Hh Hc; [reflexivity|].
  rewrite all_chars_cons in Hh. apply andb_prop in Hh as [Hd Hh].
  simpl. rewrite IH by assumption.
  destruct (ascii_dec c d) as [<-|]; [congruence|]. reflexivity.
Qed.

Lemma append_empty_r s : s ++ "" = s.
Proof. induction s as [|c t IH]; simpl; [reflexivity|]. rewrite IH. reflexivity. Qed.

Lemma join_cons sep y r :
  join sep (y :: r) = y ++ match r with [] => "" | _ => sep ++ join sep r end.
Proof. destruct r; simpl; [rewrite append_empty_r|]; reflexivity. Qed.

Lemma branch_name_slug ts goal :
  exists slug, branch_name_from_goal ts goal = "ai/" ++ ts ++ "_" ++ slug
    /\ slug <> "" /\ (String.length slug <= 40)%nat /\ all_chars slug_char slug = true
    /\ startswith slug "-" = false.
Proof.
  unfold branch_name_from_goal.
  set (q := fun c => slug_char c && negb (Ascii.eqb c "-")).
  set (parts := filter (fun p => negb (String.eqb p "")) (split_dash_aux [] (strip_dash (slug_chars goal)))).
  assert (Hparts : forall y, In y parts -> all_chars q y = true /\ y <> "").
  { intros y Hy. unfold parts in Hy. apply filter_In in Hy as [Hy Hne].
    pose proof (split_dash_parts slug_char (strip_dash (slug_chars goal)) [] eq_refl
                  (all_chars_strip_dash _ _ (slug_chars_ok goal))) as HF.
    rewrite Forall_forall in HF. split; [apply HF, Hy|].
    intros ->. discriminate Hne. }
  set (x := head_chars 40 (join "-" parts)).
  exists (if String.eqb x "" then "change" else x). split; [reflexivity|].
  destruct (String.eqb_spec x "") as [Hx|Hx].
  - split; [discriminate|]. split; [simpl; lia|]. split; reflexivity.
  - split; [exact Hx|]. split; [apply length_substring0|]. split.
    + apply all_chars_substring, all_chars_join; [reflexivity|].
      apply Forall_forall. intros y Hy. apply (all_chars_impl q); [|apply Hparts, Hy].
      intros c Hc. unfold q in Hc. apply andb_prop in Hc. apply Hc.
    + destruct parts as [|y r] eqn:Ep; [exfalso; apply Hx; reflexivity|].
      destruct (Hparts y (or_introl eq_refl)) as [Hy Hne].
      destruct y as [|c y']; [congruence|].
      rewrite all_chars_cons in Hy. apply andb_prop in Hy as [Hc _].
      unfold q in Hc. apply andb_prop in Hc as [_ Hc].
      unfold x, head_chars, startswith. rewrite join_cons. cbn [append String.substring String.prefix].
      destruct (ascii_dec "-" c) as [<-|]; [discriminate Hc|]. reflexivity.
Qed.

Lemma branch_name_chars ts goal :
  all_chars ts_char ts = true ->
  all_chars (fun c => slug_char c || Ascii.eqb c "/" || Ascii.eqb c "_")
            (branch_name_from_goal ts goal) = true.
Proof.
  intros Hts. destruct (branch_name_slug ts goal) as (slug & -> & _ & _ & Hs & _).
  rewrite !all_chars_app. rewrite andb_true_iff, andb_true_iff, andb_true_iff. split; [reflexivity|].
  split; [|split; [reflexivity|]].
  - apply (all_chars_impl ts_char); [|exact Hts].
    intros c Hc. unfold ts_char in Hc. unfold slug_char. apply orb_true_iff in Hc.
    destruct Hc as [Hc|Hc]; rewrite Hc; rewrite ?orb_true_r; reflexivity.
  - apply (all_chars_impl slug_char); [|exact Hs].
    intros c Hc. rewrite Hc. reflexivity.
Qed.

(** X2.  A generated branch name is [ai/<ts>_<slug>], where the slug is not
    empty, has at most 40 characters, and does not start with [-]; for a
    goal written in 7-bit ASCII, the slug has only lower-case letters,
    digits and [-]. *)
Theorem branch_name_from_goal_slug ts goal :
  exists slug, branch_name_from_goal ts goal = "ai/" ++ ts ++ "_" ++ slug
    /\ slug <> "" /\ (String.length slug <= 40)%nat /\ startswith slug "-" = false
    /\ (all_chars is_ascii7 goal = true -> all_chars slug_char slug = true).
Proof.
  destruct (branch_name_slug ts goal) as (slug & E & Hne & Hlen & Hc & Hd).
  exists slug. split; [exact E|]. split; [exact Hne|]. split; [exact Hlen|].
  split; [exact Hd|]. intros _. exact Hc.
Qed.

(** X1.  For every goal, and a timestamp made of digits and [-] (what
    [strftime("%Y%m%d-%H%M%S")] gives), the generated branch name passes the
    name check of [_git_create_branch]: the helper always runs
    [git checkout -b <name>], and nothing else. *)
Theorem generated_branch_name_reaches_git repo ts goal w s :
  all_chars ts_char ts = true ->
  branch_name_rejected (branch_name_from_goal ts goal) = false
  /\ exists out s', orch_git_create_branch repo (branch_name_from_goal ts goal) w s = (inr out, s')
     /\ proc_argvs (st_trace s')
        = (proc_argvs (st_trace s) ++ [["git"; "checkout"; "-b"; branch_name_from_goal ts goal]])%list.
Proof.
  intros Hts.
  assert (Hrej : branch_name_rejected (branch_name_from_goal ts goal) = false).
  { pose proof (branch_name_chars ts goal Hts) as Hn.
    unfold branch_name_rejected, bad_branch_tokens, bslash, char. cbn [existsb].
    repeat rewrite (contains_first_char_absent _ _ _ _ Hn) by reflexivity. reflexivity. }
  split; [exact Hrej|].
  unfold orch_git_create_branch. rewrite Hrej.
  rewrite (bind_inr _ _ _ _ _ _ (orch_run_eq _ _ _ w s)).
  destruct (run_result _ _ _) as [code out].
  destruct (negb (code =? 0)%Z); (eexists; eexists; split; [reflexivity|]);
    simpl; unfold proc_argvs; rewrite flat_map_app; reflexivity.
Qed.

Lemma generated_branch_name_reaches_git_witness :
  all_chars ts_char "20250101-000000" = true
  /\ branch_name_from_goal "20250101-000000" "Fix: quote flow ~ v2.. (urgent)"
     = "ai/20250101-000000_fix-quote-flow-v2-urgent"
  /\ (branch_name_rejected (branch_name_from_goal "20250101-000000" "Fix: quote flow ~ v2.. (urgent)")
      = false
      /\ exists out s',
        orch_git_create_branch (path_of_string "/repo")
          (branch_name_from_goal "20250101-000000" "Fix: quote flow ~ v2.. (urgent)")
          world_test_fails s_init = (inr out, s')
        /\ proc_argvs (st_trace s')
           = (proc_argvs (st_trace s_init)
              ++ [["git"; "checkout"; "-b";
                   branch_name_from_goal "20250101-000000" "Fix: quote flow ~ v2.. (urgent)"]])%list).
Proof.
  split; [reflexivity|]. split; [vm_compute; reflexivity|].
  apply generated_branch_name_reaches_git. reflexivity.
Defined.

(* ------------------------------------------------------------------ *)
(** ** Source-control helpers *)

Lemma string_length_app a b : String.length (a ++ b) = (String.length a + String.length b)%nat.
Proof. induction a as [|c a IH]; simpl; [reflexivity|]. rewrite IH. reflexivity. Qed.

Lemma orch_git_diff_defaults repo w s :
  orch_git_diff repo w s = orch_git_diff_args repo false 8000 w s.
Proof.
  unfold orch_git_diff, orch_git_diff_args. cbv beta zeta iota.
  rewrite !(bind_inr _ _ _ _ _ _ (orch_run_eq _ _ _ w s)).
  destruct (run_result _ _ _) as [code out]. destruct (negb _); [reflexivity|].
  replace (8000 <? String.length out)%nat with (8000 <? Z.of_nat (String.length out))%Z.
  - reflexivity.
  - destruct (Nat.ltb_spec 8000 (String.length out)), (Z.ltb_spec 8000 (Z.of_nat (String.length out)));
      first [reflexivity | assert (Z.of_nat 8000 = 8000%Z) by reflexivity; lia].
Qed.

(** X3.  [_git_diff] never returns an empty string.  When [git diff] exits
    with 0 and [max_chars >= 0], the result has at most [max_chars + 16]
    characters (the cut output, a newline and [... (truncated)]), and a
    non-empty output of at most [max_chars] characters is returned whole.
    The controller's call uses [staged=False] and [max_chars=8000]. *)
Theorem orch_git_diff_bounded repo (staged : bool) (max_chars : Z) w s :
  let argv0 := if staged then ["git"; "diff"; "--staged"] else ["git"; "diff"] in
  let '(code, raw) := run_result argv0 60 (w_proc w (st_tick s) argv0 (path_str repo) 60) in
  (exists out s', orch_git_diff_args repo staged max_chars w s = (inr out, s')
     /\ out <> ""
     /\ (code = 0%Z -> (0 <= max_chars)%Z -> (Z.of_nat (String.length out) <= max_chars + 16)%Z)
     /\ (code = 0%Z -> raw <> "" -> (Z.of_nat (String.length raw) <= max_chars)%Z -> out = raw))
  /\ orch_git_diff repo w s = orch_git_diff_args repo false 8000 w s.
Proof.
  intros argv0. destruct (run_result _ _ _) as [code raw] eqn:Hr.
  split; [|apply orch_git_diff_defaults].
  unfold orch_git_diff_args. fold argv0.
  rewrite (bind_inr _ _ _ _ _ _ (orch_run_eq _ _ _ w s)). rewrite Hr.
  destruct (Z.eqb_spec code 0) as [->|Hc]; simpl negb; cbv iota.
  - destruct (Z.ltb_spec max_chars (Z.of_nat (String.length raw))) as [Hlt|Hge].
    + eexists; eexists; split; [reflexivity|]. split.
      { intros H. apply (f_equal String.length) in H. rewrite !string_length_app in H.
        simpl in H. lia. }
      split.
      * intros _ Hm. rewrite !string_length_app. unfold py_slice_to.
        destruct (Z.leb_spec 0 max_chars); [|lia].
        pose proof (length_substring0 raw (Z.to_nat max_chars)). unfold head_chars. simpl. lia.
      * intros _ _ Hle. lia.
    + destruct (String.eqb_spec raw "") as [->|Hne];
        (eexists; eexists; split; [reflexivity|]).
      * split; [discriminate|]. split; [intros; simpl; lia|]. intros _ H; congruence.
      * split; [exact Hne|]. split; [intros; lia|]. reflexivity.
  - eexists; eexists; split; [reflexivity|]. split; [discriminate|].
    split; intros; congruence.
Qed.

Lemma tools_run_exited argv0 cwd t w s rc o e :
  w_proc w (st_tick s) argv0 cwd t = PExited rc o e ->
  tools_run argv0 cwd t w s =
  (inr (rc, combine_output o e),
   mkSt (S (st_tick s)) (st_draws s) (st_trace s ++ [EvProc argv0 cwd t])
        (st_ctx s) (st_files s) (st_dirs s)).
Proof.
  intros He. unfold tools_run, subprocess_run, bind, tick, ask, emit, ret; simpl.
  rewrite He. reflexivity.
Qed.

Section ProcessesExit.

Variable w : World.
(** Every process started in this world runs to its end, and its output
    decodes. *)
Hypothesis exits : forall n a c t, exists rc o e, w_proc w n a c t = PExited rc o e.

Ltac step_both :=
  match goal with
  | |- context [bind (tools_run ?a ?c ?t) ?f w ?s] =>
      let rc := fresh "rc" in let o := fresh "o" in let e := fresh "e" in
      let He := fresh "He" in
      destruct (exits (st_tick s) a c t) as (rc & o & e & He);
      rewrite (bind_inr _ f _ _ _ _ (tools_run_exited a c t w s rc o e He));
      rewrite (bind_inr _ _ _ _ _ _ (orch_run_eq a c t w s)), He;
      cbn [run_result]
  end.

(** X4.  When every process runs to its end with output that decodes
    (valid UTF-8), the agent's git tools
    [git_status], [git_diff] and [git_commit_all] return what the
    controller's helpers return, with the same processes and the same
    state, and [git_create_branch] returns the same text. *)
Theorem tools_git_agree_with_controller ctx staged max_chars message name s :
  tools_git_status ctx w s = orch_git_status (repo_dir ctx) w s
  /\ tools_git_diff ctx staged max_chars w s = orch_git_diff_args (repo_dir ctx) staged max_chars w s
  /\ tools_git_commit_all ctx message w s = orch_git_commit_all (repo_dir ctx) message w s
  /\ fst (tools_git_create_branch ctx name w s) = fst (orch_git_create_branch (repo_dir ctx) name w s).
Proof.
  split; [|split; [|split]].
  - unfold tools_git_status, orch_git_status. step_both. reflexivity.
  - unfold tools_git_diff, orch_git_diff_args. cbv zeta. step_both. reflexivity.
  - unfold tools_git_commit_all, orch_git_commit_all.
    destruct (String.eqb (strip message) ""); [reflexivity|].
    step_both. destruct (negb (rc =? 0)%Z); [reflexivity|].
    step_both. reflexivity.
  - unfold tools_git_create_branch, orch_git_create_branch.
    destruct (branch_name_rejected name); [reflexivity|].
    step_both. destruct (negb (rc =? 0)%Z); reflexivity.
Qed.

End ProcessesExit.

Lemma tools_git_agree_with_controller_witness :
  (forall n a c t, exists rc o e, w_proc world_test_fails n a c t = PExited rc o e)
  /\ (tools_git_status (mkCtx (path_of_string "/repo") config_test_only "s1") world_test_fails s_init
      = orch_git_status (path_of_string "/repo") world_test_fails s_init
      /\ tools_git_diff (mkCtx (path_of_string "/repo") config_test_only "s1") true 10
           world_test_fails s_init
         = orch_git_diff_args (path_of_string "/repo") true 10 world_test_fails s_init
      /\ tools_git_commit_all (mkCtx (path_of_string "/repo") config_test_only "s1") " fix "
           world_test_fails s_init
         = orch_git_commit_all (path_of_string "/repo") " fix " world_test_fails s_init
      /\ fst (tools_git_create_branch (mkCtx (path_of_string "/repo") config_test_only "s1")
                "ai/x" world_test_fails s_init)
         = fst (orch_git_create_branch (path_of_string "/repo") "ai/x" world_test_fails s_init)).
Proof.
  assert (H : forall n a c t, exists rc o e, w_proc world_test_fails n a c t = PExited rc o e).
  { intros n a c t. cbn [w_proc world_test_fails]. unfold proc_test_fails.
    repeat match goal with
           | |- context [match ?x with _ => _ end] => destruct x
           end; do 3 eexists; reflexivity. }
  split; [exact H|]. apply (tools_git_agree_with_controller world_test_fails H).
Defined.


(** X5.  [_git_commit_all] never commits an empty message: a message
    that is blank once stripped returns ["ERROR: empty commit message"] and
    starts no process.  Otherwise it runs [git add -A], and [git commit -m]
    with the stripped message only when the add exited with 0; an add that
    fails returns its output after ["ERROR: git add failed"], and the result
    is ["OK: committed"] exactly when both commands exit with 0. *)
Theorem orch_git_commit_all_steps repo message w s :
  let cwd := path_str repo in
  let add := ["git"; "add"; "-A"] in
  let commit := ["git"; "commit"; "-m"; strip message] in
  let '(c1, o1) := run_result add 60 (w_proc w (st_tick s) add cwd 60) in
  let '(c2, o2) := run_result commit 60 (w_proc w (S (st_tick s)) commit cwd 60) in
  exists out s', orch_git_commit_all repo message w s = (inr out, s')
  /\ (strip message = "" -> out = "ERROR: empty commit message" /\ s' = s)
  /\ (strip message <> "" ->
        proc_argvs (st_trace s') = (proc_argvs (st_trace s) ++ add :: (if (c1 =? 0)%Z then [commit] else []))%list
        /\ ((c1 <> 0)%Z -> out = "ERROR: git add failed" ++ nl ++ o1)
        /\ (out = "OK: committed" <-> c1 = 0%Z /\ c2 = 0%Z)).
Proof.
  cbv zeta.
  destruct (run_result _ 60 (w_proc w (st_tick s) _ _ 60)) as [c1 o1] eqn:E1.
  destruct (run_result _ 60 (w_proc w (S (st_tick s)) _ _ 60)) as [c2 o2] eqn:E2.
  unfold orch_git_commit_all.
  destruct (String.eqb (strip message) "") eqn:Em.
  - apply String.eqb_eq in Em. do 2 eexists. split; [reflexivity|].
    split; [auto|]. intros H; contradiction.
  - apply String.eqb_neq in Em.
    rewrite (bind_inr _ _ _ _ _ _ (orch_run_eq _ _ _ w s)), E1.
    destruct (Z.eqb_spec c1 0) as [Hc1|Hc1]; cbn [negb].
    + rewrite (bind_inr _ _ _ _ _ _ (orch_run_eq _ _ _ w _)). cbn [st_tick]. rewrite E2.
      destruct (Z.eqb_spec c2 0) as [Hc2|Hc2]; cbn [negb]; unfold ret;
        do 2 eexists; (split; [reflexivity|]); (split; [intros H; contradiction|]);
        intros _; (split; [|split]);
        try (unfold proc_argvs; cbn [st_trace]; rewrite !flat_map_app; cbn [flat_map app]; rewrite <- ?app_assoc; reflexivity);
        try (intros H; contradiction).
      * split; auto.
      * split; [discriminate|]. intros [_ H]; contradiction.
    + do 2 eexists. split; [reflexivity|]. split; [intros H; contradiction|].
      intros _. split; [|split].
      * unfold proc_argvs. cbn [st_trace]. rewrite !flat_map_app. reflexivity.
      * reflexivity.
      * split; [discriminate|]. intros [H _]; contradiction.
Qed.


Lemma tasks_get_str_name t ts : tasks_get_str (task_name_str t) ts = tasks_get t ts.
Proof.
  unfold tasks_get_str. induction ts as [|[k v] r IH]; [reflexivity|].
  cbn [find tasks_get fst snd]. unfold task_name_eqb.
  destruct (String.eqb (task_name_str k) (task_name_str t)); [reflexivity|exact IH].
Qed.

Lemma tasks_get_str_other k ts :
  (forall t, k <> task_name_str t) -> tasks_get_str k ts = None.
Proof.
  intros Hk. unfold tasks_get_str. induction ts as [|[t v] r IH]; [reflexivity|].
  cbn [find fst]. destruct (String.eqb_spec (task_name_str t) k) as [E|E].
  - exfalso. exact (Hk t (eq_sym E)).
  - exact IH.
Qed.

(** X6.  [tools_repo.run_task] with a name that is no task name, or the
    name of a task the configuration leaves out, returns ["SKIP: task not
    configured: <name>"] and starts no process.  For a configured task it
    starts exactly the task's command, in the task's directory under the
    repository, with the given timeout; a command that exits returns
    ["OK"] or ["FAIL(<code>)"], the command line and the last 4000
    characters of its output; a launch error, a timeout, or output that is
    not valid in the locale's encoding (a [UnicodeDecodeError]) is
    raised. *)
Theorem tools_run_task_outcome ctx k timeout w s :
  ((forall t, k <> task_name_str t) ->
   tools_run_task ctx k timeout w s = (inr ("SKIP: task not configured: " ++ k), s))
  /\ forall t, k = task_name_str t ->
     match tasks_get t (tasks (config ctx)) with
     | None => tools_run_task ctx k timeout w s = (inr ("SKIP: task not configured: " ++ k), s)
     | Some spec =>
         let argv0 := argv spec in
         let cwd := path_str (path_div (repo_dir ctx) (spec_cwd spec)) in
         let '(res, s') := tools_run_task ctx k timeout w s in
         proc_argvs (st_trace s') = (proc_argvs (st_trace s) ++ [argv0])%list
         /\ match w_proc w (st_tick s) argv0 cwd timeout with
            | PExited rc o e =>
                res = inr ((if (rc =? 0)%Z then "OK" else "FAIL(" ++ str_Z rc ++ ")")
                           ++ ": " ++ join " " argv0 ++ nl ++ tail_chars 4000 (combine_output o e))
            | PLaunchError e => res = inl e
            | PTimedOut => res = inl (TimeoutExpired argv0 timeout)
            | PExitedUndecodable _ _ _ reason => res = inl (OtherError reason)
            end
     end.
Proof.
  split.
  - intros Hk. unfold tools_run_task. rewrite (tasks_get_str_other k _ Hk). reflexivity.
  - intros t ->. unfold tools_run_task. rewrite tasks_get_str_name.
    destruct (tasks_get t (tasks (config ctx))) as [spec|]; [|reflexivity].
    cbv zeta. unfold tools_run, subprocess_run, bind, tick, ask, emit, ret, raise, ctx_set.
    cbn [st_tick st_draws st_trace st_ctx st_files st_dirs fst snd].
    destruct (w_proc w (st_tick s) (argv spec) _ timeout) as [e| |rc o e|rc o e r];
      (split; [unfold proc_argvs; cbn [st_trace]; rewrite flat_map_app; reflexivity|reflexivity]).
Qed.



Lemma task_name_eqb_true a b : task_name_eqb a b = true <-> a = b.
Proof. destruct a, b; cbv; split; intros H; congruence. Qed.

Lemma task_name_of_string_str t : task_name_of_string (task_name_str t) = Some t.
Proof. destruct t; reflexivity. Qed.

Lemma str_list_map xs : str_list (PList (map PStr xs)) = Some xs.
Proof.
  induction xs as [|x r IH]; [reflexivity|].
  cbn [str_list map fold_right] in *. rewrite IH. reflexivity.
Qed.

Lemma tasks_set_fresh t v acc :
  ~ In t (map fst acc) -> tasks_set t v acc = (acc ++ [(t, v)])%list.
Proof.
  induction acc as [|[k w] r IH]; intros Hn; [reflexivity|].
  cbn [tasks_set]. destruct (task_name_eqb k t) eqn:E.
  - apply task_name_eqb_true in E. subst. exfalso. apply Hn. left. reflexivity.
  - rewrite IH; [reflexivity|]. intros H. apply Hn. right. exact H.
Qed.

Lemma in_tasks_set_inv t v acc kv :
  In kv (tasks_set t v acc) -> kv = (t, v) \/ In kv acc.
Proof.
  induction acc as [|[k w] r IH]; cbn [tasks_set].
  - intros [H|[]]. left. symmetry. exact H.
  - destruct (task_name_eqb k t) eqn:E.
    + apply task_name_eqb_true in E. subst. intros [H|H].
      * left. symmetry. exact H.
      * right. right. exact H.
    + intros [H|H]; [right; left; exact H|].
      destruct (IH H) as [H1|H1]; [left; exact H1|right; right; exact H1].
Qed.

Lemma tasks_set_nodup t v acc :
  NoDup (map fst acc) -> NoDup (map fst (tasks_set t v acc)).
Proof.
  induction acc as [|[k w] r IH]; cbn [tasks_set map fst].
  - intros _. constructor; [intros []|constructor].
  - intros Hnd. inversion Hnd as [|? ? Hk Hr]; subst.
    destruct (task_name_eqb k t) eqn:E; cbn [map fst].
    + constructor; assumption.
    + constructor; [|exact (IH Hr)].
      intros Hin. apply in_map_iff in Hin. destruct Hin as [[k2 v2] [Hk2 Hin]].
      cbn [fst] in Hk2. subst k2.
      destruct (in_tasks_set_inv t v r _ Hin) as [Heq|Hin'].
      * injection Heq as Hkt _. rewrite Hkt in E.
        rewrite (proj2 (task_name_eqb_true t t) eq_refl) in E. discriminate.
      * apply Hk. apply in_map_iff. exists (k, v2). split; [reflexivity|exact Hin'].
Qed.

Lemma load_tasks_invariant raw acc :
  NoDup (map fst acc) -> Forall root_cwd acc ->
  NoDup (map fst (load_tasks raw acc)) /\ Forall root_cwd (load_tasks raw acc).
Proof.
  revert acc. induction raw as [|[k v] r IH]; intros acc Hnd Hf; cbn [load_tasks].
  - split; assumption.
  - destruct (task_name_of_string k) as [t|]; [|apply IH; assumption].
    destruct (str_list v) as [xs|]; [|apply IH; assumption].
    apply IH.
    + apply tasks_set_nodup. exact Hnd.
    + apply Forall_forall. intros kv Hin.
      destruct (in_tasks_set_inv _ _ _ _ Hin) as [->|Hin'].
      * reflexivity.
      * exact (proj1 (Forall_forall _ _) Hf kv Hin').
Qed.

Lemma load_tasks_dump ts acc :
  NoDup (map fst acc ++ map fst ts) ->
  load_tasks (map dump_entry ts) acc
  = (acc ++ map (fun kv => (fst kv, mkTaskSpec (argv (snd kv)) ".")) ts)%list.
Proof.
  revert acc. induction ts as [|[t sp] r IH]; intros acc Hnd.
  - cbn. rewrite app_nil_r. reflexivity.
  - cbn [map load_tasks dump_entry fst snd].
    rewrite task_name_of_string_str, str_list_map.
    cbn [map fst] in Hnd.
    rewrite tasks_set_fresh.
    + rewrite IH.
      * rewrite <- app_assoc. reflexivity.
      * rewrite map_app, <- app_assoc. exact Hnd.
    + intros Hin. apply NoDup_remove_2 in Hnd. apply Hnd. apply in_or_app. left. exact Hin.
Qed.

Lemma config_load_dump_map c :
  NoDup (map fst (tasks c)) ->
  config_load (config_dump c)
  = inr (mkConfig (map (fun kv => (fst kv, mkTaskSpec (argv (snd kv)) ".")) (tasks c))).
Proof.
  intros Hnd. unfold config_load, config_dump. cbn [dict_get String.eqb].
  change (map (fun kv => (task_name_str (fst kv), PList (map PStr (argv (snd kv))))) (tasks c))
    with (map dump_entry (tasks c)).
  cbn [Ascii.eqb Bool.eqb]. rewrite (load_tasks_dump (tasks c) []); [reflexivity|exact Hnd].
Qed.

Lemma config_dump_root c :
  NoDup (map fst (tasks c)) -> Forall root_cwd (tasks c) -> config_load (config_dump c) = inr c.
Proof.
  intros Hnd Hf. rewrite (config_load_dump_map c Hnd). destruct c as [ts]. cbn [tasks] in *.
  f_equal. f_equal. clear Hnd. induction ts as [|[t [a d]] r IH]; [reflexivity|].
  inversion Hf as [|? ? Hd Hr]; subst. unfold root_cwd in Hd. cbn in Hd. subst d.
  cbn [map fst snd argv]. f_equal. exact (IH Hr).
Qed.

Lemma config_load_ok data c :
  config_load data = inr c -> NoDup (map fst (tasks c)) /\ Forall root_cwd (tasks c).
Proof.
  unfold config_load. destruct data as [| | | | | |kvs]; try discriminate.
  destruct (match dict_get "tasks" kvs with Some v => v | None => PDict [] end) as [| | | | | |raw];
    try discriminate.
  intros H. injection H as <-. apply load_tasks_invariant; constructor.
Qed.

(** X7.  [OrchestraConfig.dump] followed by [OrchestraConfig.load] gives
    back every task, in order, with its command, but with its [cwd] reset
    to ["."]: dump leaves the directories out.  A configuration whose tasks
    all run in the root is given back unchanged. *)
Theorem config_dump_load_roundtrip c :
  NoDup (map fst (tasks c)) ->
  config_load (config_dump c)
  = inr (mkConfig (map (fun kv => (fst kv, mkTaskSpec (argv (snd kv)) ".")) (tasks c)))
  /\ (Forall root_cwd (tasks c) -> config_load (config_dump c) = inr c).
Proof.
  intros Hnd. split; [exact (config_load_dump_map c Hnd)|]. intros Hf.
  exact (config_dump_root c Hnd Hf).
Qed.

Lemma config_dump_load_roundtrip_witness :
  NoDup (map fst (tasks config_web_test))
  /\ (config_load (config_dump config_web_test)
      = inr (mkConfig (map (fun kv => (fst kv, mkTaskSpec (argv (snd kv)) "."))
                           (tasks config_web_test)))
      /\ (Forall root_cwd (tasks config_web_test) ->
          config_load (config_dump config_web_test) = inr config_web_test)).
Proof.
  assert (H : NoDup (map fst (tasks config_web_test))).
  { cbn. constructor; [intros [H|[]]; discriminate|constructor; [intros []|constructor]]. }
  split; [exact H|]. exact (config_dump_load_roundtrip config_web_test H).
Defined.

Lemma node_tasks_ok (pm : string) (install : list string) (b1 b2 b3 b4 b5 : bool) :
  let rest := ((if b1 then [(TFormat, mkTaskSpec [pm; "run"; "format"] ".")] else [])
               ++ (if b2 then [(TLint, mkTaskSpec [pm; "run"; "lint"] ".")] else [])
               ++ (if b3 then [(TTypecheck, mkTaskSpec [pm; "run"; "typecheck"] ".")] else [])
               ++ (if b4 then [(TTest, mkTaskSpec [pm; "test"] ".")] else [])
               ++ (if b5 then [(TBuild, mkTaskSpec [pm; "run"; "build"] ".")] else []))%list in
  let l := (TInstall, mkTaskSpec install ".") :: rest in
  NoDup (map fst l) /\ Forall root_cwd l
  /\ Forall (fun kv => exists a, argv (snd kv) = pm :: a) rest
  /\ tasks_get TTest l = (if b4 then Some (mkTaskSpec [pm; "test"] ".") else None).
Proof.
  destruct b1, b2, b3, b4, b5; cbn;
    (split; [repeat constructor; cbn; intuition discriminate|]);
    (split; [repeat constructor|]);
    (split; [repeat constructor; eexists; reflexivity|reflexivity]).
Qed.

Lemma detect_default_config_ok fs repo c :
  detect_default_config fs repo = inr c -> NoDup (map fst (tasks c)) /\ Forall root_cwd (tasks c).
Proof.
  unfold detect_default_config. cbv zeta.
  destruct (rf_exists fs (path_div repo "package.json")).
  - destruct (match rf_loads_head fs (path_div repo "package.json") with
              | inl _ => PDict [] | inr v => v end) as [| | | | | |kvs];
      try discriminate.
    intros H. injection H as <-. cbn [tasks app].
    refine (let H := node_tasks_ok _ _ _ _ _ _ _ in conj (proj1 H) (proj1 (proj2 H))).
  - destruct (rf_exists fs (path_div repo "pyproject.toml")
              || rf_exists fs (path_div repo "requirements.txt")).
    + destruct (rf_exists fs (path_div repo "requirements.txt"));
        intros H; injection H as <-; cbn;
        (split; [repeat constructor; cbn; intuition discriminate|repeat constructor]).
    + intros H; injection H as <-. split; constructor.
Qed.

(** X8.  Every configuration [load_or_detect_config] returns, read from
    the given file, from [.relialimo_orchestra.json] or detected, names
    each task once and runs every task in the repository root; dumping it
    and loading the dump gives it back. *)
Theorem load_or_detect_config_invariant fs repo cp c :
  load_or_detect_config fs repo cp = inr c ->
  NoDup (map fst (tasks c)) /\ Forall root_cwd (tasks c) /\ config_load (config_dump c) = inr c.
Proof.
  intros H.
  assert (Hok : NoDup (map fst (tasks c)) /\ Forall root_cwd (tasks c)).
  { unfold load_or_detect_config, config_file_load in H. cbv zeta in H.
    destruct cp as [p|]; [destruct (rf_exists fs p)|];
      try (destruct (rf_loads fs p); [discriminate|exact (config_load_ok _ _ H)]);
      (destruct (rf_exists fs (path_div repo ".relialimo_orchestra.json"));
       [destruct (rf_loads fs (path_div repo ".relialimo_orchestra.json"));
        [discriminate|exact (config_load_ok _ _ H)]
       |exact (detect_default_config_ok _ _ _ H)]). }
  destruct Hok as [Hnd Hf]. split; [exact Hnd|]. split; [exact Hf|].
  exact (config_dump_root c Hnd Hf).
Qed.

Lemma load_or_detect_config_invariant_witness :
  load_or_detect_config files_yarn_app (path_of_string "/app") None
  = inr (mkConfig [(TInstall, mkTaskSpec ["yarn"; "install"; "--frozen-lockfile"] ".");
                   (TLint, mkTaskSpec ["yarn"; "run"; "lint"] ".")])
  /\ (let c := mkConfig [(TInstall, mkTaskSpec ["yarn"; "install"; "--frozen-lockfile"] ".");
                         (TLint, mkTaskSpec ["yarn"; "run"; "lint"] ".")] in
      NoDup (map fst (tasks c)) /\ Forall root_cwd (tasks c)
      /\ config_load (config_dump c) = inr c).
Proof.
  assert (H : load_or_detect_config files_yarn_app (path_of_string "/app") None
              = inr (mkConfig [(TInstall, mkTaskSpec ["yarn"; "install"; "--frozen-lockfile"] ".");
                               (TLint, mkTaskSpec ["yarn"; "run"; "lint"] ".")]))
    by (vm_compute; reflexivity).
  split; [exact H|]. exact (load_or_detect_config_invariant _ _ _ _ H).
Defined.


Lemma py_eq_str_true v s : py_eq_str v s = true <-> v = PStr s.
Proof.
  destruct v; cbn; split; intros H; try discriminate; try congruence.
  - apply String.eqb_eq in H. subst. reflexivity.
  - injection H as ->. apply String.eqb_refl.
Qed.

(** X9.  [detect_default_config] raises only in one case: [package.json]
    exists and its text parses to a JSON value that is not an object; the
    error is then the [AttributeError] of [pkg.get].  A [package.json] that
    cannot be read or parsed is taken as [{}], and a repository without one
    never raises. *)
Theorem detect_default_config_error fs repo e :
  detect_default_config fs repo = inl e <->
  rf_exists fs (path_div repo "package.json") = true
  /\ exists v, rf_loads_head fs (path_div repo "package.json") = inr v
               /\ (forall kvs, v <> PDict kvs) /\ e = no_attribute v "get".
Proof.
  unfold detect_default_config. cbv zeta.
  destruct (rf_exists fs (path_div repo "package.json")).
  - destruct (rf_loads_head fs (path_div repo "package.json")) as [ex|v].
    + split; [intros H; discriminate H|]. intros [_ [v [Hv _]]]. discriminate.
    + destruct v as [| | | | | |kvs];
        try (split; [intros H; injection H as <-; split; [reflexivity|];
                     eexists; split; [reflexivity|]; split; [intros kvs; discriminate|reflexivity]
                    |intros [_ [v [Hv [_ He]]]]; injection Hv as <-; rewrite He; reflexivity]).
      split; [intros H; discriminate H|]. intros [_ [v [Hv [Hn _]]]]. injection Hv as <-.
      exfalso. exact (Hn kvs eq_refl).
  - split; [|intros [H _]; discriminate].
    destruct (_ || _); [destruct (rf_exists fs (path_div repo "requirements.txt"))|];
      intros H; discriminate H.
Qed.


(** X10.  In a repository with a [package.json], a detected configuration
    starts with the [install] task, and every one of its commands starts
    with the package manager the lock files select: pnpm before yarn before
    bun, npm otherwise.  No Python command is ever detected there. *)
Theorem detect_node_commands fs repo c :
  rf_exists fs (path_div repo "package.json") = true ->
  detect_default_config fs repo = inr c ->
  let ex name := rf_exists fs (path_div repo name) in
  let pm := if ex "pnpm-lock.yaml" then "pnpm"
            else if ex "yarn.lock" then "yarn"
            else if ex "bun.lockb" || ex "bun.lock" then "bun"
            else "npm" in
  exists install rest,
    tasks c = (TInstall, mkTaskSpec install ".") :: rest
    /\ (exists a, install = pm :: a)
    /\ Forall (fun kv => exists a, argv (snd kv) = pm :: a) rest.
Proof.
  intros Hp. unfold detect_default_config. cbv zeta. rewrite Hp.
  destruct (match rf_loads_head fs (path_div repo "package.json") with
            | inl _ => PDict [] | inr v => v end) as [| | | | | |kvs]; try discriminate.
  intros H. injection H as <-. cbn [tasks app].
  match goal with
  | |- exists install rest, (TInstall, mkTaskSpec ?i ".") :: ?r = _ /\ _ =>
      exists i, r; split; [reflexivity|]
  end.
  split; [|exact (proj1 (proj2 (proj2 (node_tasks_ok _ [] _ _ _ _ _))))].
  destruct (rf_exists fs (path_div repo "pnpm-lock.yaml")); [eexists; reflexivity|].
  destruct (rf_exists fs (path_div repo "yarn.lock")); [eexists; reflexivity|].
  destruct (rf_exists fs (path_div repo "bun.lockb") || rf_exists fs (path_div repo "bun.lock"));
    [eexists; reflexivity|].
  destruct (rf_exists fs (path_div repo "package-lock.json")); eexists; reflexivity.
Qed.

Lemma detect_node_commands_witness :
  rf_exists files_yarn_app (path_div (path_of_string "/app") "package.json") = true
  /\ detect_default_config files_yarn_app (path_of_string "/app")
     = inr (mkConfig [(TInstall, mkTaskSpec ["yarn"; "install"; "--frozen-lockfile"] ".");
                      (TLint, mkTaskSpec ["yarn"; "run"; "lint"] ".")])
  /\ (exists install rest,
        tasks (mkConfig [(TInstall, mkTaskSpec ["yarn"; "install"; "--frozen-lockfile"] ".");
                         (TLint, mkTaskSpec ["yarn"; "run"; "lint"] ".")])
        = (TInstall, mkTaskSpec install ".") :: rest
        /\ (exists a, install = "yarn" :: a)
        /\ Forall (fun kv => exists a, argv (snd kv) = "yarn" :: a) rest).
Proof.
  assert (H1 : rf_exists files_yarn_app (path_div (path_of_string "/app") "package.json") = true)
    by (vm_compute; reflexivity).
  assert (H2 : detect_default_config files_yarn_app (path_of_string "/app")
               = inr (mkConfig [(TInstall, mkTaskSpec ["yarn"; "install"; "--frozen-lockfile"] ".");
                                (TLint, mkTaskSpec ["yarn"; "run"; "lint"] ".")]))
    by (vm_compute; reflexivity).
  split; [exact H1|]. split; [exact H2|].
  exact (detect_node_commands _ _ _ H1 H2).
Defined.


(** X11.  With a [package.json] that parses to an object, the detected
    configuration has a [test] task exactly when its [scripts] object has a
    [test] entry that is truthy and differs from the placeholder [echo
    "Error: no test specified" && exit 1] that [npm init] writes. *)
Theorem detect_node_test_task fs repo kvs :
  rf_exists fs (path_div repo "package.json") = true ->
  rf_loads_head fs (path_div repo "package.json") = inr (PDict kvs) ->
  exists c, detect_default_config fs repo = inr c
  /\ (tasks_get TTest (tasks c) <> None <->
      exists sc v, dict_get "scripts" kvs = Some (PDict sc) /\ dict_get "test" sc = Some v
                   /\ py_truthy v = true /\ v <> PStr npm_placeholder_test).
Proof.
  intros Hp Hl. unfold detect_default_config. cbv zeta. rewrite Hp, Hl.
  eexists. split; [reflexivity|]. cbn [tasks app].
  rewrite (proj2 (proj2 (proj2 (node_tasks_ok _ _ _ _ _ _ _)))).
  destruct (dict_get "scripts" kvs) as [[| | | | | |sc]|];
    try (cbn [dict_get]; split; [intros H; exfalso; exact (H eq_refl)
                               |intros (sc & v & Hs & _); discriminate]).
  destruct (dict_get "test" sc) as [v|] eqn:Ht.
  - destruct (py_truthy v) eqn:Hv; destruct (py_eq_str v npm_placeholder_test) eqn:Hq;
      cbn [andb negb].
    + split; [intros H; exfalso; exact (H eq_refl)|].
      intros (sc' & v' & Hs & Ht' & _ & Hn). injection Hs as <-. rewrite Ht in Ht'.
      injection Ht' as <-. exfalso. apply Hn. apply py_eq_str_true. exact Hq.
    + split; [intros _|discriminate].
      exists sc, v. repeat split; try assumption.
      intros E. apply py_eq_str_true in E. congruence.
    + split; [intros H; exfalso; exact (H eq_refl)|].
      intros (sc' & v' & Hs & Ht' & Hv' & _). injection Hs as <-. rewrite Ht in Ht'.
      injection Ht' as <-. congruence.
    + split; [intros H; exfalso; exact (H eq_refl)|].
      intros (sc' & v' & Hs & Ht' & Hv' & _). injection Hs as <-. rewrite Ht in Ht'.
      injection Ht' as <-. congruence.
  - split; [intros H; exfalso; exact (H eq_refl)|].
    intros (sc' & v' & Hs & Ht' & _). injection Hs as <-. congruence.
Qed.

Lemma detect_node_test_task_witness :
  rf_exists files_yarn_app (path_div (path_of_string "/app") "package.json") = true
  /\ rf_loads_head files_yarn_app (path_div (path_of_string "/app") "package.json")
     = inr (PDict [("name", PStr "app");
                   ("scripts", PDict [("test", PStr npm_placeholder_test);
                                      ("lint", PStr "eslint .")])])
  /\ (exists c, detect_default_config files_yarn_app (path_of_string "/app") = inr c
      /\ (tasks_get TTest (tasks c) <> None <->
          exists sc v, dict_get "scripts" [("name", PStr "app");
                                           ("scripts", PDict [("test", PStr npm_placeholder_test);
                                                              ("lint", PStr "eslint .")])]
                       = Some (PDict sc)
                       /\ dict_get "test" sc = Some v
                       /\ py_truthy v = true /\ v <> PStr npm_placeholder_test)).
Proof.
  assert (H1 : rf_exists files_yarn_app (path_div (path_of_string "/app") "package.json") = true)
    by (vm_compute; reflexivity).
  assert (H2 : rf_loads_head files_yarn_app (path_div (path_of_string "/app") "package.json")
               = inr (PDict [("name", PStr "app");
                             ("scripts", PDict [("test", PStr npm_placeholder_test);
                                                ("lint", PStr "eslint .")])]))
    by (vm_compute; reflexivity).
  split; [exact H1|]. split; [exact H2|].
  exact (detect_node_test_task _ _ _ H1 H2).
Defined.


(** X12.  In a repository without [package.json] but with
    [pyproject.toml] or [requirements.txt], detection gives the tasks
    [test], [lint] and [format], after [install] only when
    [requirements.txt] exists, each run as [python -m ...]; with none of
    these files it gives no task. *)
Theorem detect_python_project fs repo :
  rf_exists fs (path_div repo "package.json") = false ->
  let ex name := rf_exists fs (path_div repo name) in
  if ex "pyproject.toml" || ex "requirements.txt" then
    exists c, detect_default_config fs repo = inr c
    /\ map fst (tasks c) = ((if ex "requirements.txt" then [TInstall] else []) ++ [TTest; TLint; TFormat])%list
    /\ Forall (fun kv => exists a, argv (snd kv) = "python" :: "-m" :: a) (tasks c)
  else detect_default_config fs repo = inr (mkConfig []).
Proof.
  intros Hp. cbv zeta. unfold detect_default_config. cbv zeta. rewrite Hp.
  destruct (rf_exists fs (path_div repo "pyproject.toml")
            || rf_exists fs (path_div repo "requirements.txt")); [|reflexivity].
  eexists. split; [reflexivity|]. cbn [tasks].
  destruct (rf_exists fs (path_div repo "requirements.txt")); cbn;
    (split; [reflexivity|repeat constructor; eexists; reflexivity]).
Qed.

Lemma detect_python_project_witness :
  rf_exists files_python_app (path_div (path_of_string "/app") "package.json") = false
  /\ (let ex name := rf_exists files_python_app (path_div (path_of_string "/app") name) in
      if ex "pyproject.toml" || ex "requirements.txt" then
        exists c, detect_default_config files_python_app (path_of_string "/app") = inr c
        /\ map fst (tasks c)
           = ((if ex "requirements.txt" then [TInstall] else []) ++ [TTest; TLint; TFormat])%list
        /\ Forall (fun kv => exists a, argv (snd kv) = "python" :: "-m" :: a) (tasks c)
      else detect_default_config files_python_app (path_of_string "/app") = inr (mkConfig [])).
Proof.
  assert (H : rf_exists files_python_app (path_div (path_of_string "/app") "package.json") = false)
    by (vm_compute; reflexivity).
  split; [exact H|]. exact (detect_python_project _ _ H).
Defined.

(* ------------------------------------------------------------------ *)
(** ** Failure detection over the checks ([_run_tasks], [run_orchestra]) *)

Lemma status_get_app u pre l :
  status_get u (pre ++ l)%list
  = match status_get u pre with Some e => Some e | None => status_get u l end.
Proof.
  induction pre as [|[k e] r IH]; [reflexivity|]. cbn [app status_get].
  destruct (task_name_eqb k u); [reflexivity|exact IH].
Qed.

Lemma status_get_in u st e : status_get u st = Some e -> In (u, e) st.
Proof.
  induction st as [|[k e'] r IH]; cbn [status_get]; [discriminate|].
  destruct (task_name_eqb k u) eqn:E.
  - intros H. injection H as <-. apply task_name_eqb_eq in E. subst. left. reflexivity.
  - intros H. right. exact (IH H).
Qed.

Lemma status_get_none u st : ~ In u (map fst st) -> status_get u st = None.
Proof.
  induction st as [|[k e] r IH]; cbn [status_get map fst]; [reflexivity|].
  intros Hn. destruct (task_name_eqb k u) eqn:E.
  - apply task_name_eqb_eq in E. subst. exfalso. apply Hn. left. reflexivity.
  - apply IH. intros H. apply Hn. right. exact H.
Qed.

Lemma status_get_some u st : In u (map fst st) -> exists e, status_get u st = Some e.
Proof.
  induction st as [|[k e] r IH]; cbn [status_get map fst]; [intros []|].
  destruct (task_name_eqb k u) eqn:E; [eexists; reflexivity|].
  intros [H|H]; [subst; rewrite (proj2 (task_name_eqb_eq u u) eq_refl) in E; discriminate|].
  exact (IH H).
Qed.

(** No entry of [st] is a failed run. *)
Lemma detect_failure_none ts st :
  (forall u c cmd o, status_get u st <> Some (Ran false c cmd o)) ->
  detect_failure ts st = (false, "").
Proof.
  intros H. induction ts as [|u r IH]; [reflexivity|]. cbn [detect_failure].
  destruct (status_get u st) as [[|ok c cmd o]|] eqn:E; try exact IH.
  destruct ok; [exact IH|]. exfalso. exact (H u c cmd o E).
Qed.

Lemma detect_failure_first pre t rest st c cmd o :
  (forall u, In u pre -> forall c' cmd' o', status_get u st <> Some (Ran false c' cmd' o')) ->
  status_get t st = Some (Ran false c cmd o) ->
  detect_failure (pre ++ t :: rest)%list st = (true, task_name_str t ++ ": " ++ cmd ++ nl ++ o).
Proof.
  intros Hpre Ht. induction pre as [|u r IH]; cbn [app detect_failure].
  - rewrite Ht. reflexivity.
  - destruct (status_get u st) as [[|ok c' cmd' o']|] eqn:E;
      try (apply IH; intros v Hv; apply Hpre; right; exact Hv).
    destruct ok; [apply IH; intros v Hv; apply Hpre; right; exact Hv|].
    exfalso. exact (Hpre u (or_introl eq_refl) c' cmd' o' E).
Qed.

(** X13. [_run_tasks] always returns a status.  Either every task that ran
    succeeded, and the failure detection of [run_orchestra] finds no failure,
    or the status ends with the first failed task, and the failure detection
    reports exactly that task with its command and output tail. *)
Theorem run_tasks_detect_failure ctx w s :
  exists res s', run_tasks ctx w s = (inr res, s')
  /\ ((all_ran_ok res /\ detect_failure TASK_ORDER res = (false, ""))
      \/ exists pre t c cmd o,
           res = (pre ++ [(t, Ran false c cmd o)])%list /\ all_ran_ok pre
           /\ detect_failure TASK_ORDER res = (true, task_name_str t ++ ": " ++ cmd ++ nl ++ o)).
Proof.
  unfold run_tasks.
  destruct (run_tasks_loop_spec ctx TASK_ORDER [] w s)
    as (k & es & s' & Hrun & Hk & _ & _ & _ & Hend).
  exists es, s'. split; [exact Hrun|].
  destruct Hend as [[_ Hok]|(pre & t & c & cmd & o & -> & Hok)].
  - left. split; [exact Hok|]. apply detect_failure_none.
    intros u c cmd o E. apply status_get_in in E. discriminate (Hok _ _ _ _ _ E).
  - right. exists pre, t, c, cmd, o. split; [reflexivity|]. split; [exact Hok|].
    assert (Hnd : NoDup (map fst (pre ++ [(t, Ran false c cmd o)]))).
    { rewrite Hk. apply (NoDup_app_remove_r _ (skipn k TASK_ORDER)).
      rewrite firstn_skipn. cbn.
      repeat constructor; cbn; intuition discriminate. }
    rewrite map_app in Hnd, Hk. cbn [map fst] in Hnd, Hk.
    assert (Hord : TASK_ORDER = (map fst pre ++ t :: skipn k TASK_ORDER)%list).
    { rewrite <- (firstn_skipn k TASK_ORDER) at 1. rewrite <- Hk, <- app_assoc. reflexivity. }
    rewrite Hord. apply (detect_failure_first _ _ _ _ c).
    + intros u Hu c' cmd' o'. destruct (status_get_some u pre Hu) as [e He].
      rewrite status_get_app, He. intros E. injection E as ->.
      discriminate (Hok _ _ _ _ _ (status_get_in _ _ _ He)).
    + rewrite status_get_app, status_get_none; [cbn [status_get]|].
      * rewrite (proj2 (task_name_eqb_eq t t) eq_refl). reflexivity.
      * intros Hin. apply NoDup_remove_2 in Hnd. apply Hnd. rewrite app_nil_r. exact Hin.
Qed.

(* ------------------------------------------------------------------ *)
(** ** Writing and reading files ([write_file], [read_file]) *)
Lemma abs_path_state ctx path w s :
  abs_path ctx path w s = (fst (abs_path ctx path w s), s).
Proof.
  unfold abs_path, bind, ask. cbv beta zeta.
  destruct (_ && _); reflexivity.
Qed.

Lemma abs_path_any_state ctx path w s s' :
  fst (abs_path ctx path w s) = fst (abs_path ctx path w s').
Proof.
  unfold abs_path, bind, ask. cbv beta zeta.
  destruct (_ && _); reflexivity.
Qed.

Lemma rpath_eqb_refl p : rpath_eqb p p = true.
Proof. apply rpath_eqb_eq. reflexivity. Qed.

Lemma find_filter_other (p q : RPath) (fs : list (RPath * string)) :
  q <> p ->
  find (fun f => rpath_eqb (fst f) q) (filter (fun f => negb (rpath_eqb (fst f) p)) fs)
  = find (fun f => rpath_eqb (fst f) q) fs.
Proof.
  intros Hqp. induction fs as [|[r c] t IH]; [reflexivity|]. cbn [filter find fst].
  destruct (rpath_eqb r p) eqn:Erp; cbn [negb find fst].
  - apply rpath_eqb_eq in Erp. subst r.
    destruct (rpath_eqb p q) eqn:E; [apply rpath_eqb_eq in E; congruence|exact IH].
  - destruct (rpath_eqb r q); [reflexivity|exact IH].
Qed.

Lemma skipn_nth_cons (l : list string) n :
  (n < length l)%nat -> skipn n l = nth n l "" :: skipn (S n) l.
Proof.
  revert l. induction n as [|n IH]; intros [|x r] H; cbn in *; try lia; [reflexivity|].
  apply IH. lia.
Qed.

Lemma read_lines_window (text : list string) (m : nat) : forall n j,
  (m + j + n <= length text)%nat ->
  map (fun i => pad6 (str_Z i) ++ " | " ++ nth (Z.to_nat (i - 1)) text "")
      (map (fun k => Z.of_nat m + 1 + Z.of_nat k)%Z (seq j n))
  = numbered (Z.of_nat m + 1 + Z.of_nat j) (firstn n (skipn (m + j) text)).
Proof.
  induction n as [|n IH]; intros j H; [reflexivity|].
  cbn [seq map]. rewrite (skipn_nth_cons text (m + j)) by lia. cbn [firstn numbered].
  f_equal.
  - do 3 f_equal. lia.
  - rewrite IH by lia. f_equal; [lia|]. f_equal. f_equal. lia.
Qed.

Lemma ancestors_snoc (p : RPath) (x : string) :
  ancestors (p ++ [x])%list = map (fun k => firstn k p) (seq 0 (S (length p))).
Proof.
  unfold ancestors. rewrite length_app. cbn [length]. rewrite Nat.add_1_r.
  apply map_ext_in. intros k Hk. apply in_seq in Hk.
  rewrite firstn_app. replace (k - length p)%nat with 0%nat by lia.
  rewrite app_nil_r. reflexivity.
Qed.

Lemma ancestors_snoc_split (p : RPath) (x : string) :
  ancestors (p ++ [x])%list = (ancestors p ++ [p])%list.
Proof.
  rewrite ancestors_snoc, seq_S, map_app. cbn [map]. rewrite Nat.add_0_l, firstn_all. reflexivity.
Qed.

Lemma find_negb_none {A} (f : A -> bool) l :
  find (fun q => negb (f q)) l = None <-> forallb f l = true.
Proof.
  induction l as [|x r IH]; cbn; [tauto|].
  destruct (f x); cbn; [exact IH|]. split; discriminate.
Qed.

Lemma is_dir_at_in s q : In q (st_dirs s) -> is_dir_at s q = true.
Proof.
  intros H. unfold is_dir_at. destruct q as [|c q]; [reflexivity|].
  apply existsb_exists. exists (c :: q). split; [exact H|]. apply rpath_eqb_eq. reflexivity.
Qed.

Lemma rpath_eqb_length a b : rpath_eqb a b = true -> length a = length b.
Proof. intros H. apply rpath_eqb_eq in H. subst. reflexivity. Qed.

Lemma existsb_rpath_shorter p (l d : list RPath) :
  (forall q, In q l -> length q < length p)%nat ->
  existsb (rpath_eqb p) (l ++ d) = existsb (rpath_eqb p) d.
Proof.
  intros H. rewrite existsb_app.
  replace (existsb (rpath_eqb p) l) with false; [reflexivity|].
  symmetry. apply Bool.not_true_iff_false. intros E. apply existsb_exists in E as (q & Hq & E).
  apply rpath_eqb_length in E. specialize (H q Hq). lia.
Qed.

Lemma write_file_spec ctx path content cd w s :
  let ok := "OK: wrote " ++ path ++ " (" ++ str_N (N.of_nat (String.length content)) ++ " bytes)" in
  match fst (abs_path ctx path w s) with
  | inl e => write_file ctx path content cd w s = (inl e, s)
  | inr p =>
      (write_target_ok s p cd = true ->
       fst (write_file ctx path content cd w s) = inr ok
       /\ file_at (snd (write_file ctx path content cd w s)) p = Some content
       /\ (forall q, q <> p -> file_at (snd (write_file ctx path content cd w s)) q = file_at s q))
      /\ (write_target_ok s p cd = false ->
          exists e, fst (write_file ctx path content cd w s) = inl e
          /\ st_files (snd (write_file ctx path content cd w s)) = st_files s)
  end.
Proof.
  intros ok.
  assert (E : write_file ctx path content cd w s =
              match fst (abs_path ctx path w s) with
              | inl e => (inl e, s)
              | inr p => ((if cd then fs_mkdir (removelast p) else ret tt) ;;;
                          (fs_write_text p content ;;; ret ok)) w s
              end).
  { unfold write_file, bind at 1. rewrite abs_path_state. destruct (fst _); reflexivity. }
  rewrite E. clear E.
  destruct (fst (abs_path ctx path w s)) as [e|p]; [reflexivity|].
  set (W := fs_write_text p content ;;; ret ok).
  assert (Emk : forall q, (fs_mkdir q ;;; W) w s =
            let s1 := mkSt (st_tick s) (st_draws s) (st_trace s ++ [EvMkdir q])%list (st_ctx s)
                           (st_files s) (st_dirs s) in
            if existsb (is_file_at s) (ancestors q)
            then (inl (OSError ("[Errno 20] Not a directory: " ++ repr_str (rpath_str q))), s1)
            else if is_file_at s q
            then (inl (OSError ("[Errno 17] File exists: " ++ repr_str (rpath_str q))), s1)
            else W w (mkSt (st_tick s) (st_draws s) (st_trace s ++ [EvMkdir q])%list (st_ctx s)
                       (st_files s) (map (fun k => firstn k q) (seq 0 (S (length q))) ++ st_dirs s)%list)).
  { intros q. unfold fs_mkdir, bind at 1 2, emit. cbv zeta.
    change (existsb (is_file_at _) (ancestors q)) with (existsb (is_file_at s) (ancestors q)).
    change (is_file_at _ q) with (is_file_at s q).
    destruct (existsb (is_file_at s) (ancestors q)); [reflexivity|].
    destruct (is_file_at s q); reflexivity. }
  assert (Hsucc : forall s2, st_files s2 = st_files s ->
            lookup_error s2 p = None -> is_dir_at s2 p = false ->
            fst (W w s2) = inr ok /\ file_at (snd (W w s2)) p = Some content
            /\ (forall q, q <> p -> file_at (snd (W w s2)) q = file_at s q)).
  { intros s2 Hf Hl Hd. unfold W, fs_write_text, bind, emit, ret.
    change (lookup_error _ p) with (lookup_error s2 p). rewrite Hl.
    change (is_dir_at _ p) with (is_dir_at s2 p). rewrite Hd. cbn [fst snd].
    split; [reflexivity|]. unfold file_at. cbn [st_files find fst snd].
    split; [rewrite rpath_eqb_refl; reflexivity|].
    intros q Hq. destruct (rpath_eqb p q) eqn:E; [apply rpath_eqb_eq in E; congruence|].
    rewrite find_filter_other by exact Hq. rewrite Hf. reflexivity. }
  assert (Hfail : forall s2, st_files s2 = st_files s ->
            (lookup_error s2 p <> None \/ is_dir_at s2 p = true) ->
            exists e, fst (W w s2) = inl e /\ st_files (snd (W w s2)) = st_files s).
  { intros s2 Hf H. unfold W, fs_write_text, bind, emit, ret.
    change (lookup_error _ p) with (lookup_error s2 p).
    change (is_dir_at _ p) with (is_dir_at s2 p).
    destruct (lookup_error s2 p) as [e|]; [eexists; split; [reflexivity|exact Hf]|].
    destruct H as [H|H]; [congruence|]. rewrite H. eexists; split; [reflexivity|exact Hf]. }
  destruct cd.
  - (* create_dirs=True: [p.parent.mkdir(parents=True, exist_ok=True)] first *)
    induction p as [|x rl _] using rev_ind.
    + unfold write_target_ok. cbn [ancestors is_dir_at length seq map forallb andb negb].
      split; [discriminate|]. intros _.
      cbn [removelast]. rewrite Emk. cbv zeta. cbn [ancestors length seq map existsb].
      destruct (is_file_at s []) eqn:Ef.
      * eexists; split; reflexivity.
      * exact (Hfail _ eq_refl (or_intror eq_refl)).
    + rewrite removelast_last.
      assert (Hok : write_target_ok s (rl ++ [x])%list true
                    = negb (existsb (is_file_at s) (ancestors rl)) && negb (is_file_at s rl)
                      && negb (is_dir_at s (rl ++ [x])%list)).
      { unfold write_target_ok. rewrite ancestors_snoc_split, forallb_app. cbn [forallb].
        rewrite andb_true_r.
        replace (forallb (fun q => negb (is_file_at s q)) (ancestors rl))
          with (negb (existsb (is_file_at s) (ancestors rl))); [reflexivity|].
        induction (ancestors rl) as [|y r IH]; cbn; [reflexivity|].
        rewrite negb_orb, IH. reflexivity. }
      rewrite Hok. clear Hok.
      rewrite Emk. cbv zeta.
      destruct (existsb (is_file_at s) (ancestors rl)); cbn [negb andb].
      { split; [discriminate|]. intros _. eexists; split; reflexivity. }
      destruct (is_file_at s rl); cbn [negb andb].
      { split; [discriminate|]. intros _. eexists; split; reflexivity. }
      set (s2 := mkSt (st_tick s) (st_draws s) (st_trace s ++ [EvMkdir rl])%list (st_ctx s)
                      (st_files s) (map (fun k => firstn k rl) (seq 0 (S (length rl))) ++ st_dirs s)%list).
      assert (Hl : lookup_error s2 (rl ++ [x])%list = None).
      { unfold lookup_error. replace (find _ _) with (@None RPath); [reflexivity|].
        symmetry. apply find_negb_none. apply forallb_forall. intros q Hq.
        apply is_dir_at_in. cbn [st_dirs s2]. apply in_or_app. left.
        rewrite ancestors_snoc in Hq. exact Hq. }
      assert (Hd : is_dir_at s2 (rl ++ [x])%list = is_dir_at s (rl ++ [x])%list).
      { unfold is_dir_at. destruct (rl ++ [x])%list as [|c t] eqn:E; [destruct rl; discriminate|].
        rewrite <- E. cbn [st_dirs s2]. apply existsb_rpath_shorter.
        intros q Hq. apply in_map_iff in Hq as (k & <- & Hk). apply in_seq in Hk.
        rewrite length_firstn, length_app. cbn [length]. lia. }
      destruct (is_dir_at s (rl ++ [x])%list) eqn:Edir; cbn [negb].
      * split; [discriminate|]. intros _.
        exact (Hfail s2 eq_refl (or_intror Hd)).
      * split; [|discriminate]. intros _.
        exact (Hsucc s2 eq_refl Hl Hd).
  - assert (Er : (ret tt ;;; W) w s = W w s) by reflexivity. rewrite Er. clear Er.
    unfold write_target_ok.
    destruct (forallb (is_dir_at s) (ancestors p)) eqn:Ea; cbn [andb].
    + assert (Hl : lookup_error s p = None)
        by (unfold lookup_error; apply find_negb_none in Ea; rewrite Ea; reflexivity).
      destruct (is_dir_at s p) eqn:Ed; cbn [negb].
      * split; [discriminate|]. intros _. exact (Hfail s eq_refl (or_intror Ed)).
      * split; [|discriminate]. intros _. exact (Hsucc s eq_refl Hl Ed).
    + split; [discriminate|]. intros _.
      assert (Hl : lookup_error s p <> None).
      { unfold lookup_error. destruct (find _ _) eqn:Ef; [discriminate|].
        apply find_negb_none in Ef. congruence. }
      exact (Hfail s eq_refl (or_introl Hl)).
Qed.

Lemma existsb_find {A} (f : A -> bool) l :
  existsb f l = match find f l with Some _ => true | None => false end.
Proof. induction l as [|x r IH]; cbn; [reflexivity|]. destruct (f x); [reflexivity|exact IH]. Qed.

Lemma read_lines_all (text : list string) (start end_ : Z) :
  (1 <= start)%Z -> (end_ <= Z.of_nat (length text))%Z ->
  map (fun i => pad6 (str_Z i) ++ " | " ++ nth (Z.to_nat (i - 1)) text "")
      (map (fun k => start + Z.of_nat k)%Z (seq 0 (Z.to_nat (end_ - start + 1))))
  = numbered start (firstn (Z.to_nat (end_ - start + 1)) (skipn (Z.to_nat (start - 1)) text)).
Proof.
  intros H1 H2.
  destruct (Z.to_nat (end_ - start + 1)) as [|n] eqn:En; [reflexivity|].
  assert (Hs : start = (Z.of_nat (Z.to_nat (start - 1)) + 1 + Z.of_nat 0)%Z) by lia.
  pose proof (read_lines_window text (Z.to_nat (start - 1)) (S n) 0) as L.
  rewrite Nat.add_0_r in L. rewrite <- Hs in L. rewrite <- L by lia.
  f_equal. apply map_ext. intros k. lia.
Qed.

Lemma read_file_spec ctx path a b w s p :
  fst (abs_path ctx path w s) = inr p ->
  st_files (snd (read_file ctx path a b w s)) = st_files s
  /\ match file_at s p with
     | None => fst (read_file ctx path a b w s) = inr ("ERROR: file not found: " ++ path)
     | Some raw =>
         let text := splitlines raw in
         let start := Z.max 1 a in
         let end_ := Z.min (Z.of_nat (length text)) b in
         fst (read_file ctx path a b w s)
         = inr (("FILE: " ++ path ++ " (lines " ++ str_Z start ++ "-" ++ str_Z end_ ++ " of "
                 ++ str_Z (Z.of_nat (length text)) ++ ")") ++ nl
                ++ join nl (numbered start (firstn (Z.to_nat (end_ - start + 1))
                                                   (skipn (Z.to_nat (start - 1)) text))))
     end.
Proof.
  intros Ha. unfold read_file, fs_exists, fs_is_file, fs_read_text, emit, ret, bind.
  rewrite abs_path_state, Ha. unfold file_at.
  cbn [st_files st_trace st_dirs st_ctx st_tick st_draws].
  cbv beta iota. cbn [st_files st_trace st_dirs st_ctx st_tick st_draws].
  rewrite !existsb_find.
  destruct (find (fun f => rpath_eqb (fst f) p) (st_files s)) as [[q raw]|] eqn:Ef;
    repeat progress (cbv beta iota;
                     cbn [orb negb st_files st_trace st_dirs st_ctx st_tick st_draws fst snd];
                     rewrite ?existsb_find, ?Ef).
  - split; [reflexivity|]. cbv zeta. cbn [fst].
    rewrite read_lines_all by lia. reflexivity.
  - destruct (find (rpath_eqb p) (st_dirs s));
      repeat progress (cbv beta iota;
                       cbn [orb negb st_files st_trace st_dirs st_ctx st_tick st_draws fst snd];
                       rewrite ?existsb_find, ?Ef);
      split; reflexivity.
Qed.

(** X16. [write_file] on a path outside the repository raises the error of
    [abs_path] and changes nothing.  Otherwise, on the resolved path [p]:
    when [write_target_ok] holds it returns ["OK: wrote <path> (<n> bytes)"],
    the file then holds the content, and no other file changes; when it does
    not, it raises (an [OSError] of [mkdir] or [open]) and no file changes. *)
Theorem write_file_effect ctx path content cd w s :
  let ok := "OK: wrote " ++ path ++ " (" ++ str_N (N.of_nat (String.length content)) ++ " bytes)" in
  match fst (abs_path ctx path w s) with
  | inl e => write_file ctx path content cd w s = (inl e, s)
  | inr p =>
      (write_target_ok s p cd = true ->
       fst (write_file ctx path content cd w s) = inr ok
       /\ file_at (snd (write_file ctx path content cd w s)) p = Some content
       /\ (forall q, q <> p -> file_at (snd (write_file ctx path content cd w s)) q = file_at s q))
      /\ (write_target_ok s p cd = false ->
          exists e, fst (write_file ctx path content cd w s) = inl e
          /\ st_files (snd (write_file ctx path content cd w s)) = st_files s)
  end.
Proof. exact (write_file_spec ctx path content cd w s). Qed.

(** On concrete files: [src] is a directory, so writing it raises
    [IsADirectoryError]; the parent of [a.txt/b] is a file, so [mkdir]
    raises [FileExistsError], and for [a.txt/b/c] [NotADirectoryError];
    without [create_dirs], [new/b] lies under a
    missing directory, so [open] raises [FileNotFoundError]. *)
Lemma write_file_errors :
  let ctx := mkCtx (path_of_string "/repo") config_test_only "s1" in
  let s := mkSt 0 0 [] [] [(["repo"; "a.txt"], "")] [["repo"]; ["repo"; "src"]] in
  fst (write_file ctx "src" "x" true world_test_fails s)
  = inl (OSError "[Errno 21] Is a directory: '/repo/src'")
  /\ fst (write_file ctx "a.txt/b" "x" true world_test_fails s)
     = inl (OSError "[Errno 17] File exists: '/repo/a.txt'")
  /\ fst (write_file ctx "a.txt/b/c" "x" true world_test_fails s)
     = inl (OSError "[Errno 20] Not a directory: '/repo/a.txt/b'")
  /\ fst (write_file ctx "new/b" "x" false world_test_fails s)
     = inl (OSError "[Errno 2] No such file or directory: '/repo/new/b'").
Proof. vm_compute. repeat split. Qed.

(** X17. [read_file] changes no file.  On a missing file it returns
    ["ERROR: file not found: <path>"]; otherwise it returns the header and the
    lines from [max 1 start_line] to [min (number of lines) end_line], each
    numbered. *)
Theorem read_file_window ctx path a b w s p :
  fst (abs_path ctx path w s) = inr p ->
  st_files (snd (read_file ctx path a b w s)) = st_files s
  /\ match file_at s p with
     | None => fst (read_file ctx path a b w s) = inr ("ERROR: file not found: " ++ path)
     | Some raw =>
         let text := splitlines raw in
         let start := Z.max 1 a in
         let end_ := Z.min (Z.of_nat (length text)) b in
         fst (read_file ctx path a b w s)
         = inr (("FILE: " ++ path ++ " (lines " ++ str_Z start ++ "-" ++ str_Z end_ ++ " of "
                 ++ str_Z (Z.of_nat (length text)) ++ ")") ++ nl
                ++ join nl (numbered start (firstn (Z.to_nat (end_ - start + 1))
                                                   (skipn (Z.to_nat (start - 1)) text))))
     end.
Proof. exact (read_file_spec ctx path a b w s p). Qed.

(** X18. Reading back a file that [write_file] just wrote (its target
    allowing the write), from line 1 to its number of lines, returns all the
    lines of the written content, numbered from 1. *)
Theorem write_then_read_file ctx path content cd w s p :
  fst (abs_path ctx path w s) = inr p ->
  write_target_ok s p cd = true ->
  let text := splitlines content in
  let n := Z.of_nat (length text) in
  fst (read_file ctx path 1 n w (snd (write_file ctx path content cd w s)))
  = inr (("FILE: " ++ path ++ " (lines 1-" ++ str_Z n ++ " of " ++ str_Z n ++ ")") ++ nl
         ++ join nl (numbered 1 text)).
Proof.
  intros Ha Hok. cbv zeta.
  pose proof (write_file_spec ctx path content cd w s) as Hw. cbv zeta in Hw.
  rewrite Ha in Hw. destruct Hw as [Hw _]. destruct (Hw Hok) as (_ & Hf & _).
  set (s1 := snd (write_file ctx path content cd w s)) in *.
  assert (Ha1 : fst (abs_path ctx path w s1) = inr p)
    by (rewrite <- Ha; apply abs_path_any_state).
  destruct (read_file_spec ctx path 1 (Z.of_nat (length (splitlines content))) w s1 p Ha1)
    as [_ Hr].
  rewrite Hf in Hr. cbv zeta in Hr. rewrite Hr.
  replace (Z.max 1 1) with 1%Z by reflexivity.
  rewrite Z.min_id. cbn [str_Z].
  replace (Z.to_nat (1 - 1)) with 0%nat by reflexivity. cbn [skipn].
  destruct (length (splitlines content)) as [|m] eqn:El.
  - destruct (splitlines content); [|discriminate El]. reflexivity.
  - rewrite firstn_all2 by lia. reflexivity.
Qed.

(** A repository [/repo] holding [src/a.py] with two lines. *)
Lemma read_file_window_witness :
  fst (abs_path (mkCtx (path_of_string "/repo") config_test_only "s1") "src/a.py"
                world_test_fails (mkSt 0 0 [] [] [(["repo"; "src"; "a.py"], "x = 1" ++ nl ++ "y = 2")] []))
  = inr ["repo"; "src"; "a.py"]
  /\ st_files (snd (read_file (mkCtx (path_of_string "/repo") config_test_only "s1") "src/a.py" 2 9
                  world_test_fails (mkSt 0 0 [] [] [(["repo"; "src"; "a.py"], "x = 1" ++ nl ++ "y = 2")] [])))
     = [(["repo"; "src"; "a.py"], "x = 1" ++ nl ++ "y = 2")]
  /\ fst (read_file (mkCtx (path_of_string "/repo") config_test_only "s1") "src/a.py" 2 9
                  world_test_fails (mkSt 0 0 [] [] [(["repo"; "src"; "a.py"], "x = 1" ++ nl ++ "y = 2")] []))
     = inr ("FILE: src/a.py (lines 2-2 of 2)" ++ nl ++ "     2 | y = 2").
Proof.
  assert (Ha : fst (abs_path (mkCtx (path_of_string "/repo") config_test_only "s1") "src/a.py"
                world_test_fails (mkSt 0 0 [] [] [(["repo"; "src"; "a.py"], "x = 1" ++ nl ++ "y = 2")] []))
               = inr ["repo"; "src"; "a.py"]) by (vm_compute; reflexivity).
  split; [exact Ha|].
  destruct (read_file_window _ _ 2 9 _ _ _ Ha) as [Hf Hr].
  split; [exact Hf|].
  assert (E : file_at (mkSt 0 0 [] [] [(["repo"; "src"; "a.py"], "x = 1" ++ nl ++ "y = 2")] [])
                      ["repo"; "src"; "a.py"] = Some ("x = 1" ++ nl ++ "y = 2"))
    by (vm_compute; reflexivity).
  rewrite E in Hr. cbv zeta in Hr. rewrite Hr. vm_compute. reflexivity.
Defined.

(** Writing two lines to [notes.txt] in an empty repository [/repo], then
    reading them back. *)
Lemma write_then_read_file_witness :
  fst (abs_path (mkCtx (path_of_string "/repo") config_test_only "s1") "notes.txt"
                world_test_fails s_init) = inr ["repo"; "notes.txt"]
  /\ write_target_ok s_init ["repo"; "notes.txt"] true = true
  /\ fst (read_file (mkCtx (path_of_string "/repo") config_test_only "s1") "notes.txt" 1 2
                   world_test_fails
                   (snd (write_file (mkCtx (path_of_string "/repo") config_test_only "s1")
                                    "notes.txt" ("a" ++ nl ++ "b") true world_test_fails s_init)))
     = inr ("FILE: notes.txt (lines 1-2 of 2)" ++ nl ++ "     1 | a" ++ nl ++ "     2 | b").
Proof.
  assert (Ha : fst (abs_path (mkCtx (path_of_string "/repo") config_test_only "s1")
                             "notes.txt" world_test_fails s_init) = inr ["repo"; "notes.txt"])
    by (vm_compute; reflexivity).
  assert (Hok : write_target_ok s_init ["repo"; "notes.txt"] true = true) by (vm_compute; reflexivity).
  split; [exact Ha|]. split; [exact Hok|].
  pose proof (write_then_read_file (mkCtx (path_of_string "/repo") config_test_only "s1")
                "notes.txt" ("a" ++ nl ++ "b") true world_test_fails s_init _ Ha Hok) as H.
  vm_compute in H. vm_compute. exact H.
Defined.

(* ------------------------------------------------------------------ *)
(** ** Walking the repository ([_walk_repo], [list_files], [search_repo]) *)

Lemma rpath_child_spec d p n : rpath_child d p = Some n <-> p = (d ++ [n])%list.
Proof.
  revert p. induction d as [|x d IH]; intros p.
  - destruct p as [|y [|z p]]; cbn; split; intros H; try discriminate H;
      try (injection H as <-; reflexivity); try (injection H; intros; discriminate).
  - destruct p as [|y p]; cbn.
    + split; intros H; [discriminate H|]. destruct d; discriminate H.
    + destruct (String.eqb x y) eqn:E.
      * apply String.eqb_eq in E. subst y. rewrite IH. split; intros H.
        -- subst. reflexivity.
        -- injection H as H. exact H.
      * split; intros H; [discriminate H|]. injection H as H1 _.
        subst. rewrite String.eqb_refl in E. discriminate E.
Qed.

Lemma child_names_In d ps n : In n (child_names d ps) <-> In (d ++ [n])%list ps.
Proof.
  unfold child_names. rewrite nodup_In, in_flat_map. split.
  - intros (p & Hp & Hn). destruct (rpath_child d p) as [m|] eqn:E; [|destruct Hn].
    destruct Hn as [<-|[]]. apply rpath_child_spec in E. subst. exact Hp.
  - intros H. exists (d ++ [n])%list. split; [exact H|].
    rewrite (proj2 (rpath_child_spec d _ n) eq_refl). left. reflexivity.
Qed.

Lemma firstn_app_cons_S {A} (d : A) mid j :
  firstn (S j) (d :: mid) = (d :: firstn j mid)%list.
Proof. reflexivity. Qed.

Lemma walk_aux_In files dirs ih k : forall root f,
  In f (walk_aux files dirs ih k root) <->
  exists mid name,
    f = (root ++ mid ++ [name])%list
    /\ (length mid < k)%nat
    /\ In f files
    /\ Forall (fun d => keep_dir ih d = true) mid
    /\ (ih || negb (hidden name)) = true
    /\ (forall j, (1 <= j <= length mid)%nat -> In (root ++ firstn j mid)%list dirs).
Proof.
  induction k as [|k IH]; intros root f.
  - cbn. split; [intros []|]. intros (mid & name & _ & H & _). lia.
  - cbn [walk_aux]. cbv zeta. split.
    + intros H. apply in_app_iff in H.
      destruct H as [H|H];
        [apply in_map_iff in H as (name & <- & Hn)|apply in_flat_map in H as (d & Hd & Hf)].
      * apply filter_In in Hn as [Hn Hh].         rewrite child_names_In in Hn.
        exists [], name. repeat split; cbn; auto; try lia.
      * apply filter_In in Hd as [Hd Hk].         rewrite child_names_In in Hd.
        apply IH in Hf as (mid & name & -> & Hl & Hin & Hall & Hh & Hdirs).
        exists (d :: mid), name. rewrite <- app_assoc. cbn [app].
        split; [reflexivity|]. split; [cbn [length]; lia|].
        split; [rewrite <- app_assoc in Hin; exact Hin|].
        split; [constructor; assumption|]. split; [exact Hh|].
        intros [|j] Hj; [lia|]. rewrite firstn_app_cons_S.
        destruct j as [|j].
        -- cbn [firstn]. exact Hd.
        -- replace (root ++ d :: firstn (S j) mid)%list
             with ((root ++ [d]) ++ firstn (S j) mid)%list
             by (rewrite <- app_assoc; reflexivity).
           apply Hdirs. cbn [length] in Hj. lia.
    + intros (mid & name & -> & Hl & Hin & Hall & Hh & Hdirs).
      destruct mid as [|d mid].
      * apply in_app_iff. left. apply in_map_iff.
        exists name. split; [reflexivity|]. apply filter_In. split; [|exact Hh].
        rewrite child_names_In. exact Hin.
      * apply in_app_iff. right. apply in_flat_map.
        inversion Hall as [|? ? Hk Hall']; subst.
        exists d. split.
        -- apply filter_In. split; [|exact Hk]. rewrite child_names_In.
           apply (Hdirs 1%nat). cbn [length]. lia.
        -- apply IH. exists mid, name.
           split; [rewrite <- app_assoc; reflexivity|].
           split; [cbn [length] in Hl; lia|].
           split; [exact Hin|].
           split; [exact Hall'|]. split; [exact Hh|].
           intros j Hj. rewrite <- app_assoc. cbn [app].
           specialize (Hdirs (S j)). rewrite firstn_app_cons_S in Hdirs.
           apply Hdirs. cbn [length]. lia.
Qed.

Lemma walk_aux_prefix files dirs ih k root f :
  In f (walk_aux files dirs ih k root) -> exists x, f = (root ++ x)%list.
Proof.
  intros H. apply walk_aux_In in H as (mid & name & -> & _).
  eexists. reflexivity.
Qed.

(** X19. [_walk_repo] changes nothing and lists exactly the files
    [root/mid/name] of the tree such that [mid] has at most [max_depth]
    directories, each of them present, none in [DEFAULT_IGNORE_DIRS], none
    hidden unless [include_hidden], and [name] is not hidden unless
    [include_hidden]. *)
Theorem walk_repo_files repo md ih w s :
  exists files, walk_repo repo md ih w s = (inr files, s)
  /\ forall f, In f files <->
     exists mid name,
       f = (w_resolve w repo ++ mid ++ [name])%list
       /\ (Z.of_nat (length mid) <= md)%Z
       /\ In f (map fst (st_files s))
       /\ Forall (fun d => keep_dir ih d = true) mid
       /\ (ih || negb (hidden name)) = true
       /\ (forall j, (1 <= j <= length mid)%nat ->
                     In (w_resolve w repo ++ firstn j mid)%list (st_dirs s)).
Proof.
  eexists. split; [reflexivity|]. intros f. rewrite walk_aux_In.
  split; intros (mid & name & H1 & H2 & H3); exists mid, name;
    (split; [exact H1|]); (split; [lia|exact H3]).
Qed.

Lemma insert_str_In x l y : In y (insert_str x l) <-> x = y \/ In y l.
Proof.
  induction l as [|z r IH]; cbn [insert_str].
  - cbn. tauto.
  - destruct (String.leb x z); cbn [In]; [tauto|]. rewrite IH. tauto.
Qed.

Lemma sort_str_In l y : In y (sort_str l) <-> In y l.
Proof.
  induction l as [|x r IH]; cbn [sort_str fold_right]; [tauto|].
  fold (sort_str r). rewrite insert_str_In, IH. cbn [In]. tauto.
Qed.

Lemma insert_str_sorted x l :
  Sorted (fun a b => String.leb a b = true) l ->
  Sorted (fun a b => String.leb a b = true) (insert_str x l).
Proof.
  induction l as [|y r IH]; intros H; cbn [insert_str].
  - repeat constructor.
  - destruct (String.leb x y) eqn:E.
    + constructor; [exact H|constructor; exact E].
    + assert (Eyx : String.leb y x = true)
        by (destruct (String.leb_total x y) as [E'|E']; [congruence|exact E']).
      apply Sorted_inv in H as [Hr Hh].
      constructor; [exact (IH Hr)|].
      destruct r as [|z r']; cbn [insert_str]; [constructor; exact Eyx|].
      destruct (String.leb x z); constructor; [exact Eyx|].
      inversion Hh; assumption.
Qed.

Lemma sort_str_sorted l : Sorted (fun a b => String.leb a b = true) (sort_str l).
Proof.
  induction l as [|x r IH]; cbn [sort_str fold_right]; [constructor|].
  apply insert_str_sorted. exact IH.
Qed.

Lemma strip_prefix_app pre x : strip_prefix pre (pre ++ x)%list = Some x.
Proof. induction pre as [|y pre IH]; cbn; [reflexivity|]. rewrite String.eqb_refl. exact IH. Qed.

Lemma relative_to_under R x :
  relative_to (R ++ x)%list (mkPath true R) = inr (path_str (mkPath false x)).
Proof. unfold relative_to. cbn [p_abs p_parts]. rewrite strip_prefix_app. reflexivity. Qed.

Lemma relative_all_map base files (g : RPath -> string) :
  (forall f, In f files -> relative_to f base = inr (g f)) ->
  relative_all base files = inr (map g files).
Proof.
  induction files as [|f r IH]; intros H; cbn [relative_all map]; [reflexivity|].
  rewrite (H f (or_introl eq_refl)), IH by (intros q Hq; apply H; right; exact Hq).
  reflexivity.
Qed.

Lemma path_str_rel x : x <> [] -> path_str (mkPath false x) = join "/" x.
Proof. destruct x; [contradiction|reflexivity]. Qed.

Lemma abs_path_under ctx path w s base :
  fst (abs_path ctx path w s) = inr base ->
  exists rest, base = (w_resolve w (repo_dir ctx) ++ rest)%list.
Proof.
  unfold abs_path, bind, ask, raise, ret. cbv beta zeta.
  destruct (negb _ && negb _) eqn:E; cbn [fst]; [discriminate|].
  intros H. injection H as <-.
  apply andb_false_iff in E as [E|E]; apply negb_false_iff in E.
  - apply existsb_exists in E as (q & Hq & Eq). apply rpath_eqb_eq in Eq. subst q.
    unfold parents in Hq. apply in_map_iff in Hq as (k & Hk & _).
    exists (skipn k (w_resolve w (path_div (repo_dir ctx) path))).
    rewrite <- Hk. symmetry. apply firstn_skipn.
  - apply rpath_eqb_eq in E. rewrite E. exists []. rewrite app_nil_r. reflexivity.
Qed.

Lemma existsb_rpath_in p ps : In p ps -> existsb (rpath_eqb p) ps = true.
Proof.
  intros H. apply existsb_exists. exists p. split; [exact H|]. apply rpath_eqb_refl.
Qed.

Lemma list_files_dir_eq ctx path md ih w s base :
  fst (abs_path ctx path w s) = inr base ->
  file_at s base = None -> In base (st_dirs s) ->
  fst (list_files ctx path md ih w s)
  = match relative_all (repo_dir ctx)
            (walk_aux (map fst (st_files s)) (st_dirs s) ih (Z.to_nat (md + 1))
                      (w_resolve w (mkPath true base))) with
    | inl e => inl e
    | inr rels =>
        let rels := sort_str rels in
        inr (join nl (if (2000 <? length rels)%nat
                      then (firstn 2000 rels ++ ["... (truncated)"])%list else rels))
    end.
Proof.
  intros Ha Hf Hd. unfold list_files, fs_exists, fs_is_file, walk_repo, emit, ret, raise, bind.
  rewrite abs_path_state, Ha. unfold file_at in Hf.
  cbn [st_files st_trace st_dirs st_ctx st_tick st_draws]. cbv beta iota.
  cbn [st_files st_trace st_dirs st_ctx st_tick st_draws].
  rewrite existsb_find.
  destruct (find (fun f => rpath_eqb (fst f) base) (st_files s)) eqn:Ef; [discriminate Hf|].
  rewrite (existsb_rpath_in base (st_dirs s) Hd). cbn [orb negb].
  cbv beta iota. cbn [st_files st_trace st_dirs st_ctx st_tick st_draws].
  rewrite existsb_find, Ef. cbn [negb].
  cbn [fst]. destruct (relative_all _ _); reflexivity.
Qed.

Lemma skipn_prefix (R y : list string) : skipn (length R) (R ++ y)%list = y.
Proof. induction R as [|a R IH]; [reflexivity|exact IH]. Qed.

(** X20. [list_files] on a directory of a repository whose directory is
    already resolved returns the sorted paths, relative to the repository,
    of exactly the files [_walk_repo] finds under it, cut after 2000 lines
    with a ["... (truncated)"] line. *)
Theorem list_files_listing ctx path md ih w s base :
  fst (abs_path ctx path w s) = inr base ->
  file_at s base = None -> In base (st_dirs s) ->
  w_resolve w (mkPath true base) = base ->
  repo_dir ctx = mkPath true (w_resolve w (repo_dir ctx)) ->
  exists rels,
    fst (list_files ctx path md ih w s)
    = inr (join nl (if (2000 <? length rels)%nat
                    then (firstn 2000 rels ++ ["... (truncated)"])%list else rels))
    /\ Sorted (fun a b => String.leb a b = true) rels
    /\ (forall r, In r rels <->
        exists mid name,
          r = join "/" (skipn (length (w_resolve w (repo_dir ctx))) base ++ mid ++ [name])
          /\ In (base ++ mid ++ [name])%list (map fst (st_files s))
          /\ (Z.of_nat (length mid) <= md)%Z
          /\ Forall (fun d => keep_dir ih d = true) mid
          /\ (ih || negb (hidden name)) = true
          /\ (forall j, (1 <= j <= length mid)%nat ->
                        In (base ++ firstn j mid)%list (st_dirs s))).
Proof.
  intros Ha Hf Hd Hres Hrepo.
  destruct (abs_path_under _ _ _ _ _ Ha) as [rest Hb].
  rewrite (list_files_dir_eq ctx path md ih w s base Ha Hf Hd), Hres.
  set (R := w_resolve w (repo_dir ctx)) in *.
  set (files := walk_aux (map fst (st_files s)) (st_dirs s) ih (Z.to_nat (md + 1)) base).
  rewrite (relative_all_map (repo_dir ctx) files
             (fun f => path_str (mkPath false (skipn (length R) f)))).
  2: { intros f Hin. apply walk_aux_prefix in Hin as [x ->]. rewrite Hrepo, Hb.
       rewrite <- app_assoc, relative_to_under, skipn_prefix. reflexivity. }
  cbv zeta. eexists. split; [reflexivity|]. split; [apply sort_str_sorted|].
  intros r. rewrite sort_str_In, in_map_iff. subst files. split.
  - intros (f & <- & Hin). apply walk_aux_In in Hin as (mid & name & -> & Hl & Hin & Hall & Hh & Hdirs).
    exists mid, name. split.
    + rewrite Hb, <- app_assoc, !skipn_prefix. apply path_str_rel.
      intros E. apply app_eq_nil in E as [_ E]. apply app_eq_nil in E as [_ E]. discriminate E.
    + repeat split; auto; lia.
  - intros (mid & name & -> & Hin & Hl & Hall & Hh & Hdirs).
    exists (base ++ mid ++ [name])%list. split.
    + rewrite Hb, <- app_assoc, !skipn_prefix. apply path_str_rel.
      intros E. apply app_eq_nil in E as [_ E]. apply app_eq_nil in E as [_ E]. discriminate E.
    + apply walk_aux_In. exists mid, name. repeat split; auto; lia.
Qed.

Lemma max_matches_reached maxm m :
  (1 <= m)%nat -> (maxm <=? Z.of_nat m)%Z = (Z.to_nat (Z.max 1 maxm) <=? m)%nat.
Proof.
  intros H. destruct (Z.leb_spec maxm (Z.of_nat m)); destruct (Nat.leb_spec (Z.to_nat (Z.max 1 maxm)) m);
    reflexivity || lia.
Qed.

Lemma firstn_app_le {A} n (l1 l2 : list A) :
  (n <= length l1)%nat -> firstn n (l1 ++ l2) = firstn n l1.
Proof.
  intros H. rewrite firstn_app. replace (n - length l1)%nat with 0%nat by lia.
  rewrite app_nil_r. reflexivity.
Qed.

Lemma app_cons_assoc {A} (l : list A) x r : (l ++ x :: r)%list = ((l ++ [x]) ++ r)%list.
Proof. rewrite <- app_assoc. reflexivity. Qed.

Lemma scan_lines_spec rel q maxm : forall lines idx acc,
  (length acc < Z.to_nat (Z.max 1 maxm))%nat ->
  scan_lines rel q maxm idx lines acc
  = let all := (acc ++ line_hits rel q idx lines)%list in
    if (Z.to_nat (Z.max 1 maxm) <=? length all)%nat
    then inl (join nl (firstn (Z.to_nat (Z.max 1 maxm)) all) ++ nl ++ "... (truncated)")
    else inr all.
Proof.
  induction lines as [|line r IH]; intros idx acc Hacc; cbv zeta.
  - cbn [scan_lines line_hits]. rewrite app_nil_r.
    destruct (Nat.leb_spec (Z.to_nat (Z.max 1 maxm)) (length acc)); [lia|reflexivity].
  - cbn [scan_lines line_hits]. destruct (contains q line) eqn:C; cbn [app].
    + rewrite max_matches_reached by (rewrite length_app; cbn [length]; lia).
      destruct (Nat.leb_spec (Z.to_nat (Z.max 1 maxm)) (length (acc ++ [(rel ++ ":" ++ str_Z idx ++ ": " ++ strip line)%string])%list)) as [E|E].
      * rewrite length_app in E. cbn [length] in E.
        rewrite (app_cons_assoc acc _ (line_hits rel q (idx + 1) r)).
        rewrite (proj2 (Nat.leb_le _ _)) by (rewrite !length_app; cbn [length]; lia).
        rewrite firstn_app_le by (rewrite length_app; cbn [length]; lia).
        rewrite firstn_all2 by (rewrite length_app; cbn [length]; lia). reflexivity.
      * rewrite (IH (idx + 1)%Z _ E). cbv zeta. rewrite <- app_assoc. reflexivity.
    + exact (IH (idx + 1)%Z acc Hacc).
Qed.

Lemma scan_files_spec s R q maxm : forall files acc,
  (forall f, In f files -> exists x, f = (R ++ x)%list) ->
  (length acc < Z.to_nat (Z.max 1 maxm))%nat ->
  scan_files s (mkPath true R) q maxm files acc
  = let all := (acc ++ flat_map (file_hits s R q) files)%list in
    if (Z.to_nat (Z.max 1 maxm) <=? length all)%nat
    then inr (inl (join nl (firstn (Z.to_nat (Z.max 1 maxm)) all) ++ nl ++ "... (truncated)"))
    else inr (inr all).
Proof.
  induction files as [|f r IH]; intros acc Hpre Hacc; cbv zeta.
  - cbn [scan_files flat_map]. rewrite app_nil_r.
    destruct (Nat.leb_spec (Z.to_nat (Z.max 1 maxm)) (length acc)); [lia|reflexivity].
  - assert (Hr : forall g, In g r -> exists x, g = (R ++ x)%list)
      by (intros g Hg; apply Hpre; right; exact Hg).
    cbn [scan_files flat_map].
    destruct (file_at s f) as [text|] eqn:Ef.
    2: { replace (file_hits s R q f) with (@nil string) by (unfold file_hits; rewrite Ef; reflexivity).
         rewrite (IH acc Hr Hacc); reflexivity. }
    destruct (400000 <? Z.of_nat (String.length text))%Z eqn:E1.
    { replace (file_hits s R q f) with (@nil string)
        by (unfold file_hits; rewrite Ef, E1; reflexivity).
      rewrite (IH acc Hr Hacc); reflexivity. }
    destruct (contains q text) eqn:E2; cbn [negb].
    2: { replace (file_hits s R q f) with (@nil string)
           by (unfold file_hits; rewrite Ef, E1, E2; reflexivity).
         rewrite (IH acc Hr Hacc); reflexivity. }
    destruct (Hpre f (or_introl eq_refl)) as [x ->].
    replace (file_hits s R q (R ++ x)%list)
      with (line_hits (path_str (mkPath false x)) q 1 (splitlines text))
      by (unfold file_hits; rewrite Ef, E1, E2, skipn_prefix; reflexivity).
    rewrite relative_to_under, scan_lines_spec by exact Hacc. cbv zeta.
    destruct (Nat.leb_spec (Z.to_nat (Z.max 1 maxm))
                (length (acc ++ line_hits (path_str (mkPath false x)) q 1 (splitlines text))%list))
      as [E|E].
    + rewrite app_assoc.
      rewrite (proj2 (Nat.leb_le _ _)) by (rewrite length_app; lia).
      rewrite (firstn_app_le _ (acc ++ _)%list (flat_map _ r)) by exact E. reflexivity.
    + rewrite (IH _ Hr E). cbv zeta. rewrite <- app_assoc. reflexivity.
Qed.

(** X22. In a repository whose directory is already resolved, [search_repo]
    changes nothing and returns ["NO MATCHES"] when no line matches;
    otherwise it returns the first [max(1, max_matches)] matching lines
    ["<rel>:<line number>: <stripped line>"], followed by
    ["... (truncated)"] exactly when there are at least [max_matches]
    of them. *)
Theorem search_repo_result ctx q maxm w s :
  repo_dir ctx = mkPath true (w_resolve w (repo_dir ctx)) ->
  let hits := search_hits s (w_resolve w (repo_dir ctx)) q in
  let n := Z.to_nat (Z.max 1 maxm) in
  search_repo ctx q maxm w s
  = (inr (match hits with
          | [] => "NO MATCHES"
          | _ => if (n <=? length hits)%nat
                 then join nl (firstn n hits) ++ nl ++ "... (truncated)"
                 else join nl hits
          end), s).
Proof.
  intros Hrepo. cbv zeta. unfold search_repo, bind, walk_repo. cbv beta iota.
  unfold search_hits. rewrite Hrepo at 1.
  rewrite scan_files_spec.
  2: { intros f Hf. exact (walk_aux_prefix _ _ _ _ _ _ Hf). }
  2: { cbn [length]. lia. }
  cbv zeta. cbn [app]. replace (Z.to_nat (25 + 1)) with 26%nat by reflexivity.
  destruct (flat_map _ _) as [|h t] eqn:E.
  - cbn [length]. destruct (Nat.leb_spec (Z.to_nat (Z.max 1 maxm)) 0); [lia|reflexivity].
  - destruct (Z.to_nat (Z.max 1 maxm) <=? length (h :: t))%nat; reflexivity.
Qed.

Lemma existsb_rpath_false p ps : existsb (rpath_eqb p) ps = false -> ~ In p ps.
Proof.
  intros H Hin. rewrite (existsb_rpath_in p ps Hin) in H. discriminate H.
Qed.

(** X21. [list_files] never changes a file or a directory.  On a path outside
    the repository it raises the error of [abs_path]; on a path that does not
    exist it returns ["ERROR: path does not exist: <path>"]; on a file it
    returns the path as [str(Path(path))] writes it. *)
Theorem list_files_edge ctx path md ih w s :
  let '(res, s') := list_files ctx path md ih w s in
  st_files s' = st_files s /\ st_dirs s' = st_dirs s
  /\ match fst (abs_path ctx path w s) with
     | inl e => res = inl e
     | inr base =>
         (file_at s base = None -> ~ In base (st_dirs s) ->
          res = inr ("ERROR: path does not exist: " ++ path))
         /\ (file_at s base <> None -> res = inr (path_str (path_of_string path)))
     end.
Proof.
  unfold list_files. unfold bind at 1. rewrite abs_path_state.
  destruct (fst (abs_path ctx path w s)) as [e|base]; [cbn; auto|].
  unfold fs_exists, fs_is_file, walk_repo, emit, ret, raise, bind, file_at.
  cbv beta iota. cbn [st_files st_trace st_dirs st_ctx st_tick st_draws].
  rewrite !existsb_find.
  destruct (find (fun f => rpath_eqb (fst f) base) (st_files s)) as [fb|] eqn:Ef;
    cbn [orb negb st_files st_trace st_dirs st_ctx st_tick st_draws]; rewrite ?Ef.
  - cbv beta iota. cbn [st_files st_trace st_dirs st_ctx st_tick st_draws].
    rewrite existsb_find, Ef. cbn [negb]. rewrite ?Ef.
    split; [reflexivity|]. split; [reflexivity|]. split.
    + intros H. rewrite Ef in H. discriminate H.
    + intros _. reflexivity.
  - destruct (find (rpath_eqb base) (st_dirs s)) as [qd|] eqn:Ed;
      repeat progress (cbv beta iota;
                       cbn [orb negb st_files st_trace st_dirs st_ctx st_tick st_draws fst snd];
                       rewrite ?existsb_find, ?Ef, ?Ed).
    + apply find_some in Ed as [Hq Eq]. apply rpath_eqb_eq in Eq. subst qd.
      destruct (relative_all _ _);
        (split; [reflexivity|]); (split; [reflexivity|]); split;
        [intros _ Hn; exfalso; exact (Hn Hq)|intros H; exfalso; exact (H eq_refl)
        |intros _ Hn; exfalso; exact (Hn Hq)|intros H; exfalso; exact (H eq_refl)].
    + split; [reflexivity|]. split; [reflexivity|]. split.
      * intros _ _. reflexivity.
      * intros H. exfalso. exact (H eq_refl).
Qed.

(** Listing the root of [st_demo_repo] to depth 4. *)
Lemma list_files_listing_witness :
  fst (abs_path (mkCtx (path_of_string "/repo") config_test_only "s1") "." world_test_fails
                st_demo_repo) = inr ["repo"]
  /\ file_at st_demo_repo ["repo"] = None
  /\ In ["repo"] (st_dirs st_demo_repo)
  /\ w_resolve world_test_fails (mkPath true ["repo"]) = ["repo"]
  /\ repo_dir (mkCtx (path_of_string "/repo") config_test_only "s1")
     = mkPath true (w_resolve world_test_fails
                              (repo_dir (mkCtx (path_of_string "/repo") config_test_only "s1")))
  /\ exists rels,
    fst (list_files (mkCtx (path_of_string "/repo") config_test_only "s1") "." 4 false
                    world_test_fails st_demo_repo)
    = inr (join nl (if (2000 <? length rels)%nat
                    then (firstn 2000 rels ++ ["... (truncated)"])%list else rels))
    /\ Sorted (fun a b => String.leb a b = true) rels
    /\ (forall r, In r rels <->
        exists mid name,
          r = join "/" (skipn (length (w_resolve world_test_fails
                                        (repo_dir (mkCtx (path_of_string "/repo")
                                                         config_test_only "s1"))))
                              ["repo"] ++ mid ++ [name])
          /\ In (["repo"] ++ mid ++ [name])%list (map fst (st_files st_demo_repo))
          /\ (Z.of_nat (length mid) <= 4)%Z
          /\ Forall (fun d => keep_dir false d = true) mid
          /\ (false || negb (hidden name)) = true
          /\ (forall j, (1 <= j <= length mid)%nat ->
                        In (["repo"] ++ firstn j mid)%list (st_dirs st_demo_repo))).
Proof.
  assert (H1 : fst (abs_path (mkCtx (path_of_string "/repo") config_test_only "s1") "."
                             world_test_fails st_demo_repo) = inr ["repo"])
    by (vm_compute; reflexivity).
  assert (H2 : file_at st_demo_repo ["repo"] = None) by (vm_compute; reflexivity).
  assert (H3 : In ["repo"] (st_dirs st_demo_repo)) by (cbn; left; reflexivity).
  assert (H4 : w_resolve world_test_fails (mkPath true ["repo"]) = ["repo"]) by reflexivity.
  assert (H5 : repo_dir (mkCtx (path_of_string "/repo") config_test_only "s1")
               = mkPath true (w_resolve world_test_fails
                                (repo_dir (mkCtx (path_of_string "/repo") config_test_only "s1"))))
    by (vm_compute; reflexivity).
  split; [exact H1|]. split; [exact H2|]. split; [exact H3|]. split; [exact H4|].
  split; [exact H5|].
  exact (list_files_listing _ _ 4 false _ _ _ H1 H2 H3 H4 H5).
Defined.

(** Searching [st_demo_repo] for ["os"] with [max_matches = 2]. *)
Lemma search_repo_result_witness :
  repo_dir (mkCtx (path_of_string "/repo") config_test_only "s1")
  = mkPath true (w_resolve world_test_fails
                           (repo_dir (mkCtx (path_of_string "/repo") config_test_only "s1")))
  /\ search_repo (mkCtx (path_of_string "/repo") config_test_only "s1") "os" 2
                 world_test_fails st_demo_repo
     = (inr ("a.py:1: import os" ++ nl ++ "a.py:2: x = os.getcwd()" ++ nl ++ "... (truncated)"),
        st_demo_repo).
Proof.
  assert (H : repo_dir (mkCtx (path_of_string "/repo") config_test_only "s1")
              = mkPath true (w_resolve world_test_fails
                               (repo_dir (mkCtx (path_of_string "/repo") config_test_only "s1"))))
    by (vm_compute; reflexivity).
  split; [exact H|].
  rewrite (search_repo_result _ "os" 2 _ st_demo_repo H). vm_compute. reflexivity.
Defined.

Lemma NoDup_map_snoc (root : RPath) (names : list string) :
  NoDup names -> NoDup (map (fun f => (root ++ [f])%list) names).
Proof.
  induction 1 as [|x l Hx Hl IH]; cbn [map]; constructor; [|exact IH].
  intros Hin. apply in_map_iff in Hin as (y & Hy & Hyl).
  apply app_inv_head in Hy. injection Hy as ->. exact (Hx Hyl).
Qed.

Lemma NoDup_flat_map_disjoint {A B} (g : A -> list B) (l : list A) :
  NoDup l -> (forall x, In x l -> NoDup (g x)) ->
  (forall x y z, In x l -> In y l -> In z (g x) -> In z (g y) -> x = y) ->
  NoDup (flat_map g l).
Proof.
  induction 1 as [|x l Hx Hl IH]; intros Hg Hdis; cbn [flat_map]; [constructor|].
  apply NoDup_app.
  - apply Hg. left. reflexivity.
  - apply IH; [intros y Hy; apply Hg; right; exact Hy|].
    intros y y' z Hy Hy' Hz Hz'. exact (Hdis y y' z (or_intror Hy) (or_intror Hy') Hz Hz').
  - intros z Hz Hz'. apply in_flat_map in Hz' as (y & Hy & Hzy).
    assert (x = y) as <- by exact (Hdis x y z (or_introl eq_refl) (or_intror Hy) Hz Hzy).
    exact (Hx Hy).
Qed.

Lemma walk_aux_NoDup files dirs ih k : forall root, NoDup (walk_aux files dirs ih k root).
Proof.
  induction k as [|k IH]; intros root; cbn [walk_aux]; [constructor|]. cbv zeta.
  apply NoDup_app.
  - apply NoDup_map_snoc. apply NoDup_filter. apply NoDup_nodup.
  - apply NoDup_flat_map_disjoint.
    + apply NoDup_filter. apply NoDup_nodup.
    + intros d _. apply IH.
    + intros d d' z _ _ Hz Hz'.
      apply walk_aux_prefix in Hz as [x ->]. apply walk_aux_prefix in Hz' as [x' E].
      rewrite <- !app_assoc in E. apply app_inv_head in E. injection E as E _. exact E.
  - intros z Hz Hz'. apply in_map_iff in Hz as (n & <- & _).
    apply in_flat_map in Hz' as (d & _ & Hd).
    apply walk_aux_In in Hd as (mid & name & E & _).
    apply (f_equal (@length string)) in E. rewrite !length_app in E. cbn [length] in E. lia.
Qed.

(** X23. [_walk_repo] lists no file twice. *)
Theorem walk_repo_nodup repo md ih w s :
  exists files, walk_repo repo md ih w s = (inr files, s) /\ NoDup files.
Proof. eexists. split; [reflexivity|]. apply walk_aux_NoDup. Qed.
